(** * ib_insync.client: session and transport layer

    A shallow embedding of [ib_insync/client.py] (classes [Client] and
    [Connection]) and proofs about its frame codec, its readiness barrier,
    its request throttle and its accessors.

    Conventions of the embedding.
    - [bytes] objects are lists of [byte].  A Python [str] is represented
      by its UTF-8 encoding, so that [s.encode()] is the identity and
      [b.decode()] is a validity check; the separator character NUL and
      the comma are single bytes that occur in no multi-byte sequence.
    - Python integers are [Z].
    - Event-loop time ([loop.time()], [time.time()]) is a float; a time is
      kept as the rational number of seconds it stands for, and a sum
      or difference that the code takes of times is rounded to the
      nearest double, as the operation on floats is.
    - Exceptions are values: a method is a function from the client state
      to the new state and either a result or the exception raised.
    - Calls that leave the module (wrapper callbacks, the ibapi decoder,
      the logger) are appended to a trace; whether such a call raises is
      decided by an oracle that sees the trace so far.  Callbacks are
      assumed not to call back into the client while they run. *)

From Stdlib Require Import List ZArith QArith Lia Lqa Bool.
From Stdlib Require Import Strings.Byte Strings.String Strings.Ascii.
From Stdlib Require Import DecimalString FinFun.
From Stdlib Require DecimalPos.
Import ListNotations.

Local Open Scope Z_scope.

(** ** Python primitives *)

Definition bytes := list byte.

(** A bytes literal. *)
Definition B (s : string) : bytes := list_byte_of_string s.

(** [len(x)] *)
Definition len {A : Type} (l : list A) : Z := Z.of_nat (List.length l).

Definition Z_of_byte (b : byte) : Z := Z.of_N (Byte.to_N b).

Definition byte_of_Z (z : Z) : byte :=
  match Byte.of_N (Z.to_N (z mod 256)) with
  | Some b => b
  | None => x00
  end.

(** [data[a:b]] and [data[a:]] for non-negative indices. *)
Definition slice {A : Type} (a b : Z) (l : list A) : list A :=
  firstn (Z.to_nat (b - a)) (skipn (Z.to_nat a) l).

Definition slice_from {A : Type} (a : Z) (l : list A) : list A :=
  skipn (Z.to_nat a) l.

(** [struct.pack('>I', n)]: raises [struct.error] outside [0, 2^32). *)
Definition pack_I (n : Z) : option bytes :=
  if (0 <=? n) && (n <? 2 ^ 32) then
    Some [byte_of_Z (Z.shiftr n 24); byte_of_Z (Z.shiftr n 16);
          byte_of_Z (Z.shiftr n 8); byte_of_Z n]
  else None.

(** Four bytes read as a big-endian unsigned integer. *)
Definition be32 (b0 b1 b2 b3 : byte) : Z :=
  Z.shiftl (Z_of_byte b0) 24 + Z.shiftl (Z_of_byte b1) 16
  + Z.shiftl (Z_of_byte b2) 8 + Z_of_byte b3.

(** [struct.unpack('>I', b)[0]]: raises [struct.error] unless [len(b) = 4]. *)
Definition unpack_I (b : bytes) : option Z :=
  match b with
  | [b0; b1; b2; b3] => Some (be32 b0 b1 b2 b3)
  | _ => None
  end.

(** [s.split(sep)] with an explicit one-byte separator: never empty. *)
Fixpoint split (sep : byte) (s : bytes) : list bytes :=
  match s with
  | [] => [[]]
  | c :: s' =>
      if Byte.eqb c sep then [] :: split sep s'
      else match split sep s' with
           | [] => [[c]]
           | f :: fs => (c :: f) :: fs
           end
  end.

(** [l.pop()]: the list without its last element; [IndexError] on []. *)
Definition pop {A : Type} (l : list A) : option (list A) :=
  match l with
  | [] => None
  | _ => Some (removelast l)
  end.

(** [sep.join(l)] *)
Fixpoint join (sep : bytes) (l : list bytes) : bytes :=
  match l with
  | [] => []
  | [x] => x
  | x :: rest => x ++ sep ++ join sep rest
  end.

(** [Py_ISSPACE]: space, tab, newline, vertical tab, form feed, return. *)
Definition py_isspace (b : byte) : bool :=
  let c := Z_of_byte b in (c =? 32) || ((9 <=? c) && (c <=? 13)).

Definition is_digit (b : byte) : bool :=
  let c := Z_of_byte b in (48 <=? c) && (c <=? 57).

Definition digit_value (b : byte) : Z := Z_of_byte b - 48.

Fixpoint lstrip (s : bytes) : bytes :=
  match s with
  | c :: s' => if py_isspace c then lstrip s' else s
  | [] => []
  end.

Inductive scan_prev := PStart | PDigit | PUnderscore.

(** The digit scan of [PyLong_FromString] in base 10: digits with single
    underscores between them; returns the value and the unread rest. *)
Fixpoint scan_digits (s : bytes) (prev : scan_prev) (acc : Z)
  : option (Z * bytes) :=
  let finish := match prev with PDigit => Some (acc, s) | _ => None end in
  match s with
  | c :: s' =>
      if is_digit c then scan_digits s' PDigit (10 * acc + digit_value c)
      else if Byte.eqb c "_"%byte then
        match prev with
        | PDigit => scan_digits s' PUnderscore acc
        | _ => None
        end
      else finish
  | [] => finish
  end.

(** [int(b)] for a bytes object: [None] stands for [ValueError].
    (The digit-count limit of recent interpreters is not modelled.) *)
Definition py_int (s : bytes) : option Z :=
  let s1 := lstrip s in
  let '(sign, s2) :=
    match s1 with
    | c :: r => if Byte.eqb c "+"%byte then (1, r)
                else if Byte.eqb c "-"%byte then (-1, r)
                else (1, s1)
    | [] => (1, s1)
    end in
  match scan_digits s2 PStart 0 with
  | Some (n, rest) => if forallb py_isspace rest then Some (sign * n) else None
  | None => None
  end.

(** [str(n)] for an integer. *)
Definition py_str_int (n : Z) : bytes :=
  list_byte_of_string (NilZero.string_of_int (Z.to_int n)).

(** Strict UTF-8 validity: [b.decode()] raises [UnicodeDecodeError]
    exactly when this is [false]. *)
Definition is_cont (b : byte) : bool :=
  let c := Z_of_byte b in (128 <=? c) && (c <=? 191).

Definition in_range (lo hi : Z) (b : byte) : bool :=
  let c := Z_of_byte b in (lo <=? c) && (c <=? hi).

Fixpoint utf8_valid_fuel (fuel : nat) (s : bytes) : bool :=
  match fuel with
  | O => match s with [] => true | _ => false end
  | S fuel' =>
      match s with
      | [] => true
      | c :: r =>
          let z := Z_of_byte c in
          if z <? 128 then utf8_valid_fuel fuel' r
          else if in_range 194 223 c then
            match r with
            | c1 :: r' => is_cont c1 && utf8_valid_fuel fuel' r'
            | _ => false
            end
          else if in_range 224 239 c then
            match r with
            | c1 :: c2 :: r' =>
                (if z =? 224 then in_range 160 191 c1
                 else if z =? 237 then in_range 128 159 c1
                 else is_cont c1)
                && is_cont c2 && utf8_valid_fuel fuel' r'
            | _ => false
            end
          else if in_range 240 244 c then
            match r with
            | c1 :: c2 :: c3 :: r' =>
                (if z =? 240 then in_range 144 191 c1
                 else if z =? 244 then in_range 128 143 c1
                 else is_cont c1)
                && is_cont c2 && is_cont c3 && utf8_valid_fuel fuel' r'
            | _ => false
            end
          else false
      end
  end.

Definition utf8_valid (s : bytes) : bool := utf8_valid_fuel (List.length s) s.

(** [b.decode()] *)
Definition py_decode (s : bytes) : option bytes :=
  if utf8_valid s then Some s else None.

Definition NUL : byte := x00.
Definition COMMA : byte := ","%byte.


(** ** Outbound field values (the arguments of [_encode]) *)

(** A Python float, kept abstract: its [str()] and whether it compares
    equal to [UNSET_INTEGER] or [UNSET_DOUBLE]. *)
Record pyfloat := mkFloat {
  float_str : bytes;
  float_is_unset : bool
}.

Record TagValue := mkTagValue {
  tag : bytes;
  value : bytes
}.

Record Contract := mkContract {
  conId : Z;
  symbol : bytes;
  secType : bytes;
  lastTradeDateOrContractMonth : bytes;
  strike : pyfloat;
  right : bytes;
  multiplier : bytes;
  exchange : bytes;
  primaryExchange : bytes;
  currency : bytes;
  localSymbol : bytes;
  tradingClass : bytes;
  includeExpired : bool
}.

Inductive field :=
| FNone
| FBool (b : bool)
| FInt (n : Z)
| FFloat (x : pyfloat)
| FStr (s : bytes)
| FContract (c : Contract)
| FTagValues (l : list TagValue).

(** [ibapi.common.UNSET_INTEGER] *)
Definition UNSET_INTEGER : Z := 2 ^ 31 - 1.

(** [ibapi.common.UNSET_DOUBLE] is [sys.float_info.max], the largest
    finite double.  Its exact value is this integer, and Python compares
    an int with a float exactly, so an integer field is [==] to it only
    when it is this very integer. *)
Definition UNSET_DOUBLE : Z := 2 ^ 1024 - 2 ^ 971.

(** [field in (None, UNSET_INTEGER, UNSET_DOUBLE)] for an integer. *)
Definition is_unset_int (n : Z) : bool :=
  (n =? UNSET_INTEGER) || (n =? UNSET_DOUBLE).

(** The tokens a field is rendered to, in order: thirteen for a
    contract, one for everything else. *)
Definition contract_tokens (c : Contract) : list bytes :=
  [py_str_int (conId c); symbol c; secType c;
   lastTradeDateOrContractMonth c; float_str (strike c);
   right c; multiplier c; exchange c;
   primaryExchange c; currency c;
   localSymbol c; tradingClass c;
   py_str_int (if includeExpired c then 1 else 0)].

Definition tagvalue_str (v : TagValue) : bytes :=
  tag v ++ B "=" ++ value v ++ B ";".

(** The string [s] that one iteration of the loop of [_encode] writes. *)
Definition render (f : field) : bytes :=
  match f with
  | FNone => []
  | FInt n => if is_unset_int n then [] else py_str_int n
  | FFloat x => if float_is_unset x then [] else float_str x
  | FContract c => join [NUL] (contract_tokens c)
  | FTagValues l => List.concat (map tagvalue_str l)
  | FBool b => if b then B "1" else B "0"
  | FStr s => s
  end.

(** [Client._encode] *)
Definition _encode (fields : list field) : bytes :=
  fold_left (fun result f => result ++ render f ++ [NUL]) fields [].

(** [Client._prefix(msg)]; [None] is [struct.error]. *)
Definition _prefix (msg : bytes) : option bytes :=
  match pack_I (len msg) with
  | Some p => Some (p ++ msg)
  | None => None
  end.

(** ** Inbound framing: the extraction step of [_onSocketHasData] *)

Inductive exn :=
| ValueError
| IndexError
| AssertionError (msg : string)
| UnicodeDecodeError
| StructError
| AttributeError
| CallbackError          (* raised by an external callback *)
| OutOfFuel.             (* not a Python exception: the loop model ran dry *)

Inductive outcome (A : Type) :=
| Ret (a : A)
| Raise (e : exn).
Arguments Ret {A} a.
Arguments Raise {A} e.

(** One pass through lines 219-229: [Ret None] is [break]; otherwise the
    field list of the frame at the head of the buffer and the buffer that
    remains. *)
Definition next_frame (data : bytes) : outcome (option (list bytes * bytes)) :=
  if len data <=? 4 then Ret None
  else
    match unpack_I (slice 0 4 data) with
    | None => Raise StructError
    | Some n =>
        let msgEnd := 4 + n in
        if len data <? msgEnd then Ret None
        else
          let msg := slice 4 msgEnd data in
          let data' := slice_from msgEnd data in
          match pop (split NUL msg) with
          | None => Raise IndexError
          | Some fields => Ret (Some (fields, data'))
          end
    end.

(** The frame codec alone: the [while True] loop with the handling of
    each frame left out.  Returns the field lists in order and the buffer
    left over; [None] only when the fuel is exhausted or a step raises. *)
Fixpoint extract_frames_fuel (fuel : nat) (data : bytes)
  : option (list (list bytes) * bytes) :=
  match fuel with
  | O => None
  | S fuel' =>
      match next_frame data with
      | Raise _ => None
      | Ret None => Some ([], data)
      | Ret (Some (fields, data')) =>
          match extract_frames_fuel fuel' data' with
          | Some (fs, rest) => Some (fields :: fs, rest)
          | None => None
          end
      end
  end.

Definition extract_frames (data : bytes) : option (list (list bytes) * bytes) :=
  extract_frames_fuel (S (List.length data)) data.

(** Delivering chunks one at a time to a codec whose buffer is [buf]. *)
Fixpoint feed_chunks (buf : bytes) (chunks : list bytes)
  : option (list (list bytes) * bytes) :=
  match chunks with
  | [] => Some ([], buf)
  | c :: cs =>
      match extract_frames (buf ++ c) with
      | None => None
      | Some (fs, buf') =>
          match feed_chunks buf' cs with
          | Some (fs', rest) => Some (fs ++ fs', rest)
          | None => None
          end
      end
  end.

(** ** The client state *)

Inductive ConnState := DISCONNECTED | CONNECTING | CONNECTED | REDIRECT.

Definition ConnState_eqb (a b : ConnState) : bool :=
  match a, b with
  | DISCONNECTED, DISCONNECTED | CONNECTING, CONNECTING
  | CONNECTED, CONNECTED | REDIRECT, REDIRECT => true
  | _, _ => false
  end.

Record Connection := mkConnection {
  socket : bool;          (* self.socket is not None *)
  numBytesSent : Z;
  numMsgSent : Z
}.

(** Calls that leave the module.  Prices are kept as the bytes given to
    [float()]. *)
Inductive event :=
| TcpDataArrived
| TcpDataProcessed
| PriceSizeTick (reqId tickType : Z) (price : bytes) (size : Z)
| TickSize (reqId tickType size : Z)
| UpdateMktDepth (reqId position operation side : Z) (price : bytes) (size : Z)
| TickString (reqId tickType : Z) (value : bytes)
| Interpret (fields : list bytes)
| ConnectAck
| WrapperError (msg : string)
| LogDebug (fields : list bytes)
| LogInfo (msg : string)
| LogWarn (msg : string)
| LogException (msg : string).

Record Client := mkClient {
  connState : ConnState;  (* EClient.connState *)
  serverVersion_ : option Z;  (* EClient.serverVersion_ *)
  connTime : option bytes;  (* EClient.connTime *)
  clientId : Z;  (* EClient.clientId *)
  optCapab : bytes;  (* EClient.optCapab *)
  conn : option Connection;  (* EClient.conn *)
  priceSizeTick_set : bool;  (* self._priceSizeTick is not None *)
  tcpDataArrived_set : bool;  (* self._tcpDataArrived is not None *)
  tcpDataProcessed_set : bool;  (* self._tcpDataProcessed is not None *)
  debug : bool;  (* self._logger.isEnabledFor(logging.DEBUG) *)
  _data : bytes;
  _readyEvent : bool;  (* asyncio.Event: is it set *)
  _reqIdSeq : Z;
  _accounts : option (list bytes);
  _startTime : Q;
  _numBytesRecv : Z;
  _numMsgRecv : Z;
  _isThrottling : bool;
  _msgQ : list bytes;  (* deque of str, oldest first *)
  _timeQ : list Q;  (* deque of send times, oldest first *)
  wire : list (Q * bytes);  (* what was written to the transport, and when *)
  timers : list Q;  (* pending loop.call_at(when, self.sendMsg, None) *)
  trace : list event  (* external calls made so far *)
}.

Definition set_connState (v : ConnState) (s : Client) : Client :=
  mkClient v (serverVersion_ s) (connTime s) (clientId s) (optCapab s) (conn
    s) (priceSizeTick_set s) (tcpDataArrived_set s) (tcpDataProcessed_set s)
    (debug s) (_data s) (_readyEvent s) (_reqIdSeq s) (_accounts s)
    (_startTime s) (_numBytesRecv s) (_numMsgRecv s) (_isThrottling s)
    (_msgQ s) (_timeQ s) (wire s) (timers s) (trace s).

Definition set_serverVersion_ (v : option Z) (s : Client) : Client :=
  mkClient (connState s) v (connTime s) (clientId s) (optCapab s) (conn s)
    (priceSizeTick_set s) (tcpDataArrived_set s) (tcpDataProcessed_set s)
    (debug s) (_data s) (_readyEvent s) (_reqIdSeq s) (_accounts s)
    (_startTime s) (_numBytesRecv s) (_numMsgRecv s) (_isThrottling s)
    (_msgQ s) (_timeQ s) (wire s) (timers s) (trace s).

Definition set_connTime (v : option bytes) (s : Client) : Client :=
  mkClient (connState s) (serverVersion_ s) v (clientId s) (optCapab s)
    (conn s) (priceSizeTick_set s) (tcpDataArrived_set s)
    (tcpDataProcessed_set s) (debug s) (_data s) (_readyEvent s) (_reqIdSeq
    s) (_accounts s) (_startTime s) (_numBytesRecv s) (_numMsgRecv s)
    (_isThrottling s) (_msgQ s) (_timeQ s) (wire s) (timers s) (trace s).

Definition set_conn (v : option Connection) (s : Client) : Client :=
  mkClient (connState s) (serverVersion_ s) (connTime s) (clientId s)
    (optCapab s) v (priceSizeTick_set s) (tcpDataArrived_set s)
    (tcpDataProcessed_set s) (debug s) (_data s) (_readyEvent s) (_reqIdSeq
    s) (_accounts s) (_startTime s) (_numBytesRecv s) (_numMsgRecv s)
    (_isThrottling s) (_msgQ s) (_timeQ s) (wire s) (timers s) (trace s).

Definition set_data (v : bytes) (s : Client) : Client :=
  mkClient (connState s) (serverVersion_ s) (connTime s) (clientId s)
    (optCapab s) (conn s) (priceSizeTick_set s) (tcpDataArrived_set s)
    (tcpDataProcessed_set s) (debug s) v (_readyEvent s) (_reqIdSeq s)
    (_accounts s) (_startTime s) (_numBytesRecv s) (_numMsgRecv s)
    (_isThrottling s) (_msgQ s) (_timeQ s) (wire s) (timers s) (trace s).

Definition set_readyEvent (v : bool) (s : Client) : Client :=
  mkClient (connState s) (serverVersion_ s) (connTime s) (clientId s)
    (optCapab s) (conn s) (priceSizeTick_set s) (tcpDataArrived_set s)
    (tcpDataProcessed_set s) (debug s) (_data s) v (_reqIdSeq s) (_accounts
    s) (_startTime s) (_numBytesRecv s) (_numMsgRecv s) (_isThrottling s)
    (_msgQ s) (_timeQ s) (wire s) (timers s) (trace s).

Definition set_reqIdSeq (v : Z) (s : Client) : Client :=
  mkClient (connState s) (serverVersion_ s) (connTime s) (clientId s)
    (optCapab s) (conn s) (priceSizeTick_set s) (tcpDataArrived_set s)
    (tcpDataProcessed_set s) (debug s) (_data s) (_readyEvent s) v
    (_accounts s) (_startTime s) (_numBytesRecv s) (_numMsgRecv s)
    (_isThrottling s) (_msgQ s) (_timeQ s) (wire s) (timers s) (trace s).

Definition set_accounts (v : option (list bytes)) (s : Client) : Client :=
  mkClient (connState s) (serverVersion_ s) (connTime s) (clientId s)
    (optCapab s) (conn s) (priceSizeTick_set s) (tcpDataArrived_set s)
    (tcpDataProcessed_set s) (debug s) (_data s) (_readyEvent s) (_reqIdSeq
    s) v (_startTime s) (_numBytesRecv s) (_numMsgRecv s) (_isThrottling s)
    (_msgQ s) (_timeQ s) (wire s) (timers s) (trace s).

Definition set_startTime (v : Q) (s : Client) : Client :=
  mkClient (connState s) (serverVersion_ s) (connTime s) (clientId s)
    (optCapab s) (conn s) (priceSizeTick_set s) (tcpDataArrived_set s)
    (tcpDataProcessed_set s) (debug s) (_data s) (_readyEvent s) (_reqIdSeq
    s) (_accounts s) v (_numBytesRecv s) (_numMsgRecv s) (_isThrottling s)
    (_msgQ s) (_timeQ s) (wire s) (timers s) (trace s).

Definition set_numBytesRecv (v : Z) (s : Client) : Client :=
  mkClient (connState s) (serverVersion_ s) (connTime s) (clientId s)
    (optCapab s) (conn s) (priceSizeTick_set s) (tcpDataArrived_set s)
    (tcpDataProcessed_set s) (debug s) (_data s) (_readyEvent s) (_reqIdSeq
    s) (_accounts s) (_startTime s) v (_numMsgRecv s) (_isThrottling s)
    (_msgQ s) (_timeQ s) (wire s) (timers s) (trace s).

Definition set_numMsgRecv (v : Z) (s : Client) : Client :=
  mkClient (connState s) (serverVersion_ s) (connTime s) (clientId s)
    (optCapab s) (conn s) (priceSizeTick_set s) (tcpDataArrived_set s)
    (tcpDataProcessed_set s) (debug s) (_data s) (_readyEvent s) (_reqIdSeq
    s) (_accounts s) (_startTime s) (_numBytesRecv s) v (_isThrottling s)
    (_msgQ s) (_timeQ s) (wire s) (timers s) (trace s).

Definition set_isThrottling (v : bool) (s : Client) : Client :=
  mkClient (connState s) (serverVersion_ s) (connTime s) (clientId s)
    (optCapab s) (conn s) (priceSizeTick_set s) (tcpDataArrived_set s)
    (tcpDataProcessed_set s) (debug s) (_data s) (_readyEvent s) (_reqIdSeq
    s) (_accounts s) (_startTime s) (_numBytesRecv s) (_numMsgRecv s) v
    (_msgQ s) (_timeQ s) (wire s) (timers s) (trace s).

Definition set_msgQ (v : list bytes) (s : Client) : Client :=
  mkClient (connState s) (serverVersion_ s) (connTime s) (clientId s)
    (optCapab s) (conn s) (priceSizeTick_set s) (tcpDataArrived_set s)
    (tcpDataProcessed_set s) (debug s) (_data s) (_readyEvent s) (_reqIdSeq
    s) (_accounts s) (_startTime s) (_numBytesRecv s) (_numMsgRecv s)
    (_isThrottling s) v (_timeQ s) (wire s) (timers s) (trace s).

Definition set_timeQ (v : list Q) (s : Client) : Client :=
  mkClient (connState s) (serverVersion_ s) (connTime s) (clientId s)
    (optCapab s) (conn s) (priceSizeTick_set s) (tcpDataArrived_set s)
    (tcpDataProcessed_set s) (debug s) (_data s) (_readyEvent s) (_reqIdSeq
    s) (_accounts s) (_startTime s) (_numBytesRecv s) (_numMsgRecv s)
    (_isThrottling s) (_msgQ s) v (wire s) (timers s) (trace s).

Definition set_wire (v : list (Q * bytes)) (s : Client) : Client :=
  mkClient (connState s) (serverVersion_ s) (connTime s) (clientId s)
    (optCapab s) (conn s) (priceSizeTick_set s) (tcpDataArrived_set s)
    (tcpDataProcessed_set s) (debug s) (_data s) (_readyEvent s) (_reqIdSeq
    s) (_accounts s) (_startTime s) (_numBytesRecv s) (_numMsgRecv s)
    (_isThrottling s) (_msgQ s) (_timeQ s) v (timers s) (trace s).

Definition set_timers (v : list Q) (s : Client) : Client :=
  mkClient (connState s) (serverVersion_ s) (connTime s) (clientId s)
    (optCapab s) (conn s) (priceSizeTick_set s) (tcpDataArrived_set s)
    (tcpDataProcessed_set s) (debug s) (_data s) (_readyEvent s) (_reqIdSeq
    s) (_accounts s) (_startTime s) (_numBytesRecv s) (_numMsgRecv s)
    (_isThrottling s) (_msgQ s) (_timeQ s) (wire s) v (trace s).

Definition set_trace (v : list event) (s : Client) : Client :=
  mkClient (connState s) (serverVersion_ s) (connTime s) (clientId s)
    (optCapab s) (conn s) (priceSizeTick_set s) (tcpDataArrived_set s)
    (tcpDataProcessed_set s) (debug s) (_data s) (_readyEvent s) (_reqIdSeq
    s) (_accounts s) (_startTime s) (_numBytesRecv s) (_numMsgRecv s)
    (_isThrottling s) (_msgQ s) (_timeQ s) (wire s) (timers s) v.

(** ** A state-and-exception monad for the methods *)

Definition M (A : Type) : Type := Client -> Client * outcome A.

Definition ret {A : Type} (a : A) : M A := fun s => (s, Ret a).

Definition raise {A : Type} (e : exn) : M A := fun s => (s, Raise e).

Definition bind {A B : Type} (m : M A) (k : A -> M B) : M B :=
  fun s =>
    match m s with
    | (s', Ret a) => k a s'
    | (s', Raise e) => (s', Raise e)
    end.

Definition get : M Client := fun s => (s, Ret s).

Definition modify (f : Client -> Client) : M unit := fun s => (f s, Ret tt).

(** [try: m except: h] with a bare [except]. *)
Definition try_except (m : M unit) (h : M unit) : M unit :=
  fun s =>
    match m s with
    | (s', Ret a) => (s', Ret a)
    | (s', Raise _) => h s'
    end.

Definition of_option {A : Type} (e : exn) (o : option A) : M A :=
  match o with
  | Some a => ret a
  | None => raise e
  end.

Definition when (b : bool) (m : M unit) : M unit := if b then m else ret tt.

Declare Scope monad_scope.
Delimit Scope monad_scope with monad.
Notation "x <- m ;; k" := (bind m (fun x => k))
  (at level 61, m at next level, right associativity) : monad_scope.
Notation "m ;; k" := (bind m (fun _ => k))
  (at level 61, right associativity) : monad_scope.
Local Open Scope monad_scope.

(** The logger never raises. *)
Definition log (ev : event) : M unit :=
  modify (fun s => set_trace (trace s ++ [ev]) s).

(** Truthiness of the attributes the code tests with [if x:]. *)
Definition truthy_int (n : Z) : bool := negb (n =? 0).

Definition truthy_opt_int (o : option Z) : bool :=
  match o with
  | Some n => truthy_int n
  | None => false
  end.

Definition truthy_opt_list {A : Type} (o : option (list A)) : bool :=
  match o with
  | Some (_ :: _) => true
  | _ => false
  end.

Definition nonempty {A : Type} (l : list A) : bool :=
  match l with
  | [] => false
  | _ => true
  end.

(** Class attributes [Client.MaxRequests, Client.RequestsInterval]. *)
Definition MaxRequests : Z := 250.
Definition RequestsInterval : Q := 5%Q.

(** *** Floating point

    Loop times are Python floats.  A time is kept here as the rational
    number it stands for, and an operation on floats yields the double
    nearest to its exact result, ties going to the even mantissa.
    Overflow to infinity is not modelled. *)

(** The integer nearest to [a / b], for [b > 0], ties to the even one. *)
Definition round_half_even (a b : Z) : Z :=
  let q := a / b in
  match 2 * (a mod b) ?= b with
  | Lt => q
  | Gt => q + 1
  | Eq => if Z.even q then q else q + 1
  end.

(** [n / d] divided by [2 ^ e], as a fraction. *)
Definition scaled (n d : positive) (e : Z) : Z * Z :=
  if 0 <=? e then (Zpos n, Zpos d * 2 ^ e) else (Zpos n * 2 ^ (- e), Zpos d).

(** The exponent of the last place of the double nearest to [n / d]:
    the [e] with [2^52 <= (n / d) / 2^e < 2^53], and never less than
    [-1074], where the subnormal numbers begin. *)
Definition ulp_exp (n d : positive) : Z :=
  let e0 := Z.log2 (Zpos n) - Z.log2 (Zpos d) - 53 in
  let (a, b) := scaled n d e0 in
  Z.max (if a / b <? 2 ^ 53 then e0 else e0 + 1) (-1074).

Definition fl_pos (n d : positive) : Q :=
  let e := ulp_exp n d in
  let (a, b) := scaled n d e in
  let m := round_half_even a b in
  if 0 <=? e then inject_Z (m * 2 ^ e) else Qmake m (Z.to_pos (2 ^ (- e))).

(** The double nearest to [x]. *)
Definition fl (x : Q) : Q :=
  match Qnum x with
  | Z0 => 0
  | Zpos n => fl_pos n (Qden x)
  | Zneg n => - fl_pos n (Qden x)
  end.

(** [while times and t - times[0] > Client.RequestsInterval: times.popleft()],
    the difference being the float that the subtraction yields. *)
Fixpoint evict (t : Q) (times : list Q) : list Q :=
  match times with
  | t0 :: rest =>
      if Qle_bool (fl (t - t0)) RequestsInterval then times else evict t rest
  | [] => []
  end.

(** [Client.isReady] *)
Definition isReady (s : Client) : bool := _readyEvent s.

Definition assert (b : bool) (msg : string) : M unit :=
  if b then ret tt else raise (AssertionError msg).

(** [Client.getReqId] *)
Definition getReqId : M Z :=
  s <- get ;;
  assert (isReady s) "Not connected" ;;
  s <- get ;;
  let newId := _reqIdSeq s in
  modify (set_reqIdSeq (_reqIdSeq s + 1)) ;;
  ret newId.

(** [Client.getAccounts] *)
Definition getAccounts : M (option (list bytes)) :=
  s <- get ;;
  assert (isReady s) "Not connected" ;;
  s <- get ;;
  ret (_accounts s).

Record ConnectionStats := mkConnectionStats {
  startTime : Q;
  duration : Q;
  numBytesRecv : Z;
  cs_numBytesSent : Z;
  numMsgRecv : Z;
  cs_numMsgSent : Z
}.

(** [Client.connectionStats]; [now] is [time.time()], and the duration
    is the float [now - self._startTime]. *)
Definition connectionStats (now : Q) : M ConnectionStats :=
  s <- get ;;
  assert (isReady s) "Not connected" ;;
  s <- get ;;
  c <- of_option AttributeError (conn s) ;;
  ret (mkConnectionStats (_startTime s) (fl (now - _startTime s))
         (_numBytesRecv s) (numBytesSent c)
         (_numMsgRecv s) (numMsgSent c)).

(** [Connection.sendMsg(msg)] at loop time [t]. *)
Definition conn_sendMsg (t : Q) (msg : bytes) : M unit :=
  s <- get ;;
  c <- of_option AttributeError (conn s) ;;
  if socket c then
    modify (fun s =>
      set_conn (Some (mkConnection (socket c) (numBytesSent c + len msg)
                        (numMsgSent c + 1)))
        (set_wire (wire s ++ [(t, msg)]) s))
  else raise AttributeError.

(** The second loop of [sendMsg]:
    [while msgs and len(times) < Client.MaxRequests: ...].
    Each pass removes one message, so [length msgs] passes are enough.
    In [self.conn.sendMsg(self._prefix(msg.encode()))] the method is
    looked up on [self.conn] before the argument is evaluated, so a
    missing connection is noticed before a body too long to frame. *)
Fixpoint drain (t : Q) (n : nat) : M unit :=
  match n with
  | O => ret tt
  | S n' =>
      s <- get ;;
      match _msgQ s with
      | msg :: rest =>
          if len (_timeQ s) <? MaxRequests then
            modify (set_msgQ rest) ;;
            s <- get ;;
            _ <- of_option AttributeError (conn s) ;;
            frame <- of_option StructError (_prefix msg) ;;
            conn_sendMsg t frame ;;
            modify (fun s => set_timeQ (_timeQ s ++ [t]) s) ;;
            drain t n'
          else ret tt
      | [] => ret tt
      end
  end.

(** Lines 186-194, the end of [sendMsg]: with messages still queued,
    note that throttling began and schedule a flush for the moment the
    oldest send leaves the window, [times[0] + Client.RequestsInterval]
    as a sum of floats; otherwise note that it ended. *)
Definition reschedule : M unit :=
  s <- get ;;
  if nonempty (_msgQ s) then
    when (negb (_isThrottling s))
      (modify (set_isThrottling true) ;;
       log (LogWarn "Started to throttle requests")) ;;
    t0 <- of_option IndexError (hd_error (_timeQ s)) ;;
    modify (fun s => set_timers (timers s ++ [fl (t0 + RequestsInterval)]) s)
  else
    when (_isThrottling s)
      (modify (set_isThrottling false) ;;
       log (LogWarn "Stopped to throttle requests")).

(** [Client.sendMsg(msg)] entered at loop time [t]; [None] is the
    argument of the scheduled flush. *)
Definition sendMsg (t : Q) (msg : option bytes) : M unit :=
  modify (fun s => set_timeQ (evict t (_timeQ s)) s) ;;
  when (match msg with Some m => nonempty m | None => false end)
    (modify (fun s =>
       set_msgQ (_msgQ s ++ match msg with Some m => [m] | None => [] end) s)) ;;
  s <- get ;;
  drain t (List.length (_msgQ s)) ;;
  reschedule.

(** [str(val) + NUL], the [make_field] of ibapi. *)
Definition make_field (val : bytes) : bytes := val ++ [NUL].

(** [ibapi.server_versions.MIN_SERVER_VER_OPTIONAL_CAPABILITIES] *)
Definition MIN_SERVER_VER_OPTIONAL_CAPABILITIES : Z := 72.

(** The body of the start-API request, as [EClient.startApi] of the ibapi
    library builds it: message id 71, version 2, the client id and, from
    server version 72 on, the optional capabilities. *)
Definition startApi_msg (s : Client) : bytes :=
  make_field (py_str_int 71) ++ make_field (py_str_int 2)
  ++ make_field (py_str_int (clientId s))
  ++ match serverVersion_ s with
     | Some v => if MIN_SERVER_VER_OPTIONAL_CAPABILITIES <=? v
                 then make_field (optCapab s) else []
     | None => []
     end.

Section Methods.

(** Does this external call raise, given the calls made before it? *)
Variable raises : list event -> event -> bool.

(** Does [float(b)] accept these bytes? *)
Variable float_ok : bytes -> bool.

Definition call (ev : event) : M unit :=
  fun s =>
    let s' := set_trace (trace s ++ [ev]) s in
    if raises (trace s) ev then (s', Raise CallbackError) else (s', Ret tt).

Definition py_float (b : bytes) : M bytes :=
  if float_ok b then ret b else raise ValueError.

Definition int_ (b : bytes) : M Z := of_option ValueError (py_int b).

(** [EClient.isConnected] (ibapi): the state is [CONNECTED] and the
    connection object is there and has its socket. *)
Definition isConnected (s : Client) : bool :=
  ConnState_eqb (connState s) CONNECTED
  && match conn s with
     | Some c => socket c
     | None => false
     end.

(** [EClient.startApi] (ibapi), which the handshake branch calls: it
    reports an error to the wrapper and returns unless [isConnected()],
    and otherwise hands its request to [self.sendMsg]. *)
Definition startApi (t : Q) : M unit :=
  s <- get ;;
  if isConnected s
  then sendMsg t (Some (startApi_msg s))
  else call (WrapperError "Not connected").

(** [Client._decode(fields)] *)
Definition _decode (fields : list bytes) : M unit :=
  f0 <- of_option IndexError (hd_error fields) ;;
  msgId <- int_ f0 ;;
  s <- get ;;
  let interpret := call (Interpret fields) in
  if msgId =? 1 then
    if priceSizeTick_set s then
      match fields with
      | [_; _; reqId; tickType; price; size; _] =>
          reqId <- int_ reqId ;;
          tickType <- int_ tickType ;;
          price <- py_float price ;;
          size <- int_ size ;;
          call (PriceSizeTick reqId tickType price size)
      | _ => raise ValueError
      end
    else interpret
  else if msgId =? 2 then
    match fields with
    | [_; _; reqId; tickType; size] =>
        reqId <- int_ reqId ;;
        tickType <- int_ tickType ;;
        size <- int_ size ;;
        call (TickSize reqId tickType size)
    | _ => raise ValueError
    end
  else if msgId =? 12 then
    match fields with
    | [_; _; reqId; position; operation; side; price; size] =>
        reqId <- int_ reqId ;;
        position <- int_ position ;;
        operation <- int_ operation ;;
        side <- int_ side ;;
        price <- py_float price ;;
        size <- int_ size ;;
        call (UpdateMktDepth reqId position operation side price size)
    | _ => raise ValueError
    end
  else if msgId =? 46 then
    match fields with
    | [_; _; reqId; tickType; value] =>
        reqId <- int_ reqId ;;
        tickType <- int_ tickType ;;
        value <- of_option UnicodeDecodeError (py_decode value) ;;
        call (TickString reqId tickType value)
    | _ => raise ValueError
    end
  else if msgId =? 9 then
    match fields with
    | [_; _; validId] =>
        validId <- int_ validId ;;
        modify (set_reqIdSeq validId) ;;
        s <- get ;;
        when (truthy_opt_list (_accounts s)) (modify (set_readyEvent true)) ;;
        interpret
    | _ => raise ValueError
    end
  else if msgId =? 15 then
    match fields with
    | [_; _; accts] =>
        accts <- of_option UnicodeDecodeError (py_decode accts) ;;
        modify (set_accounts (Some (split COMMA accts))) ;;
        s <- get ;;
        when (truthy_int (_reqIdSeq s)) (modify (set_readyEvent true)) ;;
        interpret
    | _ => raise ValueError
    end
  else interpret.

(** Lines 230-250: what the loop does with one extracted frame. *)
Definition handle_frame (t : Q) (fields : list bytes) : M unit :=
  modify (fun s => set_numMsgRecv (_numMsgRecv s + 1) s) ;;
  s <- get ;;
  when (debug s)
    (if forallb utf8_valid fields then log (LogDebug fields)
     else raise UnicodeDecodeError) ;;
  s <- get ;;
  if negb (truthy_opt_int (serverVersion_ s)) && (len fields =? 2) then
    match fields with
    | [version; connTime'] =>
        modify (set_connTime (Some connTime')) ;;
        v <- int_ version ;;
        modify (set_serverVersion_ (Some v)) ;;
        modify (set_connState CONNECTED) ;;
        startApi t ;;
        call ConnectAck ;;
        log (LogInfo "Logged on to server version")
    | _ => raise ValueError
    end
  else
    try_except (_decode fields) (log (LogException "Decode failed")).

(** The [while True] loop of [_onSocketHasData]. *)
Fixpoint hasData_loop (t : Q) (fuel : nat) : M unit :=
  match fuel with
  | O => raise OutOfFuel
  | S fuel' =>
      s <- get ;;
      match next_frame (_data s) with
      | Raise e => raise e
      | Ret None => ret tt
      | Ret (Some (fields, data')) =>
          modify (set_data data') ;;
          handle_frame t fields ;;
          hasData_loop t fuel'
      end
  end.

(** [Client._onSocketHasData(data)], running at loop time [t]. *)
Definition _onSocketHasData (t : Q) (data : bytes) : M unit :=
  s <- get ;;
  when (tcpDataArrived_set s) (call TcpDataArrived) ;;
  modify (fun s => set_data (_data s ++ data) s) ;;
  modify (fun s => set_numBytesRecv (_numBytesRecv s + len data) s) ;;
  s <- get ;;
  hasData_loop t (S (List.length (_data s))) ;;
  when (tcpDataProcessed_set s) (call TcpDataProcessed).

End Methods.

(** [Client.reset] at wall-clock time [now]; of the attributes that
    [EClient.reset] clears, the ones modelled here are set. *)
Definition reset (now : Q) (s : Client) : Client :=
  mkClient DISCONNECTED None None (clientId s) [] None
    (priceSizeTick_set s) (tcpDataArrived_set s) (tcpDataProcessed_set s)
    (debug s) [] false 0 None now 0 0 false [] []
    (wire s) (timers s) (trace s).

(** The tokens a field list stands for on the wire: thirteen for a
    contract, the rendered string for any other field. *)
Definition field_tokens (f : field) : list bytes :=
  match f with
  | FContract c => contract_tokens c
  | _ => [render f]
  end.

Definition wire_tokens (fields : list field) : list bytes :=
  flat_map field_tokens fields.

(** Every token followed by the separator. *)
Definition terminated (toks : list bytes) : bytes :=
  List.concat (map (fun t => t ++ [NUL]) toks).

Definition is_contract (f : field) : bool :=
  match f with
  | FContract _ => true
  | _ => false
  end.

(** [Contract()] with the defaults of the class. *)
Definition default_contract : Contract :=
  mkContract 0 [] [] [] (mkFloat (B "0.0") false) [] [] [] [] [] [] [] false.

(** The state a method leaves behind, and what it returns or raises. *)
Definition after {A : Type} (m : M A) (s : Client) : Client := fst (m s).

Definition result {A : Type} (m : M A) (s : Client) : outcome A := snd (m s).

(** A call of [isReady] as a method. *)
Definition call_isReady : M bool := s <- get ;; ret (isReady s).

(** A client as [Client(wrapper)] leaves it, with no optional callback,
    logging below DEBUG and the given client id. *)
Definition new_client (cid : Z) : Client :=
  mkClient DISCONNECTED None None cid [] None false false false false
    [] false 0 None 0 0 0 false [] [] [] [] [].

(** The client once [connectAsync] has stored its arguments and the
    socket of [self.conn] is up. *)
Definition open_session (s : Client) : Client :=
  set_conn (Some (mkConnection true 0 0)) (set_connState CONNECTING s).

(** A session between the negotiation reply and readiness: version
    recorded, neither barrier message seen. *)
Definition negotiated (s : Client) : Prop :=
  connState s = CONNECTED
  /\ truthy_opt_int (serverVersion_ s) = true
  /\ _readyEvent s = false
  /\ _reqIdSeq s = 0
  /\ _accounts s = None.

(** A session after the negotiation reply with server version 151. *)
Definition negotiated_client : Client :=
  set_serverVersion_ (Some 151)
    (set_connState CONNECTED (open_session (new_client 1))).

(** The two barrier messages, with message version [B "1"]. *)
Definition nextValidId_msg (validId : bytes) : list bytes :=
  [B "9"; B "1"; validId].

Definition managedAccounts_msg (accts : bytes) : list bytes :=
  [B "15"; B "1"; accts].

(** Callbacks that never raise, and a [float()] that accepts nothing. *)
Definition quiet (_ : list event) (_ : event) : bool := false.
Definition no_float (_ : bytes) : bool := false.

(** What the loop does with a frame once the version is recorded:
    [_decode] under the bare [except] that logs the failure. *)
Definition deliver (raises : list event -> event -> bool)
    (float_ok : bytes -> bool) (fields : list bytes) (s : Client) : Client :=
  after (try_except (_decode raises float_ok fields)
           (log (LogException "Decode failed"))) s.

Definition deliver_all (raises : list event -> event -> bool)
    (float_ok : bytes -> bool) (frames : list (list bytes)) (s : Client)
  : Client :=
  fold_left (fun s fields => deliver raises float_ok fields s) frames s.

(** [k] calls of [getReqId] in a row: what each returned, and the state. *)
Fixpoint getReqIds (k : nat) (s : Client) : list (outcome Z) * Client :=
  match k with
  | O => ([], s)
  | S k' =>
      let (s', r) := getReqId s in
      let (rs, s'') := getReqIds k' s' in
      (r :: rs, s'')
  end.

(** Counting a frame as received (line 230). *)
Definition bump (s : Client) : Client :=
  set_numMsgRecv (_numMsgRecv s + 1) s.

(** Passing frames to [_decode] one after the other, as the loop does
    once the version is recorded. *)
Definition process (raises : list event -> event -> bool)
    (float_ok : bytes -> bool) (frames : list (list bytes)) (s : Client)
  : Client :=
  fold_left (fun s fields => deliver raises float_ok fields (bump s)) frames s.

(** The frame that carries a field list, for examples. *)
Definition frame_of (fields : list field) : bytes :=
  match _prefix (_encode fields) with
  | Some frame => frame
  | None => []
  end.

(** A run of [sendMsg] calls, each with the loop time at which it is
    entered and its argument; an exception ends the call, not the run. *)
Definition run_sendMsg (calls : list (Q * option bytes)) (s : Client)
  : Client :=
  fold_left (fun s c => after (sendMsg (fst c) (snd c)) s) calls s.

(** The loop clock never runs backwards. *)
Fixpoint times_from (t0 : Q) (ts : list Q) : Prop :=
  match ts with
  | [] => True
  | t :: rest => (t0 <= t)%Q /\ times_from t rest
  end.

Definition monotone (ts : list Q) : Prop :=
  match ts with
  | [] => True
  | t :: rest => times_from t rest
  end.

(** What a call adds to the queue, and what a run submitted in all. *)
Definition queued (msg : option bytes) : list bytes :=
  match msg with
  | Some m => if nonempty m then [m] else []
  | None => []
  end.

Definition submitted (calls : list (Q * option bytes)) : list bytes :=
  flat_map (fun c => queued (snd c)) calls.

(** The frames of the messages that can be framed, in order. *)
Definition frames_of (msgs : list bytes) : list bytes :=
  flat_map (fun m => match _prefix m with
                     | Some frame => [frame]
                     | None => []
                     end) msgs.

(** Frames written within the closed window [[a, a + RequestsInterval]]. *)
Definition in_window (a t : Q) : bool :=
  Qle_bool a t && Qle_bool t (a + RequestsInterval).

Definition sent_in_window (a : Q) (w : list (Q * bytes)) : Z :=
  len (filter (fun e => in_window a (fst e)) w).

(** A fresh session whose socket is up: nothing sent, nothing queued. *)
Definition fresh (s : Client) : Prop :=
  _timeQ s = [] /\ _msgQ s = [] /\ wire s = []
  /\ exists c, conn s = Some c /\ socket c = true.

(** [n] calls [sendMsg(m)] at the same loop time [t]. *)
Definition burst (n : nat) (t : Q) (m : bytes) : list (Q * option bytes) :=
  repeat (t, Some m) n.

(** What the throttle keeps true between calls, at loop time [tc] and
    with [subm] submitted so far: the socket is up; the send times still
    in [_timeQ] are the latest writes, every earlier write being older
    than the interval; the window holds at most [MaxRequests] times; no
    closed window of the transport log holds more than [MaxRequests]
    frames; and the log is the framing of an initial part of what was
    submitted, the rest of which is the queue. *)
Definition throttle_inv (tc : Q) (subm : list bytes) (s : Client) : Prop :=
  (exists c, conn s = Some c /\ socket c = true)
  /\ (exists old, map fst (wire s) = old ++ _timeQ s
                  /\ forall x, In x old -> (RequestsInterval < tc - x)%Q)
  /\ len (_timeQ s) <= MaxRequests
  /\ (forall a, sent_in_window a (wire s) <= MaxRequests)
  /\ (exists popped, subm = popped ++ _msgQ s
                     /\ map snd (wire s) = frames_of popped).

(** A method is steady when it leaves the inbound buffer alone and
    raises Python exceptions only, never the fuel marker of the model. *)
Definition steady {A : Type} (m : M A) : Prop :=
  forall s, _data (fst (m s)) = _data s /\ snd (m s) <> Raise OutOfFuel.

(** A method keeps [P] when [P] holds of the state it leaves whenever it
    held of the state it found, whether it returns or raises. *)
Definition keeps (P : Client -> Prop) {A : Type} (m : M A) : Prop :=
  forall s, P s -> P (fst (m s)).

(** The bytes of a stretch of the transport log. *)
Definition total_len (w : list (Q * bytes)) : Z :=
  fold_right (fun e acc => len (snd e) + acc) 0 w.

(** The send counters of the connection follow the transport log:
    since the log was [w0] and the counters those of [c0], the socket has
    stayed up and the counters have grown by what was written. *)
Definition counts_from (c0 : Connection) (w0 : list (Q * bytes)) (s : Client)
  : Prop :=
  exists c new,
    conn s = Some c /\ socket c = true /\ wire s = w0 ++ new
    /\ numMsgSent c = numMsgSent c0 + len new
    /\ numBytesSent c = numBytesSent c0 + total_len new.

(** The message kinds that [_decode] hands straight to the wrapper:
    tick size, market depth and tick string always, tick price only when
    the wrapper has [priceSizeTick]. *)
Definition fast_pathed (has_priceSizeTick : bool) (msgId : Z) : bool :=
  (msgId =? 2) || (msgId =? 12) || (msgId =? 46)
  || (has_priceSizeTick && (msgId =? 1)).

Definition is_interpret (ev : event) : bool :=
  match ev with
  | Interpret _ => true
  | _ => false
  end.

(** What [_onSocketHasData] makes of a frame body: the pieces between
    the separators, the last one dropped. *)
Definition body_fields (body : bytes) : list bytes :=
  removelast (split NUL body).

(** The bytes of a body behind its last separator, which [fields.pop()]
    throws away. *)
Definition body_tail (body : bytes) : bytes := last (split NUL body) [].

(** The bytes of a stream of frames, one per body. *)
Definition stream_of (bodies : list bytes) : bytes :=
  List.concat (frames_of bodies).

(** The version range offered in the handshake,
    [b'v%d..%d' % (MIN_CLIENT_VER, MAX_CLIENT_VER)]. *)
Definition version_range (minv maxv : Z) : bytes :=
  B "v" ++ py_str_int minv ++ B ".." ++ py_str_int maxv.

(** [Client._onSocketConnected] at loop time [t].  The two constants of
    [ibapi.server_versions] are arguments; the decoder object created in
    the last line is the one behind the [Interpret] calls. *)
Definition _onSocketConnected (minv maxv : Z) (t : Q) : M unit :=
  log (LogInfo "Connected") ;;
  frame <- of_option StructError (_prefix (version_range minv maxv)) ;;
  conn_sendMsg t (B "API" ++ [NUL] ++ frame).

(** The buffer begins with a complete frame, as the protocol defines
    one: a whole four-byte prefix and behind it at least as many bytes as
    the prefix declares. *)
Definition holds_frame (d : bytes) : Prop :=
  exists n, unpack_I (slice 0 4 d) = Some n /\ 4 + n <= len d.


(** A frame that [_decode] takes for a next-valid-id message: its first
    field reads as 9. *)
Definition seeds (fields : list bytes) : bool :=
  match fields with
  | f0 :: _ => match py_int f0 with
               | Some msgId => msgId =? 9
               | None => false
               end
  | [] => false
  end.

(** What can happen to a connected session: inbound bytes are delivered,
    a message is sent or a flush fires, or an accessor is called. *)
Inductive action :=
| Receive (t : Q) (data : bytes)
| Send (t : Q) (msg : option bytes)
| AskAccounts
| AskStats (now : Q)
| AskReqId.

Definition is_ask (a : action) : bool :=
  match a with
  | AskReqId => true
  | _ => false
  end.

(** One action: the state it leaves, and what [getReqId] gave if that
    was called. *)
Definition perform (raises : list event -> event -> bool)
    (float_ok : bytes -> bool) (a : action) (s : Client)
  : Client * option (outcome Z) :=
  match a with
  | Receive t data => (after (_onSocketHasData raises float_ok t data) s, None)
  | Send t msg => (after (sendMsg t msg) s, None)
  | AskAccounts => (after getAccounts s, None)
  | AskStats now => (after (connectionStats now) s, None)
  | AskReqId => let (s', r) := getReqId s in (s', Some r)
  end.

(** A run of actions: what the calls of [getReqId] gave, in order, and
    the state in the end. *)
Fixpoint session (raises : list event -> event -> bool)
    (float_ok : bytes -> bool) (acts : list action) (s : Client)
  : list (outcome Z) * Client :=
  match acts with
  | [] => ([], s)
  | a :: rest =>
      let (s', r) := perform raises float_ok a s in
      let (rs, s'') := session raises float_ok rest s' in
      (match r with
       | Some x => x :: rs
       | None => rs
       end, s'')
  end.

(** No delivery of the run meets a next-valid-id frame: none of the
    complete frames at the head of the buffer followed by the delivered
    bytes has a first field that reads as 9. *)
Fixpoint no_seed (raises : list event -> event -> bool)
    (float_ok : bytes -> bool) (acts : list action) (s : Client) : bool :=
  match acts with
  | [] => true
  | a :: rest =>
      match a with
      | Receive _ data =>
          match extract_frames (_data s ++ data) with
          | Some (frames, _) => forallb (fun f => negb (seeds f)) frames
          | None => true
          end
      | _ => true
      end
      && no_seed raises float_ok rest (fst (perform raises float_ok a s))
  end.

(** * Properties *)

(** ** Python primitives *)

Lemma len_nonneg {A : Type} (l : list A) : 0 <= len l.
Proof. unfold len. lia. Qed.

Lemma len_app {A : Type} (l1 l2 : list A) : len (l1 ++ l2) = len l1 + len l2.
Proof. unfold len. rewrite length_app. lia. Qed.

Lemma Z_of_byte_range (b : byte) : 0 <= Z_of_byte b < 256.
Proof.
  unfold Z_of_byte. pose proof (Byte.to_N_bounded b) as H.
  lia.
Qed.

Lemma Z_of_byte_of_Z (z : Z) : Z_of_byte (byte_of_Z z) = z mod 256.
Proof.
  unfold byte_of_Z, Z_of_byte.
  assert (Hr : 0 <= z mod 256 < 256) by (apply Z.mod_pos_bound; lia).
  destruct (Byte.of_N (Z.to_N (z mod 256))) as [b|] eqn:E.
  - apply Byte.to_of_N in E. rewrite E. lia.
  - apply Byte.of_N_None_iff in E. lia.
Qed.

Lemma unpack_I_nonneg (b : bytes) (n : Z) : unpack_I b = Some n -> 0 <= n.
Proof.
  destruct b as [|b0 [|b1 [|b2 [|b3 [|? ?]]]]]; unfold unpack_I; try discriminate.
  intros [= <-]. unfold be32.
  pose proof (Z_of_byte_range b0). pose proof (Z_of_byte_range b1).
  pose proof (Z_of_byte_range b2). pose proof (Z_of_byte_range b3).
  rewrite !Z.shiftl_mul_pow2 by lia. lia.
Qed.

Lemma unpack_pack_I (n : Z) (p : bytes) : pack_I n = Some p -> unpack_I p = Some n.
Proof.
  unfold pack_I.
  destruct (0 <=? n) eqn:H0; [|discriminate].
  destruct (n <? 2 ^ 32) eqn:H1; [|discriminate].
  cbn [andb]. intros [= <-]. unfold unpack_I, be32.
  apply Z.leb_le in H0. apply Z.ltb_lt in H1.
  rewrite !Z_of_byte_of_Z, !Z.shiftl_mul_pow2, !Z.shiftr_div_pow2 by lia.
  f_equal.
  change (2 ^ 24) with 16777216. change (2 ^ 16) with 65536.
  change (2 ^ 8) with 256. change (2 ^ 32) with 4294967296 in H1.
  pose proof (Z.div_mod n 16777216 ltac:(lia)) as D1.
  pose proof (Z.mod_pos_bound n 16777216 ltac:(lia)) as B1.
  assert (Hq : 0 <= n / 16777216 < 256).
  { split; [apply Z.div_pos; lia | apply Z.div_lt_upper_bound; lia]. }
  rewrite (Z.mod_small (n / 16777216)) by lia.
  assert (E2 : (n / 65536) mod 256 = (n mod 16777216) / 65536).
  { change 16777216 with (65536 * 256). rewrite Z.rem_mul_r by lia.
    rewrite (Z.mul_comm 65536), Z.div_add by lia.
    rewrite (Z.div_small (n mod 65536)) by (apply Z.mod_pos_bound; lia). lia. }
  assert (E3 : (n / 256) mod 256 = (n mod 65536) / 256).
  { change 65536 with (256 * 256). rewrite Z.rem_mul_r by lia.
    rewrite (Z.mul_comm 256 ((n / 256) mod 256)), Z.div_add by lia.
    rewrite (Z.div_small (n mod 256)) by (apply Z.mod_pos_bound; lia). lia. }
  rewrite E2, E3.
  pose proof (Z.div_mod (n mod 16777216) 65536 ltac:(lia)) as D2.
  assert (E4 : (n mod 16777216) mod 65536 = n mod 65536).
  { change 16777216 with (65536 * 256). rewrite Z.rem_mul_r by lia.
    rewrite Z.mul_comm, Z.mod_add by lia. apply Z.mod_mod. lia. }
  pose proof (Z.div_mod (n mod 65536) 256 ltac:(lia)) as D3.
  assert (E5 : (n mod 65536) mod 256 = n mod 256).
  { change 65536 with (256 * 256). rewrite Z.rem_mul_r by lia.
    rewrite Z.mul_comm, Z.mod_add by lia. apply Z.mod_mod. lia. }
  lia.
Qed.

Lemma pack_I_length (n : Z) (p : bytes) : pack_I n = Some p -> List.length p = 4%nat.
Proof.
  unfold pack_I. destruct ((0 <=? n) && (n <? 2 ^ 32)); [|discriminate].
  now intros [= <-].
Qed.

Lemma split_not_nil (sep : byte) (s : bytes) : split sep s <> [].
Proof.
  destruct s as [|c s]; simpl; [discriminate|].
  destruct (Byte.eqb c sep); [discriminate|].
  destruct (split sep s); discriminate.
Qed.

(** ** The frame codec *)

Lemma slice_0_4_app (d b : bytes) :
  4 < len d -> slice 0 4 (d ++ b) = slice 0 4 d.
Proof.
  unfold len, slice. intros H.
  change (Z.to_nat (4 - 0)) with 4%nat. change (Z.to_nat 0) with 0%nat.
  cbn [skipn]. rewrite firstn_app.
  replace (4 - List.length d)%nat with 0%nat by lia.
  cbn [firstn]. apply app_nil_r.
Qed.

Lemma unpack_slice_total (d : bytes) :
  4 < len d -> exists n, unpack_I (slice 0 4 d) = Some n /\ 0 <= n.
Proof.
  unfold len. intros H.
  destruct d as [|b0 [|b1 [|b2 [|b3 d]]]]; cbn [List.length] in H; try lia.
  exists (be32 b0 b1 b2 b3). split; [reflexivity|].
  apply (unpack_I_nonneg [b0; b1; b2; b3]). reflexivity.
Qed.

(** The extraction step never raises. *)
Lemma next_frame_no_raise (d : bytes) (e : exn) : next_frame d <> Raise e.
Proof.
  unfold next_frame.
  destruct (Z.leb_spec (len d) 4) as [H|H]; [discriminate|].
  destruct (unpack_slice_total d H) as [n [-> Hn]].
  destruct (len d <? 4 + n); [discriminate|].
  pose proof (split_not_nil NUL (slice 4 (4 + n) d)) as Hs.
  destruct (split NUL (slice 4 (4 + n) d)); [contradiction|].
  discriminate.
Qed.

(** An extracted frame consumed at least its four prefix bytes. *)
Lemma next_frame_shrinks (d rest : bytes) (fields : list bytes) :
  next_frame d = Ret (Some (fields, rest)) ->
  (List.length rest + 4 <= List.length d)%nat.
Proof.
  unfold next_frame.
  destruct (Z.leb_spec (len d) 4) as [H|H]; [discriminate|].
  destruct (unpack_slice_total d H) as [n [-> Hn]].
  remember (4 + n) as msgEnd eqn:Em.
  destruct (Z.ltb_spec (len d) msgEnd) as [H1|H1]; [discriminate|].
  destruct (pop (split NUL (slice 4 msgEnd d))); [|discriminate].
  intros [= _ <-]. unfold slice_from, len in *.
  rewrite length_skipn. lia.
Qed.

(** Bytes that arrive later do not change a frame that is already
    complete. *)
Lemma next_frame_app (d b rest : bytes) (fields : list bytes) :
  next_frame d = Ret (Some (fields, rest)) ->
  next_frame (d ++ b) = Ret (Some (fields, rest ++ b)).
Proof.
  unfold next_frame.
  destruct (Z.leb_spec (len d) 4) as [H|H]; [discriminate|].
  destruct (unpack_slice_total d H) as [n [E Hn]]. rewrite E.
  destruct (Z.ltb_spec (len d) (4 + n)) as [H1|H1]; [discriminate|].
  pose proof (len_nonneg b) as Hb.
  destruct (Z.leb_spec (len (d ++ b)) 4) as [H2|H2];
    [rewrite len_app in H2; lia|].
  rewrite slice_0_4_app, E by exact H.
  destruct (Z.ltb_spec (len (d ++ b)) (4 + n)) as [H3|H3];
    [rewrite len_app in H3; lia|].
  assert (Es : slice 4 (4 + n) (d ++ b) = slice 4 (4 + n) d).
  { unfold slice, len in *. rewrite skipn_app.
    replace (Z.to_nat 4 - List.length d)%nat with 0%nat by lia.
    cbn [skipn]. rewrite firstn_app, length_skipn.
    replace (Z.to_nat (4 + n - 4) - (List.length d - Z.to_nat 4))%nat
      with 0%nat by lia.
    cbn [firstn]. apply app_nil_r. }
  assert (Er : slice_from (4 + n) (d ++ b) = slice_from (4 + n) d ++ b).
  { unfold slice_from, len in *. rewrite skipn_app.
    replace (Z.to_nat (4 + n) - List.length d)%nat with 0%nat by lia.
    reflexivity. }
  rewrite Es, Er.
  destruct (pop (split NUL (slice 4 (4 + n) d))); [|discriminate].
  now intros [= <- <-].
Qed.

Lemma extract_frames_fuel_total (n : nat) :
  forall d, (List.length d < n)%nat ->
  exists fs rest, extract_frames_fuel n d = Some (fs, rest).
Proof.
  induction n as [|n IH]; intros d Hd; [lia|].
  cbn [extract_frames_fuel].
  destruct (next_frame d) as [[[fields d']|]|e] eqn:E.
  - apply next_frame_shrinks in E.
    destruct (IH d' ltac:(lia)) as [fs [rest ->]]. eauto.
  - eauto.
  - exfalso. exact (next_frame_no_raise _ _ E).
Qed.

Lemma extract_frames_fuel_irrel (n : nat) :
  forall m d, (List.length d < n)%nat -> (List.length d < m)%nat ->
  extract_frames_fuel n d = extract_frames_fuel m d.
Proof.
  induction n as [|n IH]; intros m d Hn Hm; [lia|].
  destruct m as [|m]; [lia|].
  cbn [extract_frames_fuel].
  destruct (next_frame d) as [[[fields d']|]|e] eqn:E; try reflexivity.
  apply next_frame_shrinks in E.
  rewrite (IH m d') by lia. reflexivity.
Qed.

(** The loop equation of the codec, free of fuel. *)
Lemma extract_frames_unfold (d : bytes) :
  extract_frames d =
  match next_frame d with
  | Raise _ => None
  | Ret None => Some ([], d)
  | Ret (Some (fields, d')) =>
      match extract_frames d' with
      | Some (fs, rest) => Some (fields :: fs, rest)
      | None => None
      end
  end.
Proof.
  unfold extract_frames at 1. cbn [extract_frames_fuel].
  destruct (next_frame d) as [[[fields d']|]|e] eqn:E; try reflexivity.
  apply next_frame_shrinks in E. unfold extract_frames.
  rewrite (extract_frames_fuel_irrel (List.length d) (S (List.length d')) d')
    by lia.
  reflexivity.
Qed.

(** The codec always returns. *)
Lemma extract_frames_total (d : bytes) :
  exists fs rest, extract_frames d = Some (fs, rest).
Proof. apply extract_frames_fuel_total. lia. Qed.

(** What the codec leaves in the buffer holds no complete frame. *)
Lemma extract_frames_rest_stuck (n : nat) :
  forall d fs rest, (List.length d < n)%nat ->
  extract_frames d = Some (fs, rest) -> next_frame rest = Ret None.
Proof.
  induction n as [|n IH]; intros d fs rest Hd; [lia|].
  rewrite extract_frames_unfold.
  destruct (next_frame d) as [[[fields d']|]|e] eqn:E; try discriminate.
  - destruct (extract_frames d') as [[fs' r']|] eqn:E'; [|discriminate].
    intros [= _ <-]. apply next_frame_shrinks in E.
    apply (IH d' fs' r'); [lia | exact E'].
  - now intros [= _ <-].
Qed.

(** Appending bytes to a buffer: the frames already complete come out
    first and unchanged, the rest is decoded from the leftover. *)
Lemma extract_frames_app (n : nat) :
  forall d b fs rest, (List.length d < n)%nat ->
  extract_frames d = Some (fs, rest) ->
  extract_frames (d ++ b) =
  match extract_frames (rest ++ b) with
  | Some (fs', rest') => Some (fs ++ fs', rest')
  | None => None
  end.
Proof.
  induction n as [|n IH]; intros d b fs rest Hd; [lia|].
  rewrite extract_frames_unfold.
  destruct (next_frame d) as [[[fields d']|]|e] eqn:E; try discriminate.
  - destruct (extract_frames d') as [[fs' r']|] eqn:E'; [|discriminate].
    intros [= <- <-].
    rewrite (extract_frames_unfold (d ++ b)), (next_frame_app _ b _ _ E).
    pose proof (next_frame_shrinks _ _ _ E) as Hs.
    rewrite (IH d' b fs' r' ltac:(lia) E').
    destruct (extract_frames (r' ++ b)) as [[fs2 r2]|]; reflexivity.
  - intros [= <- <-].
    destruct (extract_frames (d ++ b)) as [[fs2 r2]|]; reflexivity.
Qed.

(** Chunked delivery to a buffer that holds no complete frame decodes
    exactly what the concatenation of the chunks decodes. *)
Lemma feed_chunks_concat (chunks : list bytes) :
  forall buf, next_frame buf = Ret None ->
  feed_chunks buf chunks = extract_frames (buf ++ List.concat chunks).
Proof.
  induction chunks as [|c cs IH]; intros buf Hbuf.
  - cbn [feed_chunks List.concat]. rewrite app_nil_r, extract_frames_unfold, Hbuf.
    reflexivity.
  - cbn [feed_chunks List.concat]. rewrite app_assoc.
    destruct (extract_frames_total (buf ++ c)) as [fs [rest E]]. rewrite E.
    rewrite (extract_frames_app _ (buf ++ c) (List.concat cs) fs rest
               (Nat.lt_succ_diag_r _) E).
    rewrite (IH rest).
    + reflexivity.
    + exact (extract_frames_rest_stuck _ _ _ _ (Nat.lt_succ_diag_r _) E).
Qed.

(** A frame is its four-byte prefix followed by its body. *)
Lemma firstn_prefix {A : Type} (p rest : list A) :
  firstn (List.length p) (p ++ rest) = p.
Proof.
  rewrite firstn_app, Nat.sub_diag, firstn_all. cbn [firstn]. apply app_nil_r.
Qed.

Lemma slice_0_4_prefix (p rest : bytes) :
  List.length p = 4%nat -> slice 0 4 (p ++ rest) = p.
Proof.
  intros Hl. unfold slice. change (Z.to_nat (4 - 0)) with 4%nat.
  change (Z.to_nat 0) with 0%nat. cbn [skipn].
  rewrite <- Hl. apply firstn_prefix.
Qed.

Lemma prefix_shape (body frame : bytes) :
  _prefix body = Some frame ->
  exists p, frame = p ++ body /\ List.length p = 4%nat
            /\ unpack_I p = Some (len body).
Proof.
  unfold _prefix. destruct (pack_I (len body)) as [p|] eqn:E; [|discriminate].
  intros [= <-]. exists p. split; [reflexivity|]. split.
  - exact (pack_I_length _ _ E).
  - exact (unpack_pack_I _ _ E).
Qed.

(** A whole frame with a non-empty body at the head of the buffer is
    extracted. *)
Lemma next_frame_whole (body frame : bytes) :
  _prefix body = Some frame -> body <> [] ->
  next_frame frame = Ret (Some (removelast (split NUL body), [])).
Proof.
  intros Hp Hb. destruct (prefix_shape _ _ Hp) as [p [-> [Hl Hu]]].
  assert (Hlen : 0 < len body).
  { unfold len. destruct body; [contradiction | cbn [List.length]; lia]. }
  unfold next_frame.
  assert (Hp4 : len p = 4) by (unfold len; lia).
  rewrite len_app, Hp4.
  destruct (Z.leb_spec (4 + len body) 4) as [H|_]; [lia|].
  assert (E0 : slice 0 4 (p ++ body) = p) by exact (slice_0_4_prefix _ _ Hl).
  rewrite E0, Hu.
  destruct (Z.ltb_spec (4 + len body) (4 + len body)) as [H|_]; [lia|].
  remember (4 + len body) as msgEnd eqn:Em.
  assert (E1 : slice 4 msgEnd (p ++ body) = body).
  { unfold slice, len in *. change (Z.to_nat 4) with 4%nat.
    rewrite skipn_app. rewrite (skipn_all2 p) by lia. rewrite Hl.
    change (4 - 4)%nat with 0%nat. change (skipn 0 body) with body.
    cbn [app].
    replace (Z.to_nat (msgEnd - 4)) with (List.length body) by lia.
    apply firstn_all. }
  assert (E2 : slice_from msgEnd (p ++ body) = []).
  { unfold slice_from, len in *. apply skipn_all2.
    rewrite length_app. lia. }
  rewrite E1, E2. unfold pop.
  pose proof (split_not_nil NUL body) as Hs.
  destruct (split NUL body) eqn:Es; [contradiction|]. reflexivity.
Qed.

(** A strict initial part of a frame holds no complete frame. *)
Lemma next_frame_partial (body frame : bytes) (k : nat) :
  _prefix body = Some frame -> (k < List.length frame)%nat ->
  next_frame (firstn k frame) = Ret None.
Proof.
  intros Hp Hk. destruct (prefix_shape _ _ Hp) as [p [-> [Hl Hu]]].
  unfold next_frame.
  assert (Hlk : len (firstn k (p ++ body)) = Z.of_nat k).
  { unfold len. rewrite length_firstn. lia. }
  rewrite Hlk.
  destruct (Z.leb_spec (Z.of_nat k) 4) as [H|H]; [reflexivity|].
  assert (E0 : slice 0 4 (firstn k (p ++ body)) = p).
  { rewrite <- (slice_0_4_prefix p body Hl) at 2.
    unfold slice. change (Z.to_nat (4 - 0)) with 4%nat.
    change (Z.to_nat 0) with 0%nat. cbn [skipn].
    rewrite firstn_firstn. now replace (Nat.min 4 k) with 4%nat by lia. }
  rewrite E0, Hu.
  rewrite length_app in Hk. unfold len.
  destruct (Z.ltb_spec (Z.of_nat k) (4 + Z.of_nat (List.length body)))
    as [_|H1]; [reflexivity | lia].
Qed.

Lemma next_frame_nil : next_frame [] = Ret None.
Proof. reflexivity. Qed.

Lemma extract_frames_whole (body frame : bytes) :
  _prefix body = Some frame -> body <> [] ->
  extract_frames frame = Some ([removelast (split NUL body)], []).
Proof.
  intros Hp Hb.
  rewrite extract_frames_unfold, (next_frame_whole _ _ Hp Hb).
  reflexivity.
Qed.

(** *** Frames, as the protocol defines them *)

Lemma Z_of_byte_inj (a b : byte) : Z_of_byte a = Z_of_byte b -> a = b.
Proof.
  unfold Z_of_byte. intros H. apply N2Z.inj in H.
  pose proof (Byte.of_to_N a) as Ha. rewrite H, Byte.of_to_N in Ha.
  now injection Ha.
Qed.

Lemma be32_inj (a0 a1 a2 a3 b0 b1 b2 b3 : byte) :
  be32 a0 a1 a2 a3 = be32 b0 b1 b2 b3 ->
  a0 = b0 /\ a1 = b1 /\ a2 = b2 /\ a3 = b3.
Proof.
  unfold be32. rewrite !Z.shiftl_mul_pow2 by lia.
  change (2 ^ 24) with 16777216. change (2 ^ 16) with 65536.
  change (2 ^ 8) with 256.
  pose proof (Z_of_byte_range a0). pose proof (Z_of_byte_range a1).
  pose proof (Z_of_byte_range a2). pose proof (Z_of_byte_range a3).
  pose proof (Z_of_byte_range b0). pose proof (Z_of_byte_range b1).
  pose proof (Z_of_byte_range b2). pose proof (Z_of_byte_range b3).
  intros E. repeat split; apply Z_of_byte_inj; lia.
Qed.

Lemma be32_range (b0 b1 b2 b3 : byte) : 0 <= be32 b0 b1 b2 b3 < 2 ^ 32.
Proof.
  unfold be32. rewrite !Z.shiftl_mul_pow2 by lia.
  pose proof (Z_of_byte_range b0). pose proof (Z_of_byte_range b1).
  pose proof (Z_of_byte_range b2). pose proof (Z_of_byte_range b3).
  change (2 ^ 24) with 16777216. change (2 ^ 16) with 65536.
  change (2 ^ 8) with 256. change (2 ^ 32) with 4294967296. lia.
Qed.

(** [struct.pack] undoes [struct.unpack]. *)
Lemma pack_unpack_I (p : bytes) (n : Z) :
  unpack_I p = Some n -> pack_I n = Some p.
Proof.
  destruct p as [|b0 [|b1 [|b2 [|b3 [|? ?]]]]]; unfold unpack_I;
    try discriminate.
  intros [= <-]. pose proof (be32_range b0 b1 b2 b3) as Hr.
  destruct (pack_I (be32 b0 b1 b2 b3)) as [q|] eqn:E.
  - pose proof (pack_I_length _ _ E) as Hl.
    pose proof (unpack_pack_I _ _ E) as Hu.
    destruct q as [|c0 [|c1 [|c2 [|c3 [|? ?]]]]]; try discriminate.
    unfold unpack_I in Hu. injection Hu as Hu.
    apply be32_inj in Hu. destruct Hu as [-> [-> [-> ->]]]. reflexivity.
  - unfold pack_I in E.
    destruct (Z.leb_spec 0 (be32 b0 b1 b2 b3)); [|lia].
    destruct (Z.ltb_spec (be32 b0 b1 b2 b3) (2 ^ 32)); [discriminate | lia].
Qed.

(** The only complete frame on which the loop stops is a zero-length
    frame with nothing behind it. *)
Lemma next_frame_stuck (d : bytes) :
  next_frame d = Ret None -> holds_frame d -> d = [x00; x00; x00; x00].
Proof.
  unfold next_frame, holds_frame. intros H [n [Hu Hn]].
  pose proof (unpack_I_nonneg _ _ Hu) as H0.
  rewrite Hu in H.
  destruct (Z.leb_spec (len d) 4) as [H4|H4].
  - assert (n = 0) by lia. subst n.
    assert (Hl : len d = 4) by lia.
    destruct d as [|b0 [|b1 [|b2 [|b3 [|? ?]]]]]; unfold len in Hl;
      cbn [List.length] in Hl; try lia.
    unfold slice in Hu. cbn in Hu. injection Hu as Hu.
    change 0 with (be32 x00 x00 x00 x00) in Hu.
    apply be32_inj in Hu. destruct Hu as [-> [-> [-> ->]]]. reflexivity.
  - destruct (Z.ltb_spec (len d) (4 + n)); [lia|].
    destruct (pop (split NUL (slice 4 (4 + n) d))); discriminate.
Qed.

Lemma holds_frame_zero : holds_frame [x00; x00; x00; x00].
Proof. exists 0. split; reflexivity || (unfold len; cbn; lia). Qed.

(** What one pass of the loop takes from the buffer is exactly one
    frame: a prefix and the body it counts. *)
Lemma next_frame_decompose (d rest : bytes) (fields : list bytes) :
  next_frame d = Ret (Some (fields, rest)) ->
  exists body frame,
    _prefix body = Some frame /\ d = frame ++ rest
    /\ fields = body_fields body.
Proof.
  unfold next_frame.
  destruct (Z.leb_spec (len d) 4) as [H|H]; [discriminate|].
  destruct (unpack_slice_total d H) as [n [E Hn]]. rewrite E.
  remember (4 + n) as msgEnd eqn:Em.
  destruct (Z.ltb_spec (len d) msgEnd) as [H1|H1]; [discriminate|].
  pose proof (split_not_nil NUL (slice 4 msgEnd d)) as Hs.
  unfold pop. destruct (split NUL (slice 4 msgEnd d)) as [|f fs] eqn:Es;
    [contradiction|].
  intros [= <- <-].
  exists (slice 4 msgEnd d), (slice 0 4 d ++ slice 4 msgEnd d).
  assert (Hlb : len (slice 4 msgEnd d) = n).
  { unfold slice, len in *. rewrite length_firstn, length_skipn. lia. }
  split; [|split].
  - unfold _prefix. rewrite Hlb, (pack_unpack_I _ _ E). reflexivity.
  - unfold slice, slice_from.
    change (Z.to_nat (4 - 0)) with 4%nat. change (Z.to_nat 0) with 0%nat.
    change (Z.to_nat 4) with 4%nat. change (skipn 0 d) with d.
    replace (Z.to_nat msgEnd) with (Z.to_nat (msgEnd - 4) + 4)%nat by lia.
    rewrite <- skipn_skipn.
    rewrite <- app_assoc, firstn_skipn, firstn_skipn. reflexivity.
  - unfold body_fields. now rewrite Es.
Qed.

Lemma prefix_framable (body frame : bytes) :
  _prefix body = Some frame -> len body < 2 ^ 32.
Proof.
  unfold _prefix, pack_I.
  destruct (Z.leb_spec 0 (len body)); [|discriminate].
  destruct (Z.ltb_spec (len body) (2 ^ 32)); [lia | discriminate].
Qed.

(** The frames that the loop extracts are the frames the buffer begins
    with, one after the other; what it leaves behind begins with no
    complete frame, unless it is a zero-length frame and nothing else. *)
Lemma extract_frames_decompose (n : nat) :
  forall d frames rest,
  (List.length d < n)%nat ->
  extract_frames d = Some (frames, rest) ->
  exists bodies,
    d = stream_of bodies ++ rest
    /\ Forall (fun b => len b < 2 ^ 32) bodies
    /\ frames = map body_fields bodies
    /\ (holds_frame rest -> rest = [x00; x00; x00; x00]).
Proof.
  induction n as [|n IH]; intros d frames rest Hn; [lia|].
  rewrite extract_frames_unfold.
  destruct (next_frame d) as [[[fields d']|]|e] eqn:E.
  - pose proof (next_frame_shrinks _ _ _ E) as Hs.
    destruct (extract_frames d') as [[fs r]|] eqn:Ex; [|discriminate].
    intros [= <- <-].
    destruct (IH d' fs r ltac:(lia) Ex) as [bodies [Hd [Hb [Hf Hst]]]].
    destruct (next_frame_decompose _ _ _ E) as [body [frame [Hp [Hd0 Hfi]]]].
    exists (body :: bodies). split; [|split; [|split]].
    + unfold stream_of, frames_of. cbn [flat_map]. rewrite Hp.
      cbn [app List.concat]. fold (frames_of bodies).
      fold (stream_of bodies). rewrite <- app_assoc, <- Hd. exact Hd0.
    + constructor; [exact (prefix_framable _ _ Hp) | exact Hb].
    + cbn [map]. now rewrite Hfi, Hf.
    + exact Hst.
  - intros [= <- <-]. exists []. split; [reflexivity|].
    split; [constructor|]. split; [reflexivity|].
    exact (next_frame_stuck d E).
  - discriminate.
Qed.

(** The extraction alone, with the handling of each frame left out:
    however a byte stream is cut into consecutive chunks, feeding the
    chunks one at a time to a fresh buffer always returns, and yields
    the same field lists (and leaves the same bytes buffered) as feeding
    the whole stream as one chunk.  In particular a frame cut at any
    position [k], also inside its four-byte length prefix, comes out as
    it does when fed whole; when its body is not empty this is nothing
    while only the first [k] bytes are there and exactly its field list
    once the rest has come. *)
Lemma extraction_reassembly_invariance :
  (forall chunks : list bytes,
      feed_chunks [] chunks = feed_chunks [] [List.concat chunks]
      /\ exists fs rest, feed_chunks [] chunks = Some (fs, rest))
  /\ (forall (frame : bytes) (k : nat),
         feed_chunks [] [firstn k frame; skipn k frame]
         = feed_chunks [] [frame])
  /\ (forall (body frame : bytes) (k : nat),
         _prefix body = Some frame -> body <> [] ->
         (k < List.length frame)%nat ->
         feed_chunks [] [firstn k frame] = Some ([], firstn k frame)
         /\ feed_chunks [] [firstn k frame; skipn k frame]
            = Some ([removelast (split NUL body)], [])).
Proof.
  assert (Hinv : forall chunks : list bytes,
             feed_chunks [] chunks = extract_frames (List.concat chunks)).
  { intros chunks. exact (feed_chunks_concat chunks [] next_frame_nil). }
  split; [|split].
  - intros chunks. split.
    + rewrite !Hinv. cbn [List.concat]. now rewrite app_nil_r.
    + rewrite Hinv. apply extract_frames_total.
  - intros frame k. rewrite !Hinv. cbn [List.concat].
    now rewrite !app_nil_r, firstn_skipn.
  - intros body frame k Hp Hb Hk. split.
    + rewrite Hinv. cbn [List.concat]. rewrite app_nil_r.
      rewrite extract_frames_unfold, (next_frame_partial _ _ _ Hp Hk).
      reflexivity.
    + rewrite Hinv. cbn [List.concat]. rewrite app_nil_r, firstn_skipn.
      exact (extract_frames_whole _ _ Hp Hb).
Qed.

Example extraction_reassembly_invariance_ex :
  feed_chunks [] [[x00; x00]; [x00; x04; "9"%byte; x00; "1"%byte; x00]]
  = Some ([[B "9"; B "1"]], [])
  /\ feed_chunks [] [[x00; x00]] = Some ([], [x00; x00]).
Proof.
  pose proof (proj2 (proj2 extraction_reassembly_invariance)
                (B "9" ++ [NUL] ++ B "1" ++ [NUL])
                [x00; x00; x00; x04; "9"%byte; x00; "1"%byte; x00] 2%nat
                eq_refl ltac:(discriminate) ltac:(cbn; lia)) as [H1 H2].
  split; [exact H2 | exact H1].
Qed.

(** C8: a buffer that holds exactly one complete frame of declared
    length zero (four zero bytes, the prefix of an empty body) is not
    extracted: the guard [len(self._data) <= 4] stops the loop although
    four bytes, not fewer, are buffered and the declared body is all
    there.  The same frame is extracted as soon as any later byte has
    arrived behind it. *)
Theorem empty_frame_left_in_buffer :
  _prefix [] = Some [x00; x00; x00; x00]
  /\ next_frame [x00; x00; x00; x00] = Ret None
  /\ feed_chunks [] [[x00; x00; x00; x00]] = Some ([], [x00; x00; x00; x00])
  /\ next_frame [x00; x00; x00; x00; x00] = Ret (Some ([], [x00]))
  /\ feed_chunks [] [[x00; x00; x00; x00]; [x00; x00; x00; x01; x00]]
     = Some ([[]; [[]]], []).
Proof. repeat split. Qed.

(** ** Encoding and decoding a field list *)

Lemma terminated_app (a b : list bytes) :
  terminated (a ++ b) = terminated a ++ terminated b.
Proof. unfold terminated. now rewrite map_app, concat_app. Qed.

Lemma join_terminated (toks : list bytes) :
  toks <> [] -> join [NUL] toks ++ [NUL] = terminated toks.
Proof.
  induction toks as [|t toks IH]; [contradiction|]. intros _.
  destruct toks as [|t' toks].
  - cbn. now rewrite app_nil_r.
  - change (join [NUL] (t :: t' :: toks))
      with (t ++ [NUL] ++ join [NUL] (t' :: toks)).
    change (terminated (t :: t' :: toks))
      with ((t ++ [NUL]) ++ terminated (t' :: toks)).
    rewrite <- IH by discriminate.
    now rewrite <- !app_assoc.
Qed.

Lemma render_terminated (f : field) :
  render f ++ [NUL] = terminated (field_tokens f).
Proof.
  destruct f;
    try (unfold field_tokens, terminated; cbn [map List.concat];
         now rewrite app_nil_r).
  unfold render, field_tokens. apply join_terminated. discriminate.
Qed.

Lemma encode_acc (fields : list field) :
  forall acc,
  fold_left (fun result f => result ++ render f ++ [NUL]) fields acc
  = acc ++ terminated (wire_tokens fields).
Proof.
  induction fields as [|f fields IH]; intros acc.
  - cbn. now rewrite app_nil_r.
  - cbn [fold_left]. rewrite IH.
    change (wire_tokens (f :: fields))
      with (field_tokens f ++ wire_tokens fields).
    now rewrite terminated_app, <- render_terminated, <- !app_assoc.
Qed.

(** What [_encode] writes: each wire token followed by NUL. *)
Lemma encode_terminated (fields : list field) :
  _encode fields = terminated (wire_tokens fields).
Proof. unfold _encode. now rewrite encode_acc. Qed.

Lemma split_token (t rest : bytes) :
  ~ In NUL t -> split NUL (t ++ NUL :: rest) = t :: split NUL rest.
Proof.
  induction t as [|c t IH]; intros Hn.
  - reflexivity.
  - cbn [app split].
    destruct (Byte.eqb c NUL) eqn:E.
    + apply Byte.byte_dec_bl in E. exfalso. apply Hn. left. exact E.
    + rewrite IH; [reflexivity|]. intros Hin. apply Hn. now right.
Qed.

Lemma split_terminated (toks : list bytes) :
  (forall t, In t toks -> ~ In NUL t) ->
  split NUL (terminated toks) = toks ++ [[]].
Proof.
  induction toks as [|t toks IH]; intros Hn.
  - reflexivity.
  - change (terminated (t :: toks)) with ((t ++ [NUL]) ++ terminated toks).
    rewrite <- app_assoc. cbn [app].
    rewrite split_token by (apply Hn; now left).
    rewrite IH by (intros t' Ht'; apply Hn; now right).
    reflexivity.
Qed.

Lemma terminated_not_nil (toks : list bytes) :
  toks <> [] -> terminated toks <> [].
Proof.
  destruct toks as [|t toks]; [contradiction|]. intros _.
  change (terminated (t :: toks)) with ((t ++ [NUL]) ++ terminated toks).
  destruct t; discriminate.
Qed.

Lemma wire_tokens_not_nil (fields : list field) :
  fields <> [] -> wire_tokens fields <> [].
Proof.
  destruct fields as [|f fields]; [contradiction|]. intros _.
  change (wire_tokens (f :: fields))
    with (field_tokens f ++ wire_tokens fields).
  destruct f; discriminate.
Qed.

(** C4 (as amended): for a non-empty field list whose rendered tokens
    hold no NUL and whose encoding the prefix can count, encoding,
    prefixing and decoding from a fresh buffer yields exactly one frame
    and nothing left over; its field list is the list of rendered tokens
    in order: the thirteen sub-field tokens for a contract and one token
    for every other field.  Without a contract among the fields this is
    one decoded token per input field.  The conversions: [None] and an
    integer that compares equal to [UNSET_INTEGER] or to [UNSET_DOUBLE]
    are rendered as the empty string, a boolean as [1] or [0], any other
    integer as its decimal digits and a string as itself. *)
Theorem encode_decode_roundtrip (fields : list field) (frame : bytes) :
  fields <> [] ->
  (forall t, In t (wire_tokens fields) -> ~ In NUL t) ->
  _prefix (_encode fields) = Some frame ->
  feed_chunks [] [frame] = Some ([wire_tokens fields], [])
  /\ ((forall f, In f fields -> is_contract f = false) ->
      wire_tokens fields = map render fields)
  /\ render FNone = []
  /\ (forall n, render (FInt n)
                = if (n =? 2 ^ 31 - 1) || (n =? 2 ^ 1024 - 2 ^ 971)
                  then [] else py_str_int n)
  /\ (forall b, render (FBool b) = if b then B "1" else B "0")
  /\ (forall x, render (FStr x) = x).
Proof.
  intros Hne Hnul Hp.
  split; [|split; [|repeat split]].
  - rewrite (feed_chunks_concat [frame] [] next_frame_nil).
    cbn [List.concat app]. rewrite app_nil_r.
    assert (Hb : _encode fields <> []).
    { rewrite encode_terminated.
      apply terminated_not_nil, wire_tokens_not_nil, Hne. }
    rewrite (extract_frames_whole _ _ Hp Hb).
    rewrite encode_terminated, split_terminated by exact Hnul.
    now rewrite removelast_last.
  - clear. induction fields as [|f fields IH]; intros Hc; [reflexivity|].
    change (wire_tokens (f :: fields))
      with (field_tokens f ++ wire_tokens fields).
    rewrite IH by (intros f' Hf'; apply Hc; now right).
    specialize (Hc f (or_introl eq_refl)).
    destruct f; try reflexivity. discriminate.
Qed.

Lemma encode_decode_roundtrip_witness :
  feed_chunks []
    [[x00; x00; x00; x08; "7"%byte; "1"%byte; x00; x00; "1"%byte; x00;
      "0"%byte; x00]]
  = Some ([[B "71"; []; B "1"; B "0"]], []).
Proof.
  assert (Hnul : forall t,
             In t (wire_tokens [FInt 71; FNone; FBool true; FBool false]) ->
             ~ In NUL t).
  { intros t Ht. cbn in Ht.
    repeat (destruct Ht as [<-|Ht]; [cbn; intuition discriminate|]).
    contradiction. }
  exact (proj1 (encode_decode_roundtrip
                  [FInt 71; FNone; FBool true; FBool false]
                  [x00; x00; x00; x08; "7"%byte; "1"%byte; x00; x00;
                   "1"%byte; x00; "0"%byte; x00]
                  ltac:(discriminate) Hnul ltac:(vm_compute; reflexivity))).
Defined.

(** C4 fails as stated: a single contract field comes back as thirteen
    tokens, not as one. *)
Lemma roundtrip_contract_counterexample :
  let fields := [FContract default_contract] in
  exists frame toks,
    _prefix (_encode fields) = Some frame
    /\ feed_chunks [] [frame] = Some ([toks], [])
    /\ List.length toks = 13%nat
    /\ List.length fields = 1%nat
    /\ toks <> map render fields.
Proof.
  eexists. eexists. split; [reflexivity|].
  split; [vm_compute; reflexivity|].
  split; [reflexivity|]. split; [reflexivity|]. discriminate.
Qed.

(** ** Accessors *)

(** C5 (as amended): while the session is not ready, [getReqId],
    [getAccounts] and [connectionStats] each raise
    [AssertionError('Not connected')] and leave the state as it is;
    [isReady] itself never raises and returns [False]. *)
Theorem accessors_reject_when_not_ready (s : Client) (now : Q) :
  isReady s = false ->
  getReqId s = (s, Raise (AssertionError "Not connected"))
  /\ getAccounts s = (s, Raise (AssertionError "Not connected"))
  /\ connectionStats now s = (s, Raise (AssertionError "Not connected"))
  /\ call_isReady s = (s, Ret false).
Proof.
  intros H.
  unfold getReqId, getAccounts, connectionStats, call_isReady,
    bind, get, assert, ret, raise.
  rewrite H. repeat split.
Qed.

Lemma accessors_reject_when_not_ready_witness :
  getReqId negotiated_client
  = (negotiated_client, Raise (AssertionError "Not connected")).
Proof.
  exact (proj1 (accessors_reject_when_not_ready negotiated_client 0 eq_refl)).
Defined.

(** C5 fails as stated for [isReady]: called on a session that is not
    ready it returns [False]; it does not raise. *)
Lemma isReady_does_not_reject :
  isReady negotiated_client = false
  /\ call_isReady negotiated_client = (negotiated_client, Ret false)
  /\ result call_isReady negotiated_client
     <> Raise (AssertionError "Not connected").
Proof. repeat split. discriminate. Qed.

(** ** The readiness barrier *)

Lemma py_int_9 : py_int (B "9") = Some 9.
Proof. reflexivity. Qed.

Lemma py_int_15 : py_int (B "15") = Some 15.
Proof. reflexivity. Qed.

Ltac run_decode :=
  unfold deliver, after, try_except, _decode, nextValidId_msg,
    managedAccounts_msg, int_, call, log, when;
  cbn [hd_error of_option];
  unfold bind, get, modify, ret, raise, of_option;
  rewrite ?py_int_9, ?py_int_15;
  cbn [Z.eqb Pos.eqb fst snd].

Ltac case_if :=
  match goal with
  | |- context [if ?c then _ else _] => destruct c
  end.

Section Barrier.

Variable raises : list event -> event -> bool.
Variable float_ok : bytes -> bool.

(** Next-valid-id: seeds the counter and sets the event when an account
    list is already there. *)
Lemma deliver_nextValidId (s : Client) (v : bytes) (n : Z) :
  py_int v = Some n ->
  let s' := deliver raises float_ok (nextValidId_msg v) s in
  _reqIdSeq s' = n
  /\ _accounts s' = _accounts s
  /\ _readyEvent s' = (_readyEvent s || truthy_opt_list (_accounts s))%bool.
Proof.
  intros Hv. run_decode. rewrite Hv. cbn.
  destruct (truthy_opt_list (_accounts s)); cbn; case_if; cbn;
    rewrite ?orb_true_r, ?orb_false_r; auto.
Qed.

(** A next-valid-id frame never touches the account list, and cannot set
    the event while there is none. *)
Lemma deliver_nextValidId_no_accounts (s : Client) (v : bytes) :
  _accounts s = None ->
  let s' := deliver raises float_ok (nextValidId_msg v) s in
  _accounts s' = None /\ _readyEvent s' = _readyEvent s.
Proof.
  intros Ha. run_decode.
  destruct (py_int v) as [n|]; cbn.
  - rewrite Ha. cbn. case_if; cbn; auto.
  - auto.
Qed.

(** Managed-accounts: stores the list and sets the event when the
    counter is non-zero. *)
Lemma deliver_managedAccounts (s : Client) (a : bytes) :
  utf8_valid a = true ->
  let s' := deliver raises float_ok (managedAccounts_msg a) s in
  _reqIdSeq s' = _reqIdSeq s
  /\ _accounts s' = Some (split COMMA a)
  /\ _readyEvent s' = (_readyEvent s || truthy_int (_reqIdSeq s))%bool.
Proof.
  intros Ha. run_decode. unfold py_decode. rewrite Ha. cbn.
  destruct (truthy_int (_reqIdSeq s)); cbn; case_if; cbn;
    rewrite ?orb_true_r, ?orb_false_r; auto.
Qed.

Lemma deliver_managedAccounts_no_id (s : Client) (a : bytes) :
  _reqIdSeq s = 0 ->
  let s' := deliver raises float_ok (managedAccounts_msg a) s in
  _reqIdSeq s' = 0 /\ _readyEvent s' = _readyEvent s.
Proof.
  intros Hr. run_decode. unfold py_decode.
  destruct (utf8_valid a); cbn.
  - rewrite Hr. cbn. case_if; cbn; auto.
  - auto.
Qed.

Lemma accounts_truthy (a : bytes) : truthy_opt_list (Some (split COMMA a)) = true.
Proof.
  pose proof (split_not_nil COMMA a) as H. cbn.
  destruct (split COMMA a); [contradiction | reflexivity].
Qed.

(** With a non-zero id the barrier opens in either order. *)
Lemma ready_either_order (s : Client) (v a : bytes) (n : Z) :
  py_int v = Some n -> n <> 0 -> utf8_valid a = true ->
  isReady (deliver_all raises float_ok
             [nextValidId_msg v; managedAccounts_msg a] s) = true
  /\ isReady (deliver_all raises float_ok
                [managedAccounts_msg a; nextValidId_msg v] s) = true.
Proof.
  intros Hv Hn Ha. unfold isReady, deliver_all. cbn [fold_left]. split.
  - destruct (deliver_nextValidId s v n Hv) as [H1 [H2 H3]].
    destruct (deliver_managedAccounts
                (deliver raises float_ok (nextValidId_msg v) s) a Ha)
      as [_ [_ ->]].
    rewrite H1. unfold truthy_int.
    destruct (Z.eqb_spec n 0); [contradiction|]. apply orb_true_r.
  - destruct (deliver_managedAccounts s a Ha) as [H1 [H2 H3]].
    destruct (deliver_nextValidId
                (deliver raises float_ok (managedAccounts_msg a) s) v n Hv)
      as [_ [_ ->]].
    rewrite H2, accounts_truthy. apply orb_true_r.
Qed.

(** Only next-valid-id frames, however many: never ready. *)
Lemma only_ids_never_ready (vs : list bytes) :
  forall s, _accounts s = None -> _readyEvent s = false ->
  isReady (deliver_all raises float_ok (map nextValidId_msg vs) s) = false.
Proof.
  induction vs as [|v vs IH]; intros s Ha Hr; [exact Hr|].
  cbn [map]. unfold deliver_all. cbn [fold_left].
  destruct (deliver_nextValidId_no_accounts s v Ha) as [H1 H2].
  apply IH; [exact H1 | now rewrite H2].
Qed.

(** Only managed-accounts frames, however many: never ready. *)
Lemma only_accounts_never_ready (accts : list bytes) :
  forall s, _reqIdSeq s = 0 -> _readyEvent s = false ->
  isReady (deliver_all raises float_ok (map managedAccounts_msg accts) s)
  = false.
Proof.
  induction accts as [|a accts IH]; intros s Hq Hr; [exact Hr|].
  cbn [map]. unfold deliver_all. cbn [fold_left].
  destruct (deliver_managedAccounts_no_id s a Hq) as [H1 H2].
  apply IH; [exact H1 | now rewrite H2].
Qed.

(** C1: the barrier is not symmetric when the next valid id is zero.
    From any negotiated session, next-valid-id [9,1,0] followed by a
    managed-accounts frame leaves the session not ready, while the same
    two frames in the other order make it ready (with counter zero). *)
Theorem barrier_misses_zero_id (s : Client) (a : bytes) :
  negotiated s -> utf8_valid a = true ->
  isReady (deliver_all raises float_ok
             [nextValidId_msg (B "0"); managedAccounts_msg a] s) = false
  /\ isReady (deliver_all raises float_ok
                [managedAccounts_msg a; nextValidId_msg (B "0")] s) = true.
Proof.
  intros [_ [_ [Hr [Hq Hacc]]]] Ha.
  unfold isReady, deliver_all. cbn [fold_left]. split.
  - destruct (deliver_nextValidId s (B "0") 0 eq_refl) as [H1 [H2 H3]].
    destruct (deliver_managedAccounts
                (deliver raises float_ok (nextValidId_msg (B "0")) s) a Ha)
      as [_ [_ ->]].
    rewrite H1, H3, Hr, Hacc. reflexivity.
  - destruct (deliver_managedAccounts s a Ha) as [H1 [H2 H3]].
    destruct (deliver_nextValidId
                (deliver raises float_ok (managedAccounts_msg a) s)
                (B "0") 0 eq_refl)
      as [_ [_ ->]].
    rewrite H2, accounts_truthy. apply orb_true_r.
Qed.

End Barrier.

Lemma barrier_misses_zero_id_witness :
  isReady (deliver_all quiet no_float
             [nextValidId_msg (B "0"); managedAccounts_msg (B "DU1234")]
             negotiated_client) = false
  /\ isReady (deliver_all quiet no_float
                [managedAccounts_msg (B "DU1234"); nextValidId_msg (B "0")]
                negotiated_client) = true.
Proof.
  apply (barrier_misses_zero_id quiet no_float negotiated_client (B "DU1234")).
  - repeat split.
  - reflexivity.
Defined.

(** ** Request ids *)

Lemma getReqId_ready (s : Client) :
  isReady s = true ->
  getReqId s = (set_reqIdSeq (_reqIdSeq s + 1) s, Ret (_reqIdSeq s)).
Proof.
  intros H. unfold getReqId, bind, get, assert, modify, ret. now rewrite H.
Qed.

Lemma getReqIds_consecutive (k : nat) :
  forall s, isReady s = true ->
  fst (getReqIds k s)
  = map (fun i => Ret (_reqIdSeq s + Z.of_nat i)) (seq 0 k).
Proof.
  induction k as [|k IH]; intros s H; [reflexivity|].
  cbn [getReqIds]. rewrite (getReqId_ready s H).
  specialize (IH (set_reqIdSeq (_reqIdSeq s + 1) s) H).
  destruct (getReqIds k (set_reqIdSeq (_reqIdSeq s + 1) s)) as [rs s''].
  cbn [fst] in *. rewrite IH. cbn [seq map]. f_equal.
  - f_equal. lia.
  - rewrite <- seq_shift, map_map. apply map_ext. intros i.
    cbn [_reqIdSeq set_reqIdSeq]. f_equal. lia.
Qed.

(** ** Inbound frames: negotiation and dispatch *)

Local Arguments py_int : simpl never.
Local Arguments py_decode : simpl never.
Local Arguments split : simpl never.
Local Arguments Z.eqb : simpl never.
Local Arguments evict : simpl never.
Local Arguments _prefix : simpl never.
Local Arguments startApi_msg : simpl never.
Local Arguments _decode : simpl never.

(** Case analysis along the branches of a method: split on variables
    and on the tests the code makes, never on a whole sub-computation. *)
Ltac atom x :=
  first [ is_var x
        | match x with
          | py_int _ => idtac
          | py_decode _ => idtac
          | Z.eqb _ _ => idtac
          | priceSizeTick_set _ => idtac
          | truthy_opt_list _ => idtac
          | truthy_int _ => idtac
          | _ _ _ => match x with ?f _ _ => is_var f end
          | _ _ => match x with ?f _ => is_var f end
          end ].

Ltac step :=
  match goal with
  | |- context [match ?x with _ => _ end] => atom x; destruct x
  end.

Ltac crunch := cbn; repeat (step; cbn); try reflexivity.

Ltac unfold_decode :=
  unfold deliver, after, try_except, _decode, int_, py_float, call, log,
    when, bind, get, modify, ret, raise, of_option.

Lemma set_data_same (s : Client) : set_data (_data s) s = s.
Proof. now destruct s. Qed.

Section Inbound.

Variable raises : list event -> event -> bool.
Variable float_ok : bytes -> bool.

(** [_decode] neither reads nor writes the inbound buffer. *)
Lemma deliver_set_data (fields : list bytes) (d : bytes) (s : Client) :
  deliver raises float_ok fields (set_data d s)
  = set_data d (deliver raises float_ok fields s).
Proof. unfold_decode. crunch. Qed.

(** What [_decode] leaves alone. *)
Lemma deliver_footprint (fields : list bytes) (s : Client) :
  let s' := deliver raises float_ok fields s in
  serverVersion_ s' = serverVersion_ s /\ debug s' = debug s
  /\ _data s' = _data s /\ _numMsgRecv s' = _numMsgRecv s
  /\ connState s' = connState s /\ wire s' = wire s.
Proof. unfold_decode. crunch; repeat split. Qed.

Lemma process_set_data (frames : list (list bytes)) (d : bytes) :
  forall s, process raises float_ok frames (set_data d s)
            = set_data d (process raises float_ok frames s).
Proof.
  induction frames as [|f fs IH]; intros s; [reflexivity|].
  unfold process in *. cbn [fold_left].
  change (bump (set_data d s)) with (set_data d (bump s)).
  now rewrite deliver_set_data, IH.
Qed.

Lemma process_footprint (frames : list (list bytes)) :
  forall s,
  let s' := process raises float_ok frames s in
  serverVersion_ s' = serverVersion_ s /\ debug s' = debug s
  /\ _data s' = _data s /\ _numMsgRecv s' = _numMsgRecv s + len frames
  /\ connState s' = connState s /\ wire s' = wire s.
Proof.
  induction frames as [|f fs IH]; intros s.
  - cbn. repeat split. unfold len. cbn. lia.
  - unfold process in *. cbn [fold_left].
    destruct (IH (deliver raises float_ok f (bump s)))
      as [H1 [H2 [H3 [H4 [H5 H6]]]]].
    destruct (deliver_footprint f (bump s)) as [G1 [G2 [G3 [G4 [G5 G6]]]]].
    cbv zeta. rewrite H1, H2, H3, H4, H5, H6, G1, G2, G3, G4, G5, G6.
    repeat split. unfold len, bump. cbn [List.length _numMsgRecv set_numMsgRecv].
    lia.
Qed.

(** Once the version is recorded and with debug logging off, a frame is
    counted, passed to [_decode], and the iteration ends normally whether
    [_decode] raised or not. *)
Lemma handle_frame_decodes (t : Q) (fields : list bytes) (s : Client) :
  truthy_opt_int (serverVersion_ s) = true -> debug s = false ->
  handle_frame raises float_ok t fields s
  = (deliver raises float_ok fields (bump s), Ret tt).
Proof.
  intros Hv Hd.
  unfold handle_frame, deliver, after, try_except, log, when, bind, get,
    modify, ret.
  cbn. rewrite Hd.
  change (serverVersion_ (set_numMsgRecv (_numMsgRecv s + 1) s))
    with (serverVersion_ s).
  rewrite Hv. cbn. unfold bump.
  destruct (_decode raises float_ok fields
              (set_numMsgRecv (_numMsgRecv s + 1) s)) as [s' [[]|e]];
    reflexivity.
Qed.

Lemma hasData_loop_all (t : Q) (fuel : nat) :
  forall s,
  (List.length (_data s) < fuel)%nat ->
  truthy_opt_int (serverVersion_ s) = true -> debug s = false ->
  exists frames rest,
    extract_frames (_data s) = Some (frames, rest)
    /\ hasData_loop raises float_ok t fuel s
       = (set_data rest (process raises float_ok frames s), Ret tt).
Proof.
  induction fuel as [|fuel IH]; intros s Hf Hv Hd; [lia|].
  rewrite extract_frames_unfold. cbn [hasData_loop]. unfold bind at 1, get.
  destruct (next_frame (_data s)) as [[[fields d']|]|e] eqn:E.
  - pose proof (next_frame_shrinks _ _ _ E) as Hs.
    unfold bind, modify.
    rewrite (handle_frame_decodes t fields (set_data d' s)) by assumption.
    set (s1 := deliver raises float_ok fields (bump (set_data d' s))).
    destruct (deliver_footprint fields (bump (set_data d' s)))
      as [G1 [G2 [G3 _]]]. fold s1 in G1, G2, G3.
    cbn [serverVersion_ debug _data bump set_data set_numMsgRecv] in G1, G2, G3.
    destruct (IH s1) as [fs [rest [Ex Hl]]];
      [rewrite G3; lia | now rewrite G1 | now rewrite G2 |].
    rewrite G3 in Ex. rewrite Ex. exists (fields :: fs), rest.
    split; [reflexivity|]. rewrite Hl. f_equal.
    unfold s1. change (bump (set_data d' s)) with (set_data d' (bump s)).
    rewrite deliver_set_data, process_set_data.
    unfold process. cbn [fold_left]. now destruct (fold_left _ fs _).
  - exists [], (_data s). split; [reflexivity|].
    unfold ret, process. cbn [fold_left]. now rewrite set_data_same.
  - exfalso. exact (next_frame_no_raise _ _ E).
Qed.

(** C9 (as amended): once the server version is recorded, and with debug
    logging off, the loop takes the buffer apart into the complete frames
    it begins with, one after the other, counts each and passes its field
    list to [_decode], in order, and ends normally.  What it leaves in
    the buffer begins with no complete frame, with one exception: a
    zero-length frame with nothing behind it stays where it is (C8).  A
    failure of [_decode] for a frame is caught and logged as 'Decode
    failed' and does not end the loop. *)
Theorem decode_failure_does_not_stop_loop (t : Q) (s : Client) :
  truthy_opt_int (serverVersion_ s) = true -> debug s = false ->
  (exists bodies rest,
      _data s = stream_of bodies ++ rest
      /\ Forall (fun b => len b < 2 ^ 32) bodies
      /\ (holds_frame rest -> rest = [x00; x00; x00; x00])
      /\ extract_frames (_data s) = Some (map body_fields bodies, rest)
      /\ next_frame rest = Ret None
      /\ hasData_loop raises float_ok t (S (List.length (_data s))) s
         = (set_data rest
              (process raises float_ok (map body_fields bodies) s), Ret tt))
  /\ (forall fields s1 e,
         _decode raises float_ok fields (bump s) = (s1, Raise e) ->
         handle_frame raises float_ok t fields s
         = (set_trace (trace s1 ++ [LogException "Decode failed"]) s1,
            Ret tt)).
Proof.
  intros Hv Hd. split.
  - destruct (hasData_loop_all t (S (List.length (_data s))) s
                (Nat.lt_succ_diag_r _) Hv Hd) as [frames [rest [Ex Hl]]].
    destruct (extract_frames_decompose _ _ _ _ (Nat.lt_succ_diag_r _) Ex)
      as [bodies [Hdec [Hb [Hf Hst]]]].
    subst frames. exists bodies, rest.
    split; [exact Hdec|]. split; [exact Hb|]. split; [exact Hst|].
    split; [exact Ex|]. split; [|exact Hl].
    exact (extract_frames_rest_stuck _ _ _ _ (Nat.lt_succ_diag_r _) Ex).
  - intros fields s1 e He.
    rewrite (handle_frame_decodes t fields s Hv Hd).
    unfold deliver, after, try_except. rewrite He. reflexivity.
Qed.

End Inbound.

Lemma decode_failure_does_not_stop_loop_witness :
  let s := set_data (frame_of [FStr (B "2"); FStr (B "bad")]
                     ++ frame_of [FStr (B "9"); FStr (B "1"); FStr (B "17")])
             negotiated_client in
  exists bodies rest,
    _data s = stream_of bodies ++ rest
    /\ Forall (fun b => len b < 2 ^ 32) bodies
    /\ (holds_frame rest -> rest = [x00; x00; x00; x00])
    /\ extract_frames (_data s) = Some (map body_fields bodies, rest)
    /\ next_frame rest = Ret None
    /\ hasData_loop quiet no_float 0 (S (List.length (_data s))) s
       = (set_data rest
            (process quiet no_float (map body_fields bodies) s), Ret tt).
Proof.
  exact (proj1 (decode_failure_does_not_stop_loop quiet no_float 0
                  (set_data (frame_of [FStr (B "2"); FStr (B "bad")]
                             ++ frame_of [FStr (B "9"); FStr (B "1");
                                          FStr (B "17")])
                     negotiated_client) eq_refl eq_refl)).
Defined.

(** C9 fails as stated: a failure in the negotiation branch is not
    caught.  Before any version is recorded, a two-field frame whose
    first field is not a number makes [_onSocketHasData] raise; the
    complete frame behind it stays in the buffer, unprocessed, and
    nothing is logged. *)
Lemma negotiation_failure_stops_loop :
  let s := open_session (new_client 1) in
  let data := frame_of [FStr (B "x"); FStr (B "y")]
              ++ frame_of [FStr (B "9"); FStr (B "1"); FStr (B "17")] in
  let s' := after (_onSocketHasData quiet no_float 0 data) s in
  extract_frames data = Some ([[B "x"; B "y"]; [B "9"; B "1"; B "17"]], [])
  /\ result (_onSocketHasData quiet no_float 0 data) s = Raise ValueError
  /\ extract_frames (_data s') = Some ([[B "9"; B "1"; B "17"]], [])
  /\ _numMsgRecv s' = 1
  /\ trace s' = [].
Proof. vm_compute. repeat split. Qed.

(** ** Sending: the throttle *)

Local Arguments _prefix : simpl never.
Local Arguments Z.ltb : simpl never.
Local Arguments len : simpl never.
Local Arguments utf8_valid : simpl never.

(** A request that finds the queue empty and room in the window goes
    to the transport within the call. *)
Lemma sendMsg_immediate (t : Q) (m frame : bytes) (s : Client) (c : Connection) :
  nonempty m = true -> _msgQ s = [] ->
  len (evict t (_timeQ s)) < MaxRequests ->
  _prefix m = Some frame ->
  conn s = Some c -> socket c = true ->
  exists s',
    sendMsg t (Some m) s = (s', Ret tt)
    /\ wire s' = wire s ++ [(t, frame)]
    /\ _msgQ s' = []
    /\ _timeQ s' = evict t (_timeQ s) ++ [t]
    /\ timers s' = timers s
    /\ serverVersion_ s' = serverVersion_ s
    /\ connTime s' = connTime s
    /\ connState s' = connState s
    /\ trace s' = trace s ++ (if _isThrottling s
                              then [LogWarn "Stopped to throttle requests"]
                              else []).
Proof.
  intros Hm Hq Ht Hp Hc Hs. apply Z.ltb_lt in Ht.
  destruct s as [cs sv ct cid oc cn p1 p2 p3 dbg dat rdy rq acc st nb nm thr
                   mq tq wr tm tr].
  cbn in Hq, Ht, Hc. subst.
  unfold sendMsg, reschedule, when, bind, modify, get, log, ret. rewrite Hm.
  cbn. rewrite Ht. cbn. unfold of_option, ret. rewrite Hp.
  unfold conn_sendMsg, bind, get, of_option, ret, modify. cbn. rewrite Hs. cbn.
  destruct thr; cbn; eexists; repeat split; cbn; try reflexivity.
  now rewrite app_nil_r.
Qed.

Lemma startApi_msg_nonempty (s : Client) : nonempty (startApi_msg s) = true.
Proof. reflexivity. Qed.

Local Arguments sendMsg : simpl never.

Section Negotiation.

Variable raises : list event -> event -> bool.
Variable float_ok : bytes -> bool.

Lemma startApi_sends (t : Q) (frame : bytes) (s : Client) (c : Connection) :
  connState s = CONNECTED -> _msgQ s = [] ->
  len (evict t (_timeQ s)) < MaxRequests ->
  _prefix (startApi_msg s) = Some frame ->
  conn s = Some c -> socket c = true ->
  exists s',
    startApi raises t s = (s', Ret tt)
    /\ wire s' = wire s ++ [(t, frame)]
    /\ _msgQ s' = []
    /\ _timeQ s' = evict t (_timeQ s) ++ [t]
    /\ timers s' = timers s
    /\ serverVersion_ s' = serverVersion_ s
    /\ connTime s' = connTime s
    /\ connState s' = connState s
    /\ trace s' = trace s ++ (if _isThrottling s
                              then [LogWarn "Stopped to throttle requests"]
                              else []).
Proof.
  intros Hcs Hq Ht Hp Hc Hs. unfold startApi, bind, get.
  replace (isConnected s) with true
    by (unfold isConnected; now rewrite Hcs, Hc, Hs).
  exact (sendMsg_immediate t _ frame s c (startApi_msg_nonempty s)
           Hq Ht Hp Hc Hs).
Qed.

(** C7 (as amended): a frame of exactly two fields that arrives while no
    server version is recorded, whose first field reads as an integer
    and, when debug logging is on, whose two fields are valid UTF-8, is
    taken as the negotiation reply: the integer is stored as the server
    version, the second field as the connection time, the state becomes
    [CONNECTED], and the start-API request goes to the transport within
    the same call (the socket being up, the queue empty and the window
    not full, as they are before negotiation); then the wrapper is told.
    For [151, 20240101 12:00:00] on a fresh session this is version 151
    and the frame of [71, 2, clientId, ''].  *)
Theorem negotiation_reply (t : Q) (version ct : bytes) (v : Z)
    (c : Connection) (frame : bytes) (s : Client) :
  truthy_opt_int (serverVersion_ s) = false ->
  (debug s = true -> utf8_valid version = true /\ utf8_valid ct = true) ->
  py_int version = Some v ->
  conn s = Some c -> socket c = true ->
  _msgQ s = [] -> len (evict t (_timeQ s)) < MaxRequests ->
  _prefix (startApi_msg (set_serverVersion_ (Some v) s)) = Some frame ->
  let s' := after (handle_frame raises float_ok t [version; ct]) s in
  serverVersion_ s' = Some v
  /\ connTime s' = Some ct
  /\ connState s' = CONNECTED
  /\ wire s' = wire s ++ [(t, frame)]
  /\ _msgQ s' = []
  /\ In ConnectAck (trace s').
Proof.
  intros Hv Hd Hi Hc Hs Hq Ht Hp.
  pose (s0 := if debug s
              then set_trace (trace (bump s) ++ [LogDebug [version; ct]])
                     (bump s)
              else bump s).
  pose (s1 := set_connState CONNECTED
                (set_serverVersion_ (Some v) (set_connTime (Some ct) s0))).
  assert (Hs0 : serverVersion_ s0 = serverVersion_ s
                /\ conn s0 = conn s /\ _msgQ s0 = _msgQ s
                /\ _timeQ s0 = _timeQ s /\ wire s0 = wire s
                /\ clientId s0 = clientId s /\ optCapab s0 = optCapab s).
  { unfold s0. destruct (debug s); repeat split. }
  destruct Hs0 as [A1 [A2 [A3 [A4 [A5 [A6 A7]]]]]].
  destruct (startApi_sends t frame s1 c) as [s2 [E [W [Q2 [_ [_ [V [CT [CS _]]]]]]]]].
  { reflexivity. }
  { cbn. now rewrite A3. }
  { cbn. now rewrite A4. }
  { unfold startApi_msg in *. cbn in *. now rewrite A6, A7. }
  { cbn. now rewrite A2. }
  { exact Hs. }
  assert (Hrun : handle_frame raises float_ok t [version; ct] s
                 = (let s3 := set_trace (trace s2 ++ [ConnectAck]) s2 in
                    if raises (trace s2) ConnectAck
                    then (s3, Raise CallbackError)
                    else (set_trace
                            (trace s3 ++ [LogInfo "Logged on to server version"])
                            s3, Ret tt))).
  { unfold handle_frame, when, bind, modify, get, log, ret, int_, of_option,
      call, raise.
    fold (bump s).
    match goal with
    | |- (let (_, _) := ?X in _) = _ => assert (Hdbg : X = (s0, Ret tt))
    end.
    { unfold s0, modify. change (debug (bump s)) with (debug s).
      destruct (debug s); [|reflexivity].
      destruct (Hd eq_refl) as [H1 H2]. cbn [forallb]. now rewrite H1, H2. }
    rewrite Hdbg. rewrite A1, Hv.
    change (negb false && (len [version; ct] =? 2)) with true.
    cbv iota beta. rewrite Hi. unfold ret, modify. cbv iota beta.
    fold s1. rewrite E. cbv zeta.
    destruct (raises (trace s2) ConnectAck); reflexivity. }
  unfold after. rewrite Hrun. cbv zeta.
  assert (Hin : In ConnectAck (trace s2 ++ [ConnectAck])).
  { apply in_or_app. right. now left. }
  destruct (raises (trace s2) ConnectAck); cbn [fst];
    cbn [serverVersion_ connTime connState wire _msgQ trace set_trace];
    rewrite V, CT, CS, W, Q2; cbn; rewrite A5;
    repeat split; try reflexivity.
  - exact Hin.
  - apply in_or_app. now left.
Qed.

End Negotiation.

Lemma negotiation_reply_witness :
  let s' := after (handle_frame quiet no_float 0
                     [B "151"; B "20240101 12:00:00"])
              (open_session (new_client 1)) in
  serverVersion_ s' = Some 151
  /\ connTime s' = Some (B "20240101 12:00:00")
  /\ connState s' = CONNECTED
  /\ wire s' = [] ++ [(0%Q, frame_of [FInt 71; FInt 2; FInt 1; FStr []])]
  /\ _msgQ s' = []
  /\ In ConnectAck (trace s').
Proof.
  exact (negotiation_reply quiet no_float 0 (B "151")
           (B "20240101 12:00:00") 151 (mkConnection true 0 0)
           (frame_of [FInt 71; FInt 2; FInt 1; FStr []])
           (open_session (new_client 1))
           eq_refl ltac:(discriminate) eq_refl eq_refl eq_refl eq_refl
           eq_refl ltac:(vm_compute; reflexivity)).
Defined.

(** C7 fails as stated: with debug logging on, the fields of every frame
    are decoded for the log line before the test for the negotiation
    reply.  A reply whose connection time is not valid UTF-8 then makes
    the handler raise: the frame is gone from the buffer, no version and
    no time is stored, the state does not advance and nothing is sent. *)
Lemma negotiation_reply_lost_under_debug :
  let s := mkClient CONNECTING None None 1 [] (Some (mkConnection true 0 0))
             false false false true [] false 0 None 0 0 0 false
             [] [] [] [] [] in
  let data := [x00; x00; x00; x06] ++ B "151" ++ [NUL; xff; NUL] in
  let s' := after (_onSocketHasData quiet no_float 0 data) s in
  extract_frames data = Some ([[B "151"; [xff]]], [])
  /\ py_int (B "151") = Some 151
  /\ result (_onSocketHasData quiet no_float 0 data) s
     = Raise UnicodeDecodeError
  /\ serverVersion_ s' = None /\ connTime s' = None
  /\ connState s' = CONNECTING /\ wire s' = [] /\ _data s' = [].
Proof. vm_compute. repeat split. Qed.

(** ** The rate bound and the order of sends *)

Lemma round_half_even_le (a b K : Z) :
  0 < b -> a <= K * b -> round_half_even a b <= K.
Proof.
  intros Hb Ha. unfold round_half_even.
  pose proof (Z.div_mod a b ltac:(lia)) as Hdm.
  pose proof (Z.mod_pos_bound a b Hb) as Hm.
  assert (Hq : a / b <= K) by (apply Z.div_le_upper_bound; lia).
  destruct (Z.compare_spec (2 * (a mod b)) b) as [E|E|E].
  - destruct (Z.even (a / b)); [exact Hq | nia].
  - exact Hq.
  - nia.
Qed.

Lemma round_half_even_nonneg (a b : Z) :
  0 < b -> 0 <= a -> 0 <= round_half_even a b.
Proof.
  intros Hb Ha. unfold round_half_even.
  assert (Hq : 0 <= a / b) by (apply Z.div_pos; lia).
  destruct (2 * (a mod b) ?= b); [destruct (Z.even (a / b))| |]; lia.
Qed.

Lemma fl_pos_nonneg (n d : positive) : (0 <= fl_pos n d)%Q.
Proof.
  unfold fl_pos. set (e := ulp_exp n d). unfold scaled.
  destruct (Z.leb_spec 0 e) as [He|He].
  - assert (Hm : 0 <= round_half_even (Z.pos n) (Z.pos d * 2 ^ e)).
    { apply round_half_even_nonneg; [|lia].
      pose proof (Z.pow_pos_nonneg 2 e ltac:(lia) He). nia. }
    unfold Qle, inject_Z. cbn [Qnum Qden].
    pose proof (Z.pow_pos_nonneg 2 e ltac:(lia) He). nia.
  - assert (Hm : 0 <= round_half_even (Z.pos n * 2 ^ (- e)) (Z.pos d)).
    { apply round_half_even_nonneg; [lia|].
      pose proof (Z.pow_pos_nonneg 2 (- e) ltac:(lia) ltac:(lia)). nia. }
    unfold Qle. cbn [Qnum Qden]. lia.
Qed.

Lemma ulp_exp_small (n d : positive) (K : Z) :
  K <= 2 ^ 50 -> Z.pos n <= K * Z.pos d -> ulp_exp n d < 0.
Proof.
  intros HK Hn. unfold ulp_exp.
  assert (Hl : Z.log2 (Z.pos n) <= 50 + Z.log2 (Z.pos d)).
  { rewrite <- (Z.log2_mul_pow2 (Z.pos d) 50) by lia.
    apply Z.log2_le_mono. nia. }
  set (e0 := Z.log2 (Z.pos n) - Z.log2 (Z.pos d) - 53).
  assert (He0 : e0 <= -3) by (unfold e0; lia).
  destruct (scaled n d e0) as [a b].
  destruct (a / b <? 2 ^ 53); lia.
Qed.

(** Rounding is monotone and leaves integers of moderate size alone, so
    a difference that is at most a small integer is still at most that
    integer once rounded. *)
Lemma fl_le_int (x : Q) (K : Z) :
  0 <= K <= 2 ^ 50 -> (x <= inject_Z K)%Q -> (fl x <= inject_Z K)%Q.
Proof.
  intros [HK0 HK] Hx. unfold fl.
  destruct x as [xn xd]. cbn [Qnum Qden].
  unfold Qle, inject_Z in Hx. cbn [Qnum Qden] in Hx.
  destruct xn as [|n|n].
  - unfold Qle, inject_Z. cbn [Qnum Qden]. lia.
  - pose proof (ulp_exp_small n xd K HK ltac:(lia)) as He.
    unfold fl_pos. set (e := ulp_exp n xd) in *. unfold scaled.
    destruct (Z.leb_spec 0 e) as [H|_]; [lia|].
    pose proof (Z.pow_pos_nonneg 2 (- e) ltac:(lia) ltac:(lia)) as Hp.
    assert (Hm : round_half_even (Z.pos n * 2 ^ (- e)) (Z.pos xd)
                 <= K * 2 ^ (- e)).
    { apply round_half_even_le; [lia | nia]. }
    unfold Qle, inject_Z. cbn [Qnum Qden]. rewrite Z2Pos.id by exact Hp. lia.
  - pose proof (fl_pos_nonneg n xd) as Hp.
    assert (H0 : (0 <= inject_Z K)%Q)
      by (unfold Qle, inject_Z; cbn [Qnum Qden]; lia).
    lra.
Qed.

(** A difference within the interval is still within it once rounded,
    so what [evict] drops is strictly older than the interval. *)
Lemma fl_interval (x : Q) :
  (x <= RequestsInterval)%Q -> (fl x <= RequestsInterval)%Q.
Proof. apply (fl_le_int x 5). cbn. lia. Qed.

Lemma evict_cons (t t0 : Q) (rest : list Q) :
  evict t (t0 :: rest)
  = if Qle_bool (fl (t - t0)) RequestsInterval
    then t0 :: rest else evict t rest.
Proof. reflexivity. Qed.

Lemma evict_split (t : Q) (times : list Q) :
  exists dropped,
    times = dropped ++ evict t times
    /\ forall x, In x dropped -> (RequestsInterval < t - x)%Q.
Proof.
  induction times as [|t0 rest IH].
  - exists []. split; [reflexivity | intros x []].
  - rewrite evict_cons.
    destruct (Qle_bool (fl (t - t0)) RequestsInterval) eqn:E.
    + exists []. split; [reflexivity | intros x []].
    + destruct IH as [dropped [Hd Hx]]. exists (t0 :: dropped). split.
      * cbn [app]. now rewrite <- Hd.
      * intros x [<-|Hin]; [|now apply Hx].
        apply Qnot_le_lt. intros Hle. apply fl_interval in Hle.
        apply Qle_bool_iff in Hle. congruence.
Qed.

Lemma evict_length (t : Q) (times : list Q) :
  len (evict t times) <= len times.
Proof.
  destruct (evict_split t times) as [dropped [Hd _]].
  rewrite Hd at 2. rewrite len_app. pose proof (len_nonneg dropped). lia.
Qed.

Lemma filter_fst_length {A B : Type} (p : A -> bool) (w : list (A * B)) :
  List.length (filter (fun e => p (fst e)) w)
  = List.length (filter p (map fst w)).
Proof.
  induction w as [|e w IH]; [reflexivity|].
  cbn [filter map]. destruct (p (fst e)); cbn [List.length]; now rewrite IH.
Qed.

Lemma filter_none {A : Type} (p : A -> bool) (l : list A) :
  (forall x, In x l -> p x = false) -> filter p l = [].
Proof.
  induction l as [|x l IH]; intros H; [reflexivity|].
  cbn [filter]. rewrite (H x (or_introl eq_refl)).
  apply IH. intros y Hy. apply H. now right.
Qed.

(** One more write at time [t], while fewer than [MaxRequests] earlier
    writes are within the interval before [t], keeps every closed window
    within the bound. *)
Lemma window_append (t : Q) (frame : bytes) (w : list (Q * bytes))
    (old q : list Q) :
  map fst w = old ++ q ->
  (forall x, In x old -> (RequestsInterval < t - x)%Q) ->
  len q < MaxRequests ->
  (forall a, sent_in_window a w <= MaxRequests) ->
  forall a, sent_in_window a (w ++ [(t, frame)]) <= MaxRequests.
Proof.
  intros Hw Hold Hq Hb a. unfold sent_in_window.
  rewrite filter_app, len_app. cbn [filter fst].
  destruct (in_window a t) eqn:E.
  - assert (Hle : len (filter (fun e => in_window a (fst e)) w) <= len q).
    { unfold len. rewrite filter_fst_length, Hw, filter_app, length_app.
      rewrite (filter_none (in_window a) old).
      - cbn [List.length]. pose proof (filter_length_le (in_window a) q). lia.
      - intros x Hx. specialize (Hold x Hx).
        unfold in_window in *. apply andb_true_iff in E. destruct E as [E1 E2].
        apply Qle_bool_iff in E1, E2.
        destruct (Qle_bool a x) eqn:Ea; [|reflexivity].
        apply Qle_bool_iff in Ea. exfalso. lra. }
    change (len [(t, frame)]) with 1. lia.
  - change (len (@nil (Q * bytes))) with 0. specialize (Hb a).
    unfold sent_in_window in Hb. lia.
Qed.

Lemma frames_of_app (a b : list bytes) :
  frames_of (a ++ b) = frames_of a ++ frames_of b.
Proof. unfold frames_of. now rewrite flat_map_app. Qed.

Lemma drain_step (t : Q) (n : nat) (s : Client) :
  drain t (S n) s =
  match _msgQ s with
  | msg :: rest =>
      if len (_timeQ s) <? MaxRequests then
        match conn s with
        | Some c =>
            match _prefix msg with
            | Some frame =>
                if socket c then
                  drain t n
                    (set_timeQ (_timeQ s ++ [t])
                       (set_conn
                          (Some (mkConnection (socket c)
                                   (numBytesSent c + len frame)
                                   (numMsgSent c + 1)))
                          (set_wire (wire s ++ [(t, frame)])
                             (set_msgQ rest s))))
                else (set_msgQ rest s, Raise AttributeError)
            | None => (set_msgQ rest s, Raise StructError)
            end
        | None => (set_msgQ rest s, Raise AttributeError)
        end
      else (s, Ret tt)
  | [] => (s, Ret tt)
  end.
Proof.
  cbn [drain]. unfold conn_sendMsg. unfold bind, get, modify, of_option, ret, raise.
  destruct (_msgQ s) as [|msg rest]; [reflexivity|].
  destruct (len (_timeQ s) <? MaxRequests); [|reflexivity].
  cbn [conn set_msgQ].
  destruct (conn s) as [c|] eqn:Ec; [|reflexivity].
  destruct (_prefix msg) as [frame|]; [|reflexivity].
  cbn [conn set_msgQ]. rewrite Ec.
  destruct (socket c); reflexivity.
Qed.

Lemma drain_inv (t : Q) (subm : list bytes) (n : nat) :
  forall s, throttle_inv t subm s ->
  throttle_inv t subm (after (drain t n) s).
Proof.
  induction n as [|n IH]; intros s Hinv; [exact Hinv|].
  unfold after. rewrite drain_step. pose proof Hinv as Hinv0.
  destruct Hinv as [[c [Hc Hs]] [[old [Hw Hold]] [Hlen [Hb [popped [Hsub Hf]]]]]].
  destruct (_msgQ s) as [|msg rest] eqn:Eq; [exact Hinv0|].
  destruct (Z.ltb_spec (len (_timeQ s)) MaxRequests) as [Hlt|Hge];
    [|exact Hinv0].
  rewrite Hc. destruct (_prefix msg) as [frame|] eqn:Ep.
  - rewrite Hs. apply IH. unfold throttle_inv.
    cbn [conn wire _timeQ _msgQ set_timeQ set_conn set_wire set_msgQ socket].
    split; [eauto|]. split.
    { exists old. split; [|exact Hold].
      rewrite map_app, Hw. cbn [map fst]. now rewrite app_assoc. }
    split; [rewrite len_app; change (len [t]) with 1; lia|].
    split; [exact (window_append t frame (wire s) old (_timeQ s)
                     Hw Hold Hlt Hb)|].
    exists (popped ++ [msg]). split.
    { rewrite Hsub, <- app_assoc. reflexivity. }
    rewrite map_app, Hf, frames_of_app. cbn [map snd frames_of flat_map].
    now rewrite Ep.
  - cbn [fst]. unfold throttle_inv.
    cbn [conn wire _timeQ _msgQ set_msgQ].
    split; [eauto|]. split; [eauto|]. split; [exact Hlen|].
    split; [exact Hb|].
    exists (popped ++ [msg]). split.
    { rewrite Hsub, <- app_assoc. reflexivity. }
    rewrite Hf, frames_of_app. cbn [frames_of flat_map].
    rewrite Ep. now rewrite !app_nil_r.
Qed.

Lemma throttle_inv_core (tc : Q) (subm : list bytes) (s s' : Client) :
  conn s' = conn s -> wire s' = wire s ->
  _timeQ s' = _timeQ s -> _msgQ s' = _msgQ s ->
  throttle_inv tc subm s -> throttle_inv tc subm s'.
Proof.
  unfold throttle_inv. intros -> -> -> ->. exact (fun H => H).
Qed.

Lemma evict_inv (tc t : Q) (subm : list bytes) (s : Client) :
  (tc <= t)%Q -> throttle_inv tc subm s ->
  throttle_inv t subm (set_timeQ (evict t (_timeQ s)) s).
Proof.
  intros Ht [Hc [[old [Hw Hold]] [Hlen [Hb Hf]]]].
  unfold throttle_inv. cbn [conn wire _timeQ _msgQ set_timeQ].
  split; [exact Hc|]. split.
  - destruct (evict_split t (_timeQ s)) as [dropped [Hd Hx]].
    exists (old ++ dropped). split.
    + rewrite Hw, <- app_assoc. now rewrite <- Hd.
    + intros x Hin. apply in_app_or in Hin. destruct Hin as [Hin|Hin].
      * specialize (Hold x Hin). lra.
      * now apply Hx.
  - split; [pose proof (evict_length t (_timeQ s)); lia|].
    split; [exact Hb | exact Hf].
Qed.

Lemma enqueue_inv (t : Q) (subm : list bytes) (m : bytes) (s : Client) :
  throttle_inv t subm s ->
  throttle_inv t (subm ++ [m]) (set_msgQ (_msgQ s ++ [m]) s).
Proof.
  intros [Hc [Hw [Hlen [Hb [popped [Hsub Hf]]]]]].
  unfold throttle_inv. cbn [conn wire _timeQ _msgQ set_msgQ].
  repeat (split; [assumption|]).
  exists popped. split; [|exact Hf]. now rewrite Hsub, app_assoc.
Qed.

(** The end of [sendMsg] touches the throttling flag, the log and the
    timers only; it schedules exactly one flush when messages remain
    queued, none otherwise. *)
Lemma reschedule_spec (s : Client) :
  let s' := fst (reschedule s) in
  conn s' = conn s /\ wire s' = wire s
  /\ _timeQ s' = _timeQ s /\ _msgQ s' = _msgQ s
  /\ match snd (reschedule s) with
     | Ret _ =>
         if nonempty (_msgQ s)
         then exists t0, hd_error (_timeQ s) = Some t0
                         /\ timers s' = timers s ++ [fl (t0 + RequestsInterval)]
         else timers s' = timers s
     | Raise _ => timers s' = timers s
     end.
Proof.
  unfold reschedule, when, bind, get, modify, log, of_option, ret, raise.
  destruct s as [cs sv ct cid oc cn p1 p2 p3 dbg dat rdy rq acc st nb nm thr
                   mq tq wr tm tr].
  cbn. destruct mq as [|m mq]; destruct thr; cbn;
    try (repeat split; reflexivity);
    destruct tq as [|t0 tq]; cbn; repeat split; eauto.
Qed.

Lemma drain_timers (t : Q) (n : nat) :
  forall s, timers (after (drain t n) s) = timers s.
Proof.
  induction n as [|n IH]; intros s; [reflexivity|].
  unfold after. rewrite drain_step.
  destruct (_msgQ s) as [|msg rest]; [reflexivity|].
  destruct (len (_timeQ s) <? MaxRequests); [|reflexivity].
  destruct (conn s) as [c|]; [|reflexivity].
  destruct (_prefix msg) as [frame|]; [|reflexivity].
  destruct (socket c); [|reflexivity].
  fold (after (drain t n)
          (set_timeQ (_timeQ s ++ [t])
             (set_conn
                (Some (mkConnection true (numBytesSent c + len frame)
                         (numMsgSent c + 1)))
                (set_wire (wire s ++ [(t, frame)]) (set_msgQ rest s))))).
  now rewrite IH.
Qed.

(** [sendMsg] after its first two statements. *)
Lemma sendMsg_unfold (t : Q) (msg : option bytes) (s : Client) :
  sendMsg t msg s =
  let s1 := set_timeQ (evict t (_timeQ s)) s in
  let s2 := match queued msg with
            | [] => s1
            | q => set_msgQ (_msgQ s1 ++ q) s1
            end in
  match drain t (List.length (_msgQ s2)) s2 with
  | (s3, Ret _) => reschedule s3
  | (s3, Raise e) => (s3, Raise e)
  end.
Proof.
  unfold sendMsg, queued, when, bind, get, modify, ret.
  destruct msg as [m|]; [destruct (nonempty m)|]; reflexivity.
Qed.

Lemma sendMsg_inv (tc t : Q) (subm : list bytes) (msg : option bytes)
    (s : Client) :
  (tc <= t)%Q -> throttle_inv tc subm s ->
  throttle_inv t (subm ++ queued msg) (after (sendMsg t msg) s).
Proof.
  intros Ht Hinv. unfold after. rewrite sendMsg_unfold. cbv zeta.
  pose proof (evict_inv tc t subm s Ht Hinv) as H1.
  set (s1 := set_timeQ (evict t (_timeQ s)) s) in *.
  assert (H2 : throttle_inv t (subm ++ queued msg)
                 match queued msg with
                 | [] => s1
                 | q => set_msgQ (_msgQ s1 ++ q) s1
                 end).
  { unfold queued. destruct msg as [m|]; [destruct (nonempty m)|];
      rewrite ?app_nil_r; try exact H1.
    exact (enqueue_inv t subm m s1 H1). }
  set (s2 := match queued msg with
             | [] => s1
             | q => set_msgQ (_msgQ s1 ++ q) s1
             end) in *.
  pose proof (drain_inv t (subm ++ queued msg) (List.length (_msgQ s2)) s2 H2)
    as H3.
  unfold after in H3.
  destruct (drain t (List.length (_msgQ s2)) s2) as [s3 [[]|e]];
    cbn [fst] in *; [|exact H3].
  destruct (reschedule_spec s3) as [G1 [G2 [G3 [G4 _]]]].
  exact (throttle_inv_core _ _ s3 _ G1 G2 G3 G4 H3).
Qed.

Lemma run_sendMsg_inv (calls : list (Q * option bytes)) :
  forall tc subm s,
  times_from tc (map fst calls) -> throttle_inv tc subm s ->
  exists tc', throttle_inv tc' (subm ++ submitted calls) (run_sendMsg calls s).
Proof.
  induction calls as [|[t msg] calls IH]; intros tc subm s Ht Hinv.
  - exists tc. cbn. now rewrite app_nil_r.
  - cbn [map fst times_from] in Ht. destruct Ht as [Ht Hrest].
    unfold run_sendMsg. cbn [fold_left fst snd].
    destruct (IH t (subm ++ queued msg) (after (sendMsg t msg) s) Hrest
                (sendMsg_inv tc t subm msg s Ht Hinv)) as [tc' H].
    exists tc'. unfold submitted. cbn [flat_map snd].
    rewrite app_assoc. exact H.
Qed.

Lemma fresh_inv (tc : Q) (s : Client) : fresh s -> throttle_inv tc [] s.
Proof.
  intros [Ht [Hq [Hw Hc]]]. unfold throttle_inv.
  rewrite Ht, Hq, Hw. split; [exact Hc|]. split.
  - exists []. split; [reflexivity | intros x []].
  - split; [unfold len, MaxRequests; cbn; lia|].
    split; [intros a; unfold sent_in_window, len, MaxRequests; cbn; lia|].
    exists []. split; reflexivity.
Qed.

(** [sendMsg] never reads the transport log: with other writes before
    its own, it does what it does without them. *)
Lemma drain_wire_base (t : Q) (w0 : list (Q * bytes)) (n : nat) :
  forall s,
  drain t n (set_wire (w0 ++ wire s) s)
  = (set_wire (w0 ++ wire (fst (drain t n s))) (fst (drain t n s)),
     snd (drain t n s)).
Proof.
  induction n as [|n IH]; intros s; [reflexivity|].
  rewrite !drain_step.
  change (_msgQ (set_wire (w0 ++ wire s) s)) with (_msgQ s).
  change (_timeQ (set_wire (w0 ++ wire s) s)) with (_timeQ s).
  change (conn (set_wire (w0 ++ wire s) s)) with (conn s).
  destruct (_msgQ s) as [|msg rest]; [reflexivity|].
  destruct (len (_timeQ s) <? MaxRequests); [|reflexivity].
  destruct (conn s) as [c|]; [|reflexivity].
  destruct (_prefix msg) as [frame|]; [|reflexivity].
  destruct (socket c); [|reflexivity].
  rewrite <- IH. f_equal.
  cbn [wire set_wire set_timeQ set_conn set_msgQ].
  now rewrite <- app_assoc.
Qed.

Lemma reschedule_wire_base (w : list (Q * bytes)) (s : Client) :
  reschedule (set_wire w s)
  = (set_wire w (fst (reschedule s)), snd (reschedule s)).
Proof.
  unfold reschedule, when, bind, get, modify, log, of_option, ret, raise.
  destruct s as [cs sv ct cid oc cn p1 p2 p3 dbg dat rdy rq acc st nb nm thr
                   mq tq wr tm tr].
  cbn. destruct mq as [|m mq]; destruct thr; cbn; try reflexivity;
    destruct tq as [|t0 tq]; reflexivity.
Qed.

Lemma sendMsg_wire_base (t : Q) (msg : option bytes) (w0 : list (Q * bytes))
    (s : Client) :
  after (sendMsg t msg) (set_wire (w0 ++ wire s) s)
  = set_wire (w0 ++ wire (after (sendMsg t msg) s)) (after (sendMsg t msg) s).
Proof.
  unfold after. rewrite !sendMsg_unfold. cbv zeta.
  set (s2 := match queued msg with
             | [] => set_timeQ (evict t (_timeQ s)) s
             | q => set_msgQ (_msgQ (set_timeQ (evict t (_timeQ s)) s) ++ q)
                      (set_timeQ (evict t (_timeQ s)) s)
             end).
  assert (E : match queued msg with
              | [] => set_timeQ (evict t (_timeQ (set_wire (w0 ++ wire s) s)))
                        (set_wire (w0 ++ wire s) s)
              | q => set_msgQ
                       (_msgQ (set_timeQ
                                 (evict t (_timeQ (set_wire (w0 ++ wire s) s)))
                                 (set_wire (w0 ++ wire s) s)) ++ q)
                       (set_timeQ
                          (evict t (_timeQ (set_wire (w0 ++ wire s) s)))
                          (set_wire (w0 ++ wire s) s))
              end = set_wire (w0 ++ wire s2) s2).
  { unfold s2. destruct (queued msg); reflexivity. }
  rewrite E.
  change (_msgQ (set_wire (w0 ++ wire s2) s2)) with (_msgQ s2).
  rewrite drain_wire_base.
  destruct (drain t (List.length (_msgQ s2)) s2) as [s3 [[]|e]]; cbn [fst snd].
  - rewrite reschedule_wire_base. cbn [fst].
    destruct (reschedule_spec s3) as [_ [G2 _]]. now rewrite G2.
  - reflexivity.
Qed.

Lemma set_wire_same (s : Client) : set_wire (wire s) s = s.
Proof. now destruct s. Qed.

Lemma run_sendMsg_wire_base (calls : list (Q * option bytes))
    (w0 : list (Q * bytes)) :
  forall s,
  run_sendMsg calls (set_wire (w0 ++ wire s) s)
  = set_wire (w0 ++ wire (run_sendMsg calls s)) (run_sendMsg calls s).
Proof.
  induction calls as [|[t msg] calls IH]; intros s; [reflexivity|].
  unfold run_sendMsg. cbn [fold_left fst snd].
  rewrite sendMsg_wire_base.
  exact (IH (after (sendMsg t msg) s)).
Qed.

(** C2 (as amended): for every run of [sendMsg] calls at loop times that
    never run backwards, started with the window and the queue empty and
    the socket up, as they are when the connection is made, every closed
    time window of length [RequestsInterval] holds at most [MaxRequests]
    of the frames that [sendMsg] wrote to the transport; and the frames
    it wrote are, in order, the frames of an initial part of what was
    submitted, the remainder being exactly the queue, in order: no frame
    overtakes an earlier one.  What was written to the transport before
    the run, and not by [sendMsg], is not counted. *)
Theorem rate_bound_and_fifo (calls : list (Q * option bytes)) (s : Client) :
  monotone (map fst calls) ->
  _timeQ s = [] -> _msgQ s = [] ->
  (exists c, conn s = Some c /\ socket c = true) ->
  let s' := run_sendMsg calls s in
  exists written,
    wire s' = wire s ++ written
    /\ (forall a, sent_in_window a written <= MaxRequests)
    /\ exists sent,
         submitted calls = sent ++ _msgQ s'
         /\ map snd written = frames_of sent.
Proof.
  intros Hm Ht Hq Hc. cbv zeta.
  remember (set_wire [] s) as s0 eqn:E0.
  assert (Hf : fresh s0).
  { subst s0. unfold fresh. cbn [_timeQ _msgQ wire conn set_wire]. auto. }
  assert (H : exists tc, throttle_inv tc (submitted calls) (run_sendMsg calls s0)).
  { destruct calls as [|[t msg] calls].
    - exists 0%Q. exact (fresh_inv 0%Q s0 Hf).
    - apply (run_sendMsg_inv ((t, msg) :: calls) t [] s0).
      + cbn [map fst times_from]. split; [apply Qle_refl | exact Hm].
      + exact (fresh_inv t s0 Hf). }
  destruct H as [tc [_ [_ [_ [Hb Hfifo]]]]].
  remember (wire s) as w eqn:Ew.
  assert (Hs : s = set_wire (w ++ wire s0) s0).
  { subst s0 w. cbn [wire set_wire]. rewrite app_nil_r. now destruct s. }
  clear E0 Ew Ht Hq Hc. subst s. rewrite run_sendMsg_wire_base.
  exists (wire (run_sendMsg calls s0)).
  cbn [wire set_wire _msgQ].
  split; [reflexivity|]. split; [exact Hb | exact Hfifo].
Qed.

Lemma rate_bound_and_fifo_witness :
  let calls := [(0%Q, Some (B "a")); (0%Q, Some (B "b")); (1%Q, None)] in
  let s := after (_onSocketConnected 100 151 0)
             (open_session (new_client 1)) in
  let s' := run_sendMsg calls s in
  exists written,
    wire s' = wire s ++ written
    /\ (forall a, sent_in_window a written <= MaxRequests)
    /\ exists sent,
         submitted calls = sent ++ _msgQ s'
         /\ map snd written = frames_of sent.
Proof.
  apply (rate_bound_and_fifo
           [(0%Q, Some (B "a")); (0%Q, Some (B "b")); (1%Q, None)]
           (after (_onSocketConnected 100 151 0)
              (open_session (new_client 1)))).
  - cbn. split; [|split; [|exact I]]; unfold Qle; cbn; lia.
  - reflexivity.
  - reflexivity.
  - eexists. split; reflexivity.
Defined.

(** C2 fails as stated: the frames handed to the transport are not all
    written by [sendMsg].  The handshake goes out through the connection
    directly when the socket comes up, and the throttle does not know of
    it: with [MaxRequests] requests at the same instant, the transport is
    handed [MaxRequests + 1] frames within one window. *)
Lemma handshake_exceeds_rate_bound :
  let s := after (_onSocketConnected 100 151 0)
             (open_session (new_client 1)) in
  let s' := run_sendMsg (burst 250 0 (B "x")) s in
  sent_in_window 0 (wire s') = MaxRequests + 1
  /\ _msgQ s' = [] /\ _timeQ s = [].
Proof. vm_compute. repeat split. Qed.

(** C10 (as amended): a call of [sendMsg] that returns with messages
    still queued schedules exactly one more flush, for the moment the
    oldest entry of the window expires, whatever flushes are pending
    already; a call that returns with an empty queue, or that raises,
    schedules none.  No pending flush is ever cancelled or replaced. *)
Theorem flush_scheduled_per_call (t : Q) (msg : option bytes) (s : Client) :
  let s' := after (sendMsg t msg) s in
  match result (sendMsg t msg) s with
  | Ret _ =>
      if nonempty (_msgQ s')
      then exists t0, hd_error (_timeQ s') = Some t0
                      /\ timers s' = timers s ++ [fl (t0 + RequestsInterval)]
      else timers s' = timers s
  | Raise _ => timers s' = timers s
  end.
Proof.
  unfold after, result. rewrite sendMsg_unfold. cbv zeta.
  set (s1 := set_timeQ (evict t (_timeQ s)) s).
  set (s2 := match queued msg with
             | [] => s1
             | q => set_msgQ (_msgQ s1 ++ q) s1
             end).
  assert (H2 : timers s2 = timers s).
  { unfold s2. destruct (queued msg); reflexivity. }
  pose proof (drain_timers t (List.length (_msgQ s2)) s2) as H3.
  unfold after in H3.
  destruct (drain t (List.length (_msgQ s2)) s2) as [s3 [[]|e]];
    cbn [fst snd] in *; [|now rewrite H3].
  destruct (reschedule_spec s3) as [_ [_ [G3 [G4 G5]]]].
  destruct (snd (reschedule s3)) as [[]|e].
  - rewrite G3, G4, <- H2, <- H3. exact G5.
  - now rewrite G5, H3.
Qed.

(** C10 fails as stated: 252 requests within one instant leave two
    flushes pending for the same moment, five seconds on. *)
Lemma two_flushes_pending :
  let s' := run_sendMsg (burst 252 0 (B "x")) (open_session (new_client 1)) in
  timers s' = [fl (0 + 5); fl (0 + 5)]
  /\ len (wire s') = 250
  /\ _msgQ s' = [B "x"; B "x"].
Proof. vm_compute. repeat split. Qed.

(** ** The inbound loop always terminates *)

Lemma steady_ret {A : Type} (a : A) : steady (ret a).
Proof. intros s. split; [reflexivity | discriminate]. Qed.

Lemma steady_raise {A : Type} (e : exn) : e <> OutOfFuel -> steady (@raise A e).
Proof. intros He s. split; [reflexivity | intros [= H]; now apply He]. Qed.

Lemma steady_get : steady get.
Proof. intros s. split; [reflexivity | discriminate]. Qed.

Lemma steady_modify (f : Client -> Client) :
  (forall s, _data (f s) = _data s) -> steady (modify f).
Proof. intros Hf s. split; [apply Hf | discriminate]. Qed.

Lemma steady_bind {X Y : Type} (m : M X) (k : X -> M Y) :
  steady m -> (forall a, steady (k a)) -> steady (bind m k).
Proof.
  intros Hm Hk s. unfold bind. destruct (Hm s) as [H1 H2].
  destruct (m s) as [s' [a|e]]; cbn [fst snd] in *.
  - destruct (Hk a s') as [G1 G2]. split; [now rewrite G1 | exact G2].
  - split; [exact H1|]. intros [= ->]. now apply H2.
Qed.

Lemma bind_not_fuel {X Y : Type} (m : M X) (k : X -> M Y) (s : Client) :
  snd (m s) <> Raise OutOfFuel ->
  (forall a s', m s = (s', Ret a) -> snd (k a s') <> Raise OutOfFuel) ->
  snd (bind m k s) <> Raise OutOfFuel.
Proof.
  intros Hm Hk. unfold bind. destruct (m s) as [s' [a|e]]; cbn [snd] in *.
  - now apply Hk.
  - intros [= ->]. now apply Hm.
Qed.

Lemma steady_try (m h : M unit) : steady m -> steady h -> steady (try_except m h).
Proof.
  intros Hm Hh s. unfold try_except. destruct (Hm s) as [H1 H2].
  destruct (m s) as [s' [a|e]]; cbn [fst snd] in *.
  - split; [exact H1 | discriminate].
  - destruct (Hh s') as [G1 G2]. split; [now rewrite G1 | exact G2].
Qed.

Lemma steady_when (b : bool) (m : M unit) : steady m -> steady (when b m).
Proof. intros Hm. destruct b; [exact Hm | apply steady_ret]. Qed.

Lemma steady_of_option {A : Type} (e : exn) (o : option A) :
  e <> OutOfFuel -> steady (of_option e o).
Proof.
  intros He. destruct o; [apply steady_ret | now apply steady_raise].
Qed.

Lemma steady_log (ev : event) : steady (log ev).
Proof. apply steady_modify. reflexivity. Qed.

Lemma steady_assert (b : bool) (msg : string) : steady (assert b msg).
Proof.
  destruct b; [apply steady_ret | apply steady_raise; discriminate].
Qed.

Create HintDb steady.
#[local] Hint Resolve steady_ret steady_get steady_log steady_when steady_try
  steady_assert : steady.

(** Decompose a method along its binds and branches. *)
Ltac steady_step :=
  match goal with
  | |- steady (bind _ _) => apply steady_bind; [|intros ?]
  | |- steady (modify _) => apply steady_modify; reflexivity
  | |- steady (raise _) => apply steady_raise; discriminate
  | |- steady (of_option _ _) => apply steady_of_option; discriminate
  | |- steady (when _ _) => apply steady_when
  | |- steady (try_except _ _) => apply steady_try
  | |- steady (if ?c then _ else _) => destruct c
  | |- steady (match ?x with _ => _ end) => destruct x
  | |- steady _ => solve [auto with steady]
  end.

Lemma steady_conn_sendMsg (t : Q) (msg : bytes) : steady (conn_sendMsg t msg).
Proof. unfold conn_sendMsg. repeat steady_step. Qed.

Lemma steady_drain (t : Q) (n : nat) : steady (drain t n).
Proof.
  induction n as [|n IH]; cbn [drain]; [apply steady_ret|].
  pose proof (steady_conn_sendMsg t) as Hc.
  repeat steady_step; auto.
Qed.

Lemma steady_reschedule : steady reschedule.
Proof. unfold reschedule. repeat steady_step. Qed.

Lemma steady_sendMsg (t : Q) (msg : option bytes) : steady (sendMsg t msg).
Proof.
  unfold sendMsg. pose proof (steady_drain t) as Hd.
  pose proof steady_reschedule as Hr. repeat steady_step; auto.
Qed.

Section Termination.

Variable raises : list event -> event -> bool.
Variable float_ok : bytes -> bool.

Lemma steady_call (ev : event) : steady (call raises ev).
Proof.
  intros s. unfold call. destruct (raises (trace s) ev);
    (split; [reflexivity | discriminate]).
Qed.

Lemma steady_int (b : bytes) : steady (int_ b).
Proof. unfold int_. steady_step. Qed.

Lemma steady_py_float (b : bytes) : steady (py_float float_ok b).
Proof. unfold py_float. repeat steady_step. Qed.

Lemma steady_decode (fields : list bytes) : steady (_decode raises float_ok fields).
Proof.
  unfold _decode.
  pose proof steady_call as Hc. pose proof steady_int as Hi.
  pose proof steady_py_float as Hf.
  repeat steady_step; auto.
Qed.

Lemma steady_startApi (t : Q) : steady (startApi raises t).
Proof.
  unfold startApi. pose proof steady_call as Hc.
  pose proof (steady_sendMsg t) as Hs. repeat steady_step; auto.
Qed.

Lemma steady_handle_frame (t : Q) (fields : list bytes) :
  steady (handle_frame raises float_ok t fields).
Proof.
  unfold handle_frame.
  pose proof steady_call as Hc. pose proof steady_int as Hi.
  pose proof (steady_startApi t) as Hs.
  pose proof (steady_decode fields) as Hd.
  repeat steady_step; auto.
Qed.

(** With fuel beyond the length of the buffer the loop ends by itself:
    it returns, or it raises what the handling of a frame raised. *)
Lemma hasData_loop_terminates (t : Q) (fuel : nat) :
  forall s, (List.length (_data s) < fuel)%nat ->
  result (hasData_loop raises float_ok t fuel) s <> Raise OutOfFuel.
Proof.
  induction fuel as [|fuel IH]; intros s Hf; [lia|].
  unfold result. cbn [hasData_loop]. unfold bind at 1, get.
  destruct (next_frame (_data s)) as [[[fields d']|]|e] eqn:E.
  - pose proof (next_frame_shrinks _ _ _ E) as Hs.
    unfold bind, modify.
    destruct (steady_handle_frame t fields (set_data d' s)) as [H1 H2].
    destruct (handle_frame raises float_ok t fields (set_data d' s))
      as [s1 [[]|e]]; cbn [fst snd] in *; [|exact H2].
    apply IH. rewrite H1. cbn [_data set_data]. lia.
  - discriminate.
  - exfalso. exact (next_frame_no_raise _ _ E).
Qed.

(** [_onSocketHasData] never runs out of the fuel it gives its loop. *)
Lemma onSocketHasData_terminates (t : Q) (data : bytes) (s : Client) :
  result (_onSocketHasData raises float_ok t data) s <> Raise OutOfFuel.
Proof.
  unfold result, _onSocketHasData.
  apply bind_not_fuel; [discriminate|]. intros a s1 E. injection E as <- <-.
  apply bind_not_fuel;
    [exact (proj2 (steady_when _ _ (steady_call _) _))|]. intros [] s2 _.
  apply bind_not_fuel; [discriminate|]. intros [] s3 _.
  apply bind_not_fuel; [discriminate|]. intros [] s4 _.
  apply bind_not_fuel; [discriminate|]. intros a s5 E. injection E as <- <-.
  apply bind_not_fuel;
    [apply (hasData_loop_terminates t _ s4); lia|]. intros [] s6 _.
  exact (proj2 (steady_when _ _ (steady_call _) _)).
Qed.

End Termination.

(** ** Sanity checks of the Python primitives *)

Example split_ex :
  split NUL (B "9" ++ [NUL] ++ B "1" ++ [NUL]) = [B "9"; B "1"; []]
  /\ split NUL [] = [[]]
  /\ split COMMA (B "DU1234,DU5678") = [B "DU1234"; B "DU5678"].
Proof. repeat split. Qed.

Example py_int_ex :
  py_int (B " -1_000 ") = Some (-1000) /\ py_int (B "1__0") = None
  /\ py_int (B "") = None /\ py_int (B "17") = Some 17
  /\ py_int (B "_1") = None /\ py_int (B "+ 1") = None
  /\ py_int (B "0x10") = None /\ py_int (B "007") = Some 7.
Proof. repeat split. Qed.

Example py_str_int_ex :
  py_str_int 0 = B "0" /\ py_str_int (-12) = B "-12" /\ py_str_int 71 = B "71".
Proof. repeat split. Qed.

Example pack_ex :
  pack_I 258 = Some [x00; x00; x01; x02]
  /\ unpack_I [x00; x00; x01; x02] = Some 258
  /\ pack_I (2 ^ 32) = None /\ pack_I (-1) = None.
Proof. repeat split. Qed.

Example utf8_ex :
  utf8_valid (B "DU1234") = true
  /\ utf8_valid [xc3; xa9] = true
  /\ utf8_valid [xc3] = false
  /\ utf8_valid [xff] = false
  /\ utf8_valid [xed; xa0; x80] = false
  /\ utf8_valid [xc0; x80] = false.
Proof. repeat split. Qed.

Example encode_ex :
  _encode [FInt 71; FInt 2; FInt 1; FStr []]
  = B "71" ++ [NUL] ++ B "2" ++ [NUL] ++ B "1" ++ [NUL] ++ [NUL]
  /\ _encode [FInt UNSET_INTEGER; FNone; FBool true] = [NUL; NUL; "1"%byte; NUL]
  /\ _encode [FTagValues [mkTagValue (B "a") (B "b"); mkTagValue (B "c") (B "d")]]
     = B "a=b;c=d;" ++ [NUL]
  /\ _encode [] = [].
Proof. repeat split. Qed.

(** * Further properties of the code *)

(** ** What a method keeps *)

Lemma keeps_ret (P : Client -> Prop) {A : Type} (a : A) : keeps P (ret a).
Proof. intros s H. exact H. Qed.

Lemma keeps_raise (P : Client -> Prop) {A : Type} (e : exn) :
  keeps P (@raise A e).
Proof. intros s H. exact H. Qed.

Lemma keeps_get (P : Client -> Prop) : keeps P get.
Proof. intros s H. exact H. Qed.

Lemma keeps_modify (P : Client -> Prop) (f : Client -> Client) :
  (forall s, P s -> P (f s)) -> keeps P (modify f).
Proof. intros Hf s H. now apply Hf. Qed.

Lemma keeps_bind (P : Client -> Prop) {X Y : Type} (m : M X) (k : X -> M Y) :
  keeps P m -> (forall a, keeps P (k a)) -> keeps P (bind m k).
Proof.
  intros Hm Hk s H. unfold bind. specialize (Hm s H).
  destruct (m s) as [s' [a|e]]; cbn [fst] in *; [now apply Hk | exact Hm].
Qed.

Lemma keeps_try (P : Client -> Prop) (m h : M unit) :
  keeps P m -> keeps P h -> keeps P (try_except m h).
Proof.
  intros Hm Hh s H. unfold try_except. specialize (Hm s H).
  destruct (m s) as [s' [a|e]]; cbn [fst] in *; [exact Hm | now apply Hh].
Qed.

Lemma keeps_when (P : Client -> Prop) (b : bool) (m : M unit) :
  keeps P m -> keeps P (when b m).
Proof. intros Hm. destruct b; [exact Hm | apply keeps_ret]. Qed.

Lemma keeps_of_option (P : Client -> Prop) {A : Type} (e : exn) (o : option A) :
  keeps P (of_option e o).
Proof. destruct o; [apply keeps_ret | apply keeps_raise]. Qed.

Lemma keeps_assert (P : Client -> Prop) (b : bool) (msg : string) :
  keeps P (assert b msg).
Proof. destruct b; [apply keeps_ret | apply keeps_raise]. Qed.

(** Decompose a method along its binds and branches; what remains are
    the state updates, to be checked against [P] one by one. *)
Ltac keeps_step :=
  match goal with
  | |- keeps _ (bind _ _) => apply keeps_bind; [|intros ?]
  | |- keeps _ (ret _) => apply keeps_ret
  | |- keeps _ (raise _) => apply keeps_raise
  | |- keeps _ get => apply keeps_get
  | |- keeps _ (of_option _ _) => apply keeps_of_option
  | |- keeps _ (assert _ _) => apply keeps_assert
  | |- keeps _ (when _ _) => apply keeps_when
  | |- keeps _ (try_except _ _) => apply keeps_try
  | |- keeps _ (log _) => unfold log
  | |- keeps _ (modify _) =>
      apply keeps_modify; let s := fresh "s" in let H := fresh "H" in
      intros s H; first [exact H | reflexivity | cbn in *; tauto]
  | |- keeps _ (if ?c then _ else _) => destruct c
  | |- keeps _ (match ?x with _ => _ end) => destruct x
  | |- keeps _ _ => assumption
  end.

Section KeepsSend.

Variable P : Client -> Prop.

(** [P] is blind to everything the sending side writes. *)
Hypothesis P_send : forall s s',
  connState s' = connState s -> serverVersion_ s' = serverVersion_ s ->
  connTime s' = connTime s -> _data s' = _data s ->
  _readyEvent s' = _readyEvent s -> _reqIdSeq s' = _reqIdSeq s ->
  _accounts s' = _accounts s -> _numBytesRecv s' = _numBytesRecv s ->
  _numMsgRecv s' = _numMsgRecv s -> debug s' = debug s ->
  P s -> P s'.

Lemma keeps_send_modify (f : Client -> Client) :
  (forall s, connState (f s) = connState s
             /\ serverVersion_ (f s) = serverVersion_ s
             /\ connTime (f s) = connTime s /\ _data (f s) = _data s
             /\ _readyEvent (f s) = _readyEvent s
             /\ _reqIdSeq (f s) = _reqIdSeq s
             /\ _accounts (f s) = _accounts s
             /\ _numBytesRecv (f s) = _numBytesRecv s
             /\ _numMsgRecv (f s) = _numMsgRecv s
             /\ debug (f s) = debug s) ->
  keeps P (modify f).
Proof.
  intros Hf. apply keeps_modify. intros s H.
  destruct (Hf s) as [H1 [H2 [H3 [H4 [H5 [H6 [H7 [H8 [H9 H10]]]]]]]]].
  exact (P_send s (f s) H1 H2 H3 H4 H5 H6 H7 H8 H9 H10 H).
Qed.

Ltac send_step :=
  match goal with
  | |- keeps _ (modify _) =>
      apply keeps_send_modify; intros ?; repeat split
  | |- keeps _ (log _) => unfold log
  | _ => keeps_step
  end.

Lemma keeps_conn_sendMsg (t : Q) (msg : bytes) : keeps P (conn_sendMsg t msg).
Proof. unfold conn_sendMsg. repeat send_step. Qed.

Lemma keeps_drain (t : Q) (n : nat) : keeps P (drain t n).
Proof.
  induction n as [|n IH]; cbn [drain]; [apply keeps_ret|].
  pose proof (keeps_conn_sendMsg t) as Hc. repeat send_step; auto.
Qed.

Lemma keeps_reschedule : keeps P reschedule.
Proof. unfold reschedule. repeat send_step. Qed.

Lemma keeps_sendMsg (t : Q) (msg : option bytes) : keeps P (sendMsg t msg).
Proof.
  unfold sendMsg. pose proof (keeps_drain t) as Hd.
  pose proof keeps_reschedule as Hr. repeat send_step; auto.
Qed.

End KeepsSend.

(** ** More about the throttle *)

(** X1: a call of [sendMsg] changes nothing on the receiving side: the
    connection state, the negotiated version and time, the inbound
    buffer, the readiness flag, the request-id counter, the account list
    and the receive counters are as before, whether the call returned or
    raised. *)
Theorem sendMsg_leaves_inbound_side (t : Q) (msg : option bytes) (s : Client) :
  let s' := after (sendMsg t msg) s in
  connState s' = connState s /\ serverVersion_ s' = serverVersion_ s
  /\ connTime s' = connTime s /\ _data s' = _data s
  /\ _readyEvent s' = _readyEvent s /\ _reqIdSeq s' = _reqIdSeq s
  /\ _accounts s' = _accounts s /\ _numBytesRecv s' = _numBytesRecv s
  /\ _numMsgRecv s' = _numMsgRecv s.
Proof.
  apply (keeps_sendMsg
           (fun x => connState x = connState s
                     /\ serverVersion_ x = serverVersion_ s
                     /\ connTime x = connTime s /\ _data x = _data s
                     /\ _readyEvent x = _readyEvent s
                     /\ _reqIdSeq x = _reqIdSeq s
                     /\ _accounts x = _accounts s
                     /\ _numBytesRecv x = _numBytesRecv s
                     /\ _numMsgRecv x = _numMsgRecv s)).
  - intros a b H1 H2 H3 H4 H5 H6 H7 H8 H9 _.
    rewrite H1, H2, H3, H4, H5, H6, H7, H8, H9. exact (fun H => H).
  - repeat split.
Qed.

Lemma drain_footprint (t : Q) (n : nat) :
  forall s,
  let s' := fst (drain t n s) in
  timers s' = timers s /\ trace s' = trace s
  /\ _isThrottling s' = _isThrottling s
  /\ exists more, wire s' = wire s ++ more.
Proof.
  induction n as [|n IH]; intros s.
  { cbn. repeat split. exists []. now rewrite app_nil_r. }
  cbv zeta. rewrite drain_step.
  assert (Hsame : timers s = timers s /\ trace s = trace s
                  /\ _isThrottling s = _isThrottling s
                  /\ exists more, wire s = wire s ++ more).
  { repeat split. exists []. now rewrite app_nil_r. }
  destruct (_msgQ s) as [|msg rest]; [exact Hsame|].
  destruct (len (_timeQ s) <? MaxRequests); [|exact Hsame].
  destruct (conn s) as [c|]; [|exact Hsame].
  destruct (_prefix msg) as [frame|]; [|exact Hsame].
  destruct (socket c); [|exact Hsame].
  match goal with
  | |- context [drain t n ?st] => destruct (IH st) as [H1 [H2 [H3 [more H4]]]]
  end.
  rewrite H1, H2, H3, H4. cbn [timers trace _isThrottling wire set_timeQ
                                set_conn set_wire set_msgQ].
  repeat split. exists ((t, frame) :: more). now rewrite <- app_assoc.
Qed.

(** The loop of [sendMsg] stops only with the queue empty or the window
    full. *)
Lemma drain_exit (t : Q) (n : nat) :
  forall s, (List.length (_msgQ s) <= n)%nat ->
  snd (drain t n s) = Ret tt ->
  _msgQ (fst (drain t n s)) = []
  \/ MaxRequests <= len (_timeQ (fst (drain t n s))).
Proof.
  induction n as [|n IH]; intros s Hn.
  { cbn. intros _. left. destruct (_msgQ s); [reflexivity | cbn in Hn; lia]. }
  rewrite drain_step.
  destruct (_msgQ s) as [|msg rest] eqn:Eq; [intros _; now left|].
  destruct (Z.ltb_spec (len (_timeQ s)) MaxRequests) as [Hlt|Hge];
    [|intros _; now right].
  destruct (conn s) as [c|]; [|discriminate].
  destruct (_prefix msg) as [frame|]; [|discriminate].
  destruct (socket c); [|discriminate].
  apply IH. cbn [_msgQ set_timeQ set_conn set_wire set_msgQ].
  cbn [List.length] in Hn. lia.
Qed.

Lemma reschedule_flag (s : Client) :
  snd (reschedule s) = Ret tt ->
  let s' := fst (reschedule s) in
  _isThrottling s' = nonempty (_msgQ s)
  /\ trace s'
     = trace s
       ++ (if _isThrottling s
           then if nonempty (_msgQ s) then []
                else [LogWarn "Stopped to throttle requests"]
           else if nonempty (_msgQ s)
                then [LogWarn "Started to throttle requests"]
                else []).
Proof.
  unfold reschedule, when, bind, get, modify, log, of_option, ret, raise.
  destruct s as [cs sv ct cid oc cn p1 p2 p3 dbg dat rdy rq acc st nb nm thr
                   mq tq wr tm tr].
  cbn. destruct mq as [|m mq]; destruct thr; cbn;
    try (intros _; split; [reflexivity | now rewrite ?app_nil_r]);
    destruct tq as [|t0 tq]; cbn; try discriminate;
    intros _; split; try reflexivity; now rewrite ?app_nil_r.
Qed.

(** X2: a call of [sendMsg] that returns holds a message back only when
    the window is full: afterwards the queue is empty or [_timeQ] has
    [MaxRequests] entries or more. *)
Theorem sendMsg_work_conserving (t : Q) (msg : option bytes) (s : Client) :
  result (sendMsg t msg) s = Ret tt ->
  let s' := after (sendMsg t msg) s in
  _msgQ s' = [] \/ MaxRequests <= len (_timeQ s').
Proof.
  unfold result, after. rewrite sendMsg_unfold. cbv zeta.
  set (s2 := match queued msg with
             | [] => set_timeQ (evict t (_timeQ s)) s
             | q => set_msgQ (_msgQ (set_timeQ (evict t (_timeQ s)) s) ++ q)
                      (set_timeQ (evict t (_timeQ s)) s)
             end).
  pose proof (drain_exit t (List.length (_msgQ s2)) s2 (Nat.le_refl _)) as Hd.
  destruct (drain t (List.length (_msgQ s2)) s2) as [s3 [[]|e]];
    cbn [fst snd] in *; [|discriminate].
  intros _. destruct (reschedule_spec s3) as [_ [_ [G3 [G4 _]]]].
  rewrite G3, G4. now apply Hd.
Qed.

Lemma sendMsg_work_conserving_witness :
  let s' := after (sendMsg 0 (Some (B "x"))) (open_session (new_client 1)) in
  _msgQ s' = [] \/ MaxRequests <= len (_timeQ s').
Proof.
  apply (sendMsg_work_conserving 0 (Some (B "x"))
           (open_session (new_client 1))).
  vm_compute. reflexivity.
Defined.

(** X3: after a call of [sendMsg] that returns, the throttling flag says
    exactly whether messages are queued, and a warning is logged only
    when the flag changed: 'Started to throttle requests' when it went
    up, 'Stopped to throttle requests' when it went down, nothing
    otherwise. *)
Theorem throttling_flag_tracks_queue (t : Q) (msg : option bytes) (s : Client) :
  result (sendMsg t msg) s = Ret tt ->
  let s' := after (sendMsg t msg) s in
  _isThrottling s' = nonempty (_msgQ s')
  /\ trace s'
     = trace s
       ++ (if _isThrottling s
           then if _isThrottling s' then []
                else [LogWarn "Stopped to throttle requests"]
           else if _isThrottling s'
                then [LogWarn "Started to throttle requests"]
                else []).
Proof.
  unfold result, after. rewrite sendMsg_unfold. cbv zeta.
  set (s2 := match queued msg with
             | [] => set_timeQ (evict t (_timeQ s)) s
             | q => set_msgQ (_msgQ (set_timeQ (evict t (_timeQ s)) s) ++ q)
                      (set_timeQ (evict t (_timeQ s)) s)
             end).
  assert (H2 : trace s2 = trace s /\ _isThrottling s2 = _isThrottling s).
  { unfold s2. destruct (queued msg); split; reflexivity. }
  destruct H2 as [T2 F2].
  destruct (drain_footprint t (List.length (_msgQ s2)) s2) as [_ [T3 [F3 _]]].
  destruct (drain t (List.length (_msgQ s2)) s2) as [s3 [[]|e]];
    cbn [fst snd] in *; [|discriminate].
  intros Hr. destruct (reschedule_flag s3 Hr) as [Hf Ht].
  destruct (reschedule_spec s3) as [_ [_ [_ [G4 _]]]].
  rewrite G4, Hf, Ht, T3, T2, F3, F2. split; [reflexivity|].
  destruct (_isThrottling s), (nonempty (_msgQ s3)); reflexivity.
Qed.

Lemma throttling_flag_tracks_queue_witness :
  let s := open_session (new_client 1) in
  let s' := after (sendMsg 0 (Some (B "x"))) s in
  _isThrottling s' = nonempty (_msgQ s')
  /\ trace s'
     = trace s
       ++ (if _isThrottling s
           then if _isThrottling s' then []
                else [LogWarn "Stopped to throttle requests"]
           else if _isThrottling s'
                then [LogWarn "Started to throttle requests"]
                else []).
Proof.
  apply (throttling_flag_tracks_queue 0 (Some (B "x"))
           (open_session (new_client 1))).
  vm_compute. reflexivity.
Defined.

Lemma evict_keeps_head (t t0 : Q) (rest : list Q) :
  (t <= t0 + RequestsInterval)%Q -> evict t (t0 :: rest) = t0 :: rest.
Proof.
  intros H. rewrite evict_cons.
  assert (E : Qle_bool (fl (t - t0)) RequestsInterval = true)
    by (apply Qle_bool_iff, fl_interval; lra).
  now rewrite E.
Qed.


(** Where the rounding shows: this flush runs later than the oldest send
    time plus the interval, by [2^-52], but the difference rounds to the
    interval itself and nothing leaves the window. *)
Example evict_measures_in_floats :
  let t0 := (3 # 2 ^ 52)%Q in
  let t := (5 + (1 # 2 ^ 50))%Q in
  (t0 + RequestsInterval < t)%Q /\ fl (t - t0) == RequestsInterval
  /\ evict t [t0] = [t0].
Proof. vm_compute. repeat split; intros; discriminate. Qed.

(** X4: a flush that runs no later than the oldest send time plus the
    interval, the moment it was scheduled for up to the rounding of that
    sum, finds the oldest entry still in the window, because eviction
    asks for strictly more than the interval.  With the window full it
    writes nothing, leaves the queue as it is, and schedules one more
    flush for the same moment. *)
Theorem flush_on_time_sends_nothing (t t0 : Q) (rest : list Q) (s : Client) :
  _timeQ s = t0 :: rest ->
  (t <= t0 + RequestsInterval)%Q ->
  MaxRequests <= len (_timeQ s) ->
  _msgQ s <> [] ->
  let s' := after (sendMsg t None) s in
  result (sendMsg t None) s = Ret tt
  /\ wire s' = wire s /\ _msgQ s' = _msgQ s /\ _timeQ s' = _timeQ s
  /\ timers s' = timers s ++ [fl (t0 + RequestsInterval)].
Proof.
  intros Ht Hle Hfull Hq.
  destruct s as [cs sv ct cid oc cn p1 p2 p3 dbg dat rdy rq acc st nb nm thr
                   mq tq wr tm tr].
  cbn in Ht, Hfull, Hq. subst tq.
  destruct mq as [|m mq]; [contradiction|].
  unfold after, result. rewrite sendMsg_unfold. cbv zeta.
  cbn [queued _timeQ _msgQ set_timeQ].
  rewrite (evict_keeps_head t t0 rest Hle).
  assert (E : (len (t0 :: rest) <? MaxRequests) = false)
    by (apply Z.ltb_ge; lia).
  cbn [List.length]. rewrite drain_step.
  unfold reschedule, when, bind, get, modify, log, of_option, ret.
  cbn. rewrite E. cbn. destruct thr; cbn; repeat split.
Qed.

Lemma flush_on_time_sends_nothing_witness :
  let s := run_sendMsg (burst 251 0 (B "x")) (open_session (new_client 1)) in
  let s' := after (sendMsg 5 None) s in
  result (sendMsg 5 None) s = Ret tt
  /\ wire s' = wire s /\ _msgQ s' = _msgQ s /\ _timeQ s' = _timeQ s
  /\ timers s' = timers s ++ [fl (0 + RequestsInterval)].
Proof.
  apply (flush_on_time_sends_nothing 5 0 (repeat 0%Q 249)
           (run_sendMsg (burst 251 0 (B "x")) (open_session (new_client 1)))).
  - vm_compute. reflexivity.
  - vm_compute. discriminate.
  - vm_compute. discriminate.
  - vm_compute. discriminate.
Defined.

Local Arguments reschedule : simpl never.



(** X6: when the message at the head of the queue cannot go out, because
    it is too long for the four-byte prefix or because the socket is
    down, [sendMsg] raises ([struct.error], [AttributeError]) after it
    has taken the message off the queue: the message is lost, nothing is
    written, the messages behind it stay queued, and no flush is
    scheduled for them. *)
Theorem failed_send_drops_head (t : Q) (msg : option bytes) (m : bytes)
    (rest : list bytes) (s : Client) :
  _msgQ s ++ queued msg = m :: rest ->
  len (evict t (_timeQ s)) < MaxRequests ->
  _prefix m = None
  \/ conn s = None
  \/ (exists c, conn s = Some c /\ socket c = false) ->
  let s' := after (sendMsg t msg) s in
  (exists e, result (sendMsg t msg) s = Raise e
             /\ (e = StructError \/ e = AttributeError))
  /\ _msgQ s' = rest /\ wire s' = wire s /\ timers s' = timers s.
Proof.
  intros Hq Hroom Hfail. apply Z.ltb_lt in Hroom.
  unfold after, result. rewrite sendMsg_unfold. cbv zeta.
  set (s1 := set_timeQ (evict t (_timeQ s)) s).
  set (s2 := match queued msg with
             | [] => s1
             | q => set_msgQ (_msgQ s1 ++ q) s1
             end).
  assert (H2 : _msgQ s2 = m :: rest /\ _timeQ s2 = evict t (_timeQ s)
               /\ conn s2 = conn s /\ wire s2 = wire s
               /\ timers s2 = timers s).
  { unfold s2, s1. destruct (queued msg) as [|x q].
    - rewrite app_nil_r in Hq. cbn. now rewrite Hq.
    - cbn. now rewrite Hq. }
  destruct H2 as [Q2 [T2 [C2 [W2 M2]]]].
  rewrite Q2. cbn [List.length]. rewrite drain_step, Q2, T2, Hroom, C2.
  destruct (conn s) as [c|] eqn:Ec.
  - destruct (_prefix m) as [frame|] eqn:Ep.
    + destruct Hfail as [Hf|[Hf|[c' [Hc Hs]]]]; [discriminate..|].
      injection Hc as <-. rewrite Hs.
      cbn [fst snd _msgQ wire timers set_msgQ].
      rewrite W2, M2. split; [exists AttributeError; auto | auto].
    + cbn [fst snd _msgQ wire timers set_msgQ].
      rewrite W2, M2. split; [exists StructError; auto | auto].
  - cbn [fst snd _msgQ wire timers set_msgQ].
    rewrite W2, M2. split; [exists AttributeError; auto | auto].
Qed.

Lemma failed_send_drops_head_witness :
  let s' := after (sendMsg 0 (Some (B "x"))) (new_client 1) in
  (exists e, result (sendMsg 0 (Some (B "x"))) (new_client 1) = Raise e
             /\ (e = StructError \/ e = AttributeError))
  /\ _msgQ s' = [] /\ wire s' = wire (new_client 1)
  /\ timers s' = timers (new_client 1).
Proof.
  apply (failed_send_drops_head 0 (Some (B "x")) (B "x") [] (new_client 1)).
  - reflexivity.
  - reflexivity.
  - right. left. reflexivity.
Defined.

(** X7: a flush timer that fires after a reset finds both queues empty:
    it returns without writing, scheduling or logging anything and
    leaves the reset state exactly as it is. *)
Theorem stale_flush_after_reset (t now : Q) (s : Client) :
  sendMsg t None (reset now s) = (reset now s, Ret tt).
Proof. reflexivity. Qed.

(** After a reset, whatever came before, the session is not ready,
    each guarded accessor raises 'Not connected', and nothing queued or
    buffered is left; a second reset at the same time changes nothing. *)
Theorem reset_clears_session (now now' : Q) (s : Client) :
  let s' := reset now s in
  isReady s' = false
  /\ result getReqId s' = Raise (AssertionError "Not connected")
  /\ result getAccounts s' = Raise (AssertionError "Not connected")
  /\ result (connectionStats now') s' = Raise (AssertionError "Not connected")
  /\ _msgQ s' = [] /\ _timeQ s' = [] /\ _data s' = []
  /\ connState s' = DISCONNECTED /\ conn s' = None
  /\ reset now s' = s'.
Proof. repeat split. Qed.

Lemma total_len_app (a b : list (Q * bytes)) :
  total_len (a ++ b) = total_len a + total_len b.
Proof.
  induction a as [|e a IH]; [reflexivity|].
  cbn [app total_len fold_right] in *. fold (total_len (a ++ b)).
  fold (total_len a). rewrite IH. lia.
Qed.

Lemma drain_counts (t : Q) (c0 : Connection) (w0 : list (Q * bytes)) (n : nat) :
  forall s, counts_from c0 w0 s -> counts_from c0 w0 (fst (drain t n s)).
Proof.
  induction n as [|n IH]; intros s H; [exact H|].
  rewrite drain_step. pose proof H as H0.
  destruct H as [c [new [Hc [Hs [Hw [Hm Hb]]]]]].
  destruct (_msgQ s) as [|msg rest]; [exact H0|].
  destruct (len (_timeQ s) <? MaxRequests); [|exact H0].
  rewrite Hc. destruct (_prefix msg) as [frame|].
  - rewrite Hs. apply IH.
    exists (mkConnection true (numBytesSent c + len frame) (numMsgSent c + 1)),
      (new ++ [(t, frame)]).
    cbn [conn wire set_timeQ set_conn set_wire set_msgQ socket numMsgSent
           numBytesSent].
    rewrite Hw, len_app, total_len_app, <- app_assoc.
    repeat split; [rewrite Hm | rewrite Hb; cbn [total_len fold_right snd]];
      change (len [(t, frame)]) with 1; lia.
  - cbn [fst]. exists c, new. cbn [conn wire set_msgQ]. auto.
Qed.

Lemma sendMsg_counts (t : Q) (msg : option bytes) (c0 : Connection)
    (w0 : list (Q * bytes)) (s : Client) :
  counts_from c0 w0 s -> counts_from c0 w0 (after (sendMsg t msg) s).
Proof.
  intros H. unfold after. rewrite sendMsg_unfold. cbv zeta.
  set (s2 := match queued msg with
             | [] => set_timeQ (evict t (_timeQ s)) s
             | q => set_msgQ (_msgQ (set_timeQ (evict t (_timeQ s)) s) ++ q)
                      (set_timeQ (evict t (_timeQ s)) s)
             end).
  assert (H2 : counts_from c0 w0 s2).
  { unfold s2. destruct (queued msg); exact H. }
  pose proof (drain_counts t c0 w0 (List.length (_msgQ s2)) s2 H2) as H3.
  destruct (drain t (List.length (_msgQ s2)) s2) as [s3 [[]|e]];
    cbn [fst] in *; [|exact H3].
  destruct (reschedule_spec s3) as [G1 [G2 _]].
  destruct H3 as [c [new H3]]. exists c, new. now rewrite G1, G2.
Qed.

Lemma run_sendMsg_counts (calls : list (Q * option bytes)) (c0 : Connection)
    (w0 : list (Q * bytes)) :
  forall s, counts_from c0 w0 s -> counts_from c0 w0 (run_sendMsg calls s).
Proof.
  induction calls as [|[t msg] calls IH]; intros s H; [exact H|].
  unfold run_sendMsg. cbn [fold_left fst snd].
  apply IH. now apply sendMsg_counts.
Qed.

(** X8: over any run of [sendMsg] calls on a session whose socket is up,
    the send counters that [connectionStats] reports grow by exactly what
    the run wrote to the transport: one message per frame and the frames'
    bytes, prefixes included. *)
Theorem send_counters_match_transport (calls : list (Q * option bytes))
    (c0 : Connection) (s : Client) :
  conn s = Some c0 -> socket c0 = true ->
  exists c new,
    conn (run_sendMsg calls s) = Some c
    /\ wire (run_sendMsg calls s) = wire s ++ new
    /\ numMsgSent c = numMsgSent c0 + len new
    /\ numBytesSent c = numBytesSent c0 + total_len new.
Proof.
  intros Hc Hs.
  assert (H0 : counts_from c0 (wire s) s).
  { exists c0, []. rewrite app_nil_r.
    repeat split; auto; unfold len, total_len; cbn; lia. }
  destruct (run_sendMsg_counts calls c0 (wire s) s H0)
    as [c [new [H1 [_ [H2 [H3 H4]]]]]].
  eauto 10.
Qed.

Lemma send_counters_match_transport_witness :
  exists c new,
    conn (run_sendMsg (burst 3 0 (B "x")) (open_session (new_client 1)))
    = Some c
    /\ wire (run_sendMsg (burst 3 0 (B "x")) (open_session (new_client 1)))
       = wire (open_session (new_client 1)) ++ new
    /\ numMsgSent c = numMsgSent (mkConnection true 0 0) + len new
    /\ numBytesSent c = numBytesSent (mkConnection true 0 0) + total_len new.
Proof.
  exact (send_counters_match_transport (burst 3 0 (B "x"))
           (mkConnection true 0 0) (open_session (new_client 1))
           eq_refl eq_refl).
Defined.

(** ** Dispatch *)

Section Dispatch.

Variable raises : list event -> event -> bool.
Variable float_ok : bytes -> bool.

Ltac unfold_decode_m :=
  unfold _decode, int_, py_float, call, log, when, bind, get, modify, ret,
    raise, of_option.

(** X9: a frame that [_decode] cannot take apart has no effect at all.
    When [_decode] raises anything but the exception of a callback (an
    empty field list, a kind or a number that does not read as one, the
    wrong number of fields, bytes that are not UTF-8), the state is
    exactly as before: no callback ran, the interpreter saw nothing, and
    neither the counter nor the account list nor the readiness flag
    moved. *)
Theorem decode_failure_is_atomic (fields : list bytes) (s s' : Client)
    (e : exn) :
  _decode raises float_ok fields s = (s', Raise e) ->
  e <> CallbackError ->
  s' = s.
Proof.
  unfold_decode_m. crunch;
    intros H Hne; inversion H; subst; try reflexivity; congruence.
Qed.

(** X10: [_decode] writes the request-id counter, the account list, the
    readiness flag and the record of external calls, and nothing else:
    whatever the frame and whether it returns or raises, every other
    attribute of the client, the queues and the transport log included,
    is as before. *)
Theorem decode_footprint (fields : list bytes) (s : Client) :
  let s' := after (_decode raises float_ok fields) s in
  s' = set_trace (trace s')
         (set_readyEvent (_readyEvent s')
            (set_accounts (_accounts s') (set_reqIdSeq (_reqIdSeq s') s))).
Proof.
  destruct s as [cs sv ct cid oc cn p1 p2 p3 dbg dat rdy rq acc st nb nm thr
                   mq tq wr tm tr].
  unfold after. unfold_decode_m. crunch.
Qed.

(** X11: the fast path bypasses the interpreter and everything else
    reaches it verbatim.  Whatever the kind, [_decode] either fails
    before any external call, raising something other than a callback's
    exception and leaving the record of calls as it is, or makes exactly
    one external call and returns, or raises what that call raised.  For
    a kind that is fast-pathed the one call is never [decoder.interpret];
    for any other kind it is [decoder.interpret] with the unchanged field
    list. *)
Theorem fast_path_bypasses_interpreter (f0 : bytes) (rest : list bytes)
    (msgId : Z) (s : Client) :
  py_int f0 = Some msgId ->
  let s' := after (_decode raises float_ok (f0 :: rest)) s in
  let r := result (_decode raises float_ok (f0 :: rest)) s in
  (trace s' = trace s /\ exists e, r = Raise e /\ e <> CallbackError)
  \/ (exists ev,
        trace s' = trace s ++ [ev]
        /\ (r = Ret tt \/ r = Raise CallbackError)
        /\ if fast_pathed (priceSizeTick_set s) msgId
           then is_interpret ev = false
           else ev = Interpret (f0 :: rest)).
Proof.
  intros Hid.
  destruct s as [cs sv ct cid oc cn p1 p2 p3 dbg dat rdy rq acc st nb nm thr
                   mq tq wr tm tr].
  unfold after, result, fast_pathed. unfold_decode_m. cbn. rewrite Hid. clear Hid.
  repeat match goal with
         | |- context [?x =? ?k] =>
             is_var x; destruct (Z.eqb_spec x k) as [->|?]
         end;
    cbv [Z.eqb Pos.eqb orb andb];
    crunch; cbn;
    try (left; split; [reflexivity|]; eexists; split;
         [reflexivity | discriminate]);
    try (exfalso; congruence);
    right; eexists; (split; [reflexivity|]); (split; [auto|]);
    reflexivity.
Qed.

End Dispatch.

Lemma decode_failure_is_atomic_witness :
  after (_decode quiet no_float [B "2"; B "6"; B "1"]) negotiated_client
  = negotiated_client.
Proof.
  exact (decode_failure_is_atomic quiet no_float [B "2"; B "6"; B "1"]
           negotiated_client
           (after (_decode quiet no_float [B "2"; B "6"; B "1"])
              negotiated_client)
           ValueError eq_refl ltac:(discriminate)).
Defined.

Lemma fast_path_bypasses_interpreter_witness :
  let s := negotiated_client in
  let fields := [B "2"; B "6"; B "1"; B "0"; B "100"] in
  let s' := after (_decode quiet no_float fields) s in
  let r := result (_decode quiet no_float fields) s in
  (trace s' = trace s /\ exists e, r = Raise e /\ e <> CallbackError)
  \/ (exists ev,
        trace s' = trace s ++ [ev]
        /\ (r = Ret tt \/ r = Raise CallbackError)
        /\ if fast_pathed (priceSizeTick_set s) 2
           then is_interpret ev = false
           else ev = Interpret fields).
Proof.
  exact (fast_path_bypasses_interpreter quiet no_float (B "2")
           [B "6"; B "1"; B "0"; B "100"] 2 negotiated_client eq_refl).
Defined.

(** ** More about the frame codec *)

Local Arguments split : simpl nomatch.

Lemma split_cons (c : byte) (s : bytes) :
  split NUL (c :: s)
  = if Byte.eqb c NUL then [] :: split NUL s
    else match split NUL s with
         | [] => [[c]]
         | f :: fs => (c :: f) :: fs
         end.
Proof. reflexivity. Qed.

Lemma split_pieces (body : bytes) :
  terminated (body_fields body) ++ body_tail body = body
  /\ forall t, In t (split NUL body) -> ~ In NUL t.
Proof.
  unfold body_fields, body_tail.
  induction body as [|c s [IH1 IH2]].
  - split; [reflexivity|]. intros t [<-|[]]. intros [].
  - rewrite split_cons. pose proof (split_not_nil NUL s) as Hne.
    destruct (Byte.eqb c NUL) eqn:E.
    + apply Byte.byte_dec_bl in E. subst c.
      destruct (split NUL s) as [|f fs] eqn:Es; [contradiction|]. split.
      * change (removelast ([] :: f :: fs)) with ([] :: removelast (f :: fs)).
        change (last ([] :: f :: fs) []) with (last (f :: fs) []).
        change (terminated ([] :: removelast (f :: fs)))
          with (NUL :: terminated (removelast (f :: fs))).
        cbn [app]. now rewrite IH1.
      * intros t [<-|Ht]; [intros [] | now apply IH2].
    + destruct (split NUL s) as [|f fs] eqn:Es; [contradiction|]. split.
      * destruct fs as [|g fs].
        { cbn in IH1. cbn. now rewrite IH1. }
        change (removelast ((c :: f) :: g :: fs))
          with ((c :: f) :: removelast (g :: fs)).
        change (last ((c :: f) :: g :: fs) []) with (last (g :: fs) []).
        change (removelast (f :: g :: fs)) with (f :: removelast (g :: fs))
          in IH1.
        change (last (f :: g :: fs) []) with (last (g :: fs) []) in IH1.
        change (terminated ((c :: f) :: removelast (g :: fs)))
          with (c :: (f ++ [NUL]) ++ terminated (removelast (g :: fs))).
        change (terminated (f :: removelast (g :: fs)))
          with ((f ++ [NUL]) ++ terminated (removelast (g :: fs))) in IH1.
        cbn [app]. now rewrite IH1.
      * intros t [<-|Ht].
        { intros [Hc|Hin].
          - subst c. discriminate.
          - exact (IH2 f (or_introl eq_refl) Hin). }
        apply IH2. now right.
Qed.

(** X12: what the decoder keeps of a frame body and what it loses.  The
    fields it yields hold no separator, and re-terminating them gives the
    body back up to its last separator; the bytes behind the last
    separator are dropped without notice.  So a body that ends with the
    separator loses nothing, and one that does not loses its last
    field. *)
Theorem decoder_drops_unterminated_tail (body frame : bytes) :
  _prefix body = Some frame -> body <> [] ->
  feed_chunks [] [frame] = Some ([body_fields body], [])
  /\ terminated (body_fields body) ++ body_tail body = body
  /\ (forall t, In t (body_fields body) -> ~ In NUL t)
  /\ (forall b, body = b ++ [NUL] -> body_tail body = []).
Proof.
  intros Hp Hb. destruct (split_pieces body) as [H1 H2]. split.
  - rewrite (feed_chunks_concat [frame] [] next_frame_nil).
    cbn [List.concat app]. rewrite app_nil_r.
    exact (extract_frames_whole _ _ Hp Hb).
  - split; [exact H1|]. split.
    + intros t Ht. apply H2. unfold body_fields in Ht.
      pose proof (split_not_nil NUL body) as Hne.
      destruct (exists_last Hne) as [l [x E]]. rewrite E in *.
      rewrite removelast_last in Ht. apply in_or_app. now left.
    + intros b Eb.
      pose proof (split_not_nil NUL body) as Hne.
      destruct (exists_last Hne) as [l [x E]].
      assert (Hx : ~ In NUL x)
        by (apply H2; rewrite E; apply in_or_app; right; now left).
      unfold body_tail, body_fields in *.
      rewrite E in H1 |- *. rewrite removelast_last in H1.
      rewrite last_last in H1 |- *.
      destruct x as [|a x]; [reflexivity|]. exfalso.
      destruct (exists_last (l:=a :: x) ltac:(discriminate)) as [x' [c Ex]].
      rewrite Ex in H1, Hx. rewrite Eb, app_assoc in H1.
      apply app_inj_tail in H1. destruct H1 as [_ Hc]. subst c.
      apply Hx, in_or_app. right. now left.
Qed.

Lemma decoder_drops_unterminated_tail_witness :
  feed_chunks [] [[x00; x00; x00; x04; "9"%byte; x00; "1"%byte; "7"%byte]]
  = Some ([body_fields [ "9"%byte; x00; "1"%byte; "7"%byte]], [])
  /\ body_fields ["9"%byte; x00; "1"%byte; "7"%byte] = [B "9"]
  /\ body_tail ["9"%byte; x00; "1"%byte; "7"%byte] = B "17".
Proof.
  split; [|split; reflexivity].
  apply (decoder_drops_unterminated_tail
           ["9"%byte; x00; "1"%byte; "7"%byte]
           [x00; x00; x00; x04; "9"%byte; x00; "1"%byte; "7"%byte]).
  - vm_compute. reflexivity.
  - discriminate.
Defined.

Lemma extract_frames_stream (bodies : list bytes) :
  Forall (fun b => b <> [] /\ len b < 2 ^ 32) bodies ->
  extract_frames (stream_of bodies) = Some (map body_fields bodies, []).
Proof.
  unfold stream_of. induction bodies as [|b bodies IH]; intros H.
  - reflexivity.
  - inversion H as [|? ? [Hne Hlen] Hrest]; subst.
    unfold frames_of. cbn [flat_map]. fold (frames_of bodies).
    destruct (_prefix b) as [frame|] eqn:Ep.
    + cbn [app List.concat].
      rewrite (extract_frames_app _ frame (List.concat (frames_of bodies))
                 [body_fields b] [] (Nat.lt_succ_diag_r _)
                 (extract_frames_whole _ _ Ep Hne)).
      cbn [app]. now rewrite (IH Hrest).
    + exfalso. unfold _prefix, pack_I in Ep.
      pose proof (len_nonneg b) as H0.
      destruct (Z.leb_spec 0 (len b)); [|lia].
      destruct (Z.ltb_spec (len b) (2 ^ 32)); [discriminate | lia].
Qed.

(** X13: a stream of frames decodes frame by frame under any chunking.
    For bodies that are non-empty and short enough to be framed, the
    frames laid end to end and delivered in any pieces to a fresh buffer
    decode to one field list per body, in order, with no byte left
    over. *)
Theorem stream_decodes_frame_by_frame (bodies : list bytes)
    (chunks : list bytes) :
  Forall (fun b => b <> [] /\ len b < 2 ^ 32) bodies ->
  List.concat chunks = stream_of bodies ->
  feed_chunks [] chunks = Some (map body_fields bodies, []).
Proof.
  intros Hb Hc.
  rewrite (feed_chunks_concat chunks [] next_frame_nil). cbn [app].
  rewrite Hc. exact (extract_frames_stream bodies Hb).
Qed.

Lemma stream_decodes_frame_by_frame_witness :
  feed_chunks []
    [[x00; x00; x00]; [x02; "9"%byte; x00; x00; x00; x00];
     [x04; "1"%byte; x00]; ["7"%byte; x00]]
  = Some (map body_fields [["9"%byte; x00]; ["1"%byte; x00; "7"%byte; x00]],
          []).
Proof.
  apply (stream_decodes_frame_by_frame
           [["9"%byte; x00]; ["1"%byte; x00; "7"%byte; x00]]).
  - repeat constructor; try discriminate.
  - vm_compute. reflexivity.
Defined.

(** X14: [_encode] builds a message piece by piece: the encoding of two
    field lists one after the other is the one followed by the other, a
    single field is its rendering followed by the separator, and the
    empty list is the empty string (which [sendMsg] does not queue). *)
Theorem encode_concatenates (a b : list field) (f : field) :
  _encode (a ++ b) = _encode a ++ _encode b
  /\ _encode [f] = render f ++ [NUL]
  /\ _encode [] = []
  /\ queued (Some (_encode [])) = [].
Proof.
  split; [|repeat split].
  rewrite !encode_terminated. unfold wire_tokens.
  now rewrite flat_map_app, terminated_app.
Qed.

(** X15: [_prefix] succeeds exactly when the body is shorter than 2^32
    bytes; the frame is then four bytes longer than the body, its first
    four bytes read back as the body's length, and the rest is the body
    itself.  A longer body makes [struct.pack] fail. *)
Theorem prefix_frames_body (body : bytes) :
  (len body < 2 ^ 32 ->
   exists frame,
     _prefix body = Some frame
     /\ len frame = 4 + len body
     /\ unpack_I (firstn 4 frame) = Some (len body)
     /\ skipn 4 frame = body)
  /\ (2 ^ 32 <= len body -> _prefix body = None).
Proof.
  split.
  - intros Hlt. destruct (_prefix body) as [frame|] eqn:Ep.
    + destruct (prefix_shape _ _ Ep) as [p [-> [Hl Hu]]].
      exists (p ++ body). split; [reflexivity|]. split; [|split].
      * rewrite len_app. unfold len at 1. rewrite Hl. reflexivity.
      * rewrite <- Hl, firstn_prefix. exact Hu.
      * rewrite <- Hl, skipn_app, Nat.sub_diag, skipn_all. reflexivity.
    + exfalso. unfold _prefix, pack_I in Ep.
      pose proof (len_nonneg body) as H0.
      destruct (Z.leb_spec 0 (len body)); [|lia].
      destruct (Z.ltb_spec (len body) (2 ^ 32)); [discriminate | lia].
  - intros Hge. unfold _prefix, pack_I.
    destruct (Z.ltb_spec (len body) (2 ^ 32)) as [H|_]; [lia|].
    now rewrite andb_false_r.
Qed.

Lemma prefix_frames_body_witness :
  exists frame,
    _prefix (B "x") = Some frame
    /\ len frame = 4 + len (B "x")
    /\ unpack_I (firstn 4 frame) = Some (len (B "x"))
    /\ skipn 4 frame = B "x".
Proof.
  apply (proj1 (prefix_frames_body (B "x"))). vm_compute. reflexivity.
Defined.

(** ** More about inbound data *)

Lemma next_frame_suffix (d rest : bytes) (fields : list bytes) :
  next_frame d = Ret (Some (fields, rest)) -> exists pre, d = pre ++ rest.
Proof.
  unfold next_frame.
  destruct (len d <=? 4); [discriminate|].
  destruct (unpack_I (slice 0 4 d)) as [n|]; [|discriminate].
  remember (4 + n) as msgEnd.
  destruct (len d <? msgEnd); [discriminate|].
  destruct (pop (split NUL (slice 4 msgEnd d))); [|discriminate].
  intros [= _ <-]. exists (firstn (Z.to_nat msgEnd) d).
  unfold slice_from. now rewrite firstn_skipn.
Qed.

(** Taking a bind apart. *)
Lemma bind_inv {X Y : Type} (m : M X) (k : X -> M Y) (s s' : Client)
    (r : outcome Y) :
  bind m k s = (s', r) ->
  (exists e, m s = (s', Raise e) /\ r = Raise e)
  \/ (exists s1 a, m s = (s1, Ret a) /\ k a s1 = (s', r)).
Proof.
  unfold bind. destruct (m s) as [s1 [a|e]]; intros H.
  - right. now exists s1, a.
  - left. injection H as <- <-. now exists e.
Qed.

(** A post-condition through a bind. *)
Lemma bind_post {X Y : Type} (m : M X) (k : X -> M Y) (s : Client)
    (Post : Client -> outcome Y -> Prop) :
  (forall s' e, m s = (s', Raise e) -> Post s' (Raise e)) ->
  (forall s' a, m s = (s', Ret a) -> Post (fst (k a s')) (snd (k a s'))) ->
  Post (fst (bind m k s)) (snd (bind m k s)).
Proof.
  intros Hr Hk. unfold bind. destruct (m s) as [s' [a|e]] eqn:E.
  - now apply Hk.
  - cbn [fst snd]. now apply Hr.
Qed.

Section InboundMore.

Variable raises : list event -> event -> bool.
Variable float_ok : bytes -> bool.

Lemma call_eq (ev : event) (x : Client) :
  call raises ev x
  = (set_trace (trace x ++ [ev]) x,
     if raises (trace x) ev then Raise CallbackError else Ret tt).
Proof. unfold call. now destruct (raises (trace x) ev). Qed.

Lemma hasData_loop_buffer (t : Q) (fuel : nat) :
  forall s s' r,
  hasData_loop raises float_ok t fuel s = (s', r) ->
  (exists pre, _data s = pre ++ _data s')
  /\ (r = Ret tt -> next_frame (_data s') = Ret None).
Proof.
  induction fuel as [|fuel IH]; intros s s' r.
  { cbn. intros [= <- <-]. split; [exists []; reflexivity | discriminate]. }
  cbn [hasData_loop]. unfold bind at 1, get.
  destruct (next_frame (_data s)) as [[[fields d']|]|e] eqn:E.
  - destruct (next_frame_suffix _ _ _ E) as [pre Hpre].
    unfold bind, modify.
    destruct (steady_handle_frame raises float_ok t fields (set_data d' s))
      as [H1 _].
    destruct (handle_frame raises float_ok t fields (set_data d' s))
      as [s1 [[]|e]]; cbn [fst snd] in H1.
    + intros Hl. destruct (IH s1 s' r Hl) as [[pre' Hp] Hstuck].
      split; [|exact Hstuck].
      exists (pre ++ pre'). rewrite Hpre, <- app_assoc. f_equal.
      rewrite <- Hp. exact (eq_sym H1).
    + intros [= <- <-]. split; [|discriminate]. exists pre.
      rewrite Hpre. f_equal. exact (eq_sym H1).
  - unfold ret. intros [= <- <-].
    split; [exists []; reflexivity | intros _; exact E].
  - exfalso. exact (next_frame_no_raise _ _ E).
Qed.

Lemma onSocketHasData_buffer (t : Q) (data : bytes) (s s' : Client)
    (r : outcome unit) :
  _onSocketHasData raises float_ok t data s = (s', r) ->
  (_data s' = _data s /\ r = Raise CallbackError)
  \/ ((exists consumed, _data s ++ data = consumed ++ _data s')
      /\ (r = Ret tt -> next_frame (_data s') = Ret None)).
Proof.
  unfold _onSocketHasData. intros H.
  apply bind_inv in H. destruct H as [[e [H _]]|[s0 [a [Hg H]]]];
    [discriminate|]. injection Hg as <- <-.
  apply bind_inv in H. destruct H as [[e [H Hr]]|[s1 [[] [Hhook H]]]].
  { left. unfold when in H. destruct (tcpDataArrived_set s); [|discriminate].
    rewrite call_eq in H. destruct (raises (trace s) TcpDataArrived);
      [|discriminate].
    injection H as <- <-. now subst r. }
  right.
  assert (H1 : _data s1 = _data s).
  { pose proof (proj1 (steady_when (tcpDataArrived_set s) _
                         (steady_call raises TcpDataArrived) s)) as Hd.
    rewrite Hhook in Hd. exact Hd. }
  apply bind_inv in H. destruct H as [[e [H _]]|[s2 [[] [Hm H]]]];
    [discriminate|]. injection Hm as <-.
  apply bind_inv in H. destruct H as [[e [H _]]|[s3 [[] [Hm H]]]];
    [discriminate|]. injection Hm as <-.
  apply bind_inv in H. destruct H as [[e [H _]]|[s4 [a [Hg H]]]];
    [discriminate|]. injection Hg as <- <-.
  apply bind_inv in H. destruct H as [[e [H Hr]]|[s5 [[] [Hloop H]]]].
  - destruct (hasData_loop_buffer _ _ _ _ _ H) as [[pre Hp] _].
    cbn [_data set_numBytesRecv set_data] in Hp. rewrite H1 in Hp.
    split; [exists pre; exact Hp | subst r; discriminate].
  - destruct (hasData_loop_buffer _ _ _ _ _ Hloop) as [[pre Hp] Hst].
    cbn [_data set_numBytesRecv set_data] in Hp. rewrite H1 in Hp.
    assert (H5 : _data s' = _data s5).
    { match type of H with
      | when ?b _ _ = _ =>
          pose proof (proj1 (steady_when b _
                               (steady_call raises TcpDataProcessed) s5))
            as Hd
      end.
      rewrite H in Hd. exact Hd. }
    rewrite H5. split; [exists pre; exact Hp | intros _; now apply Hst].
Qed.

(** X16: the inbound buffer only ever loses bytes from its front, and a
    delivery that returns leaves no complete frame at its head, unless it
    is a zero-length frame with nothing behind it.  Unless the
    [tcpDataArrived] hook raises, in which case the delivered bytes are
    dropped and the buffer is untouched, the buffer after
    [_onSocketHasData] is a final part of the old buffer followed by the
    delivered bytes, in whatever state and whether the call returns or
    raises; when it returns, the loop has stopped on the buffer, and if
    the buffer still begins with a complete frame then it is exactly the
    four zero bytes of an empty frame. *)
Theorem inbound_buffer_invariant (t : Q) (data : bytes) (s : Client) :
  let s' := after (_onSocketHasData raises float_ok t data) s in
  let r := result (_onSocketHasData raises float_ok t data) s in
  (_data s' = _data s /\ r = Raise CallbackError)
  \/ ((exists consumed, _data s ++ data = consumed ++ _data s')
      /\ (r = Ret tt ->
          next_frame (_data s') = Ret None
          /\ (holds_frame (_data s') -> _data s' = [x00; x00; x00; x00]))).
Proof.
  cbv zeta. unfold after, result.
  destruct (onSocketHasData_buffer t data s
              (fst (_onSocketHasData raises float_ok t data s))
              (snd (_onSocketHasData raises float_ok t data s)))
    as [H|[H1 H2]].
  - now destruct (_onSocketHasData _ _ _ _ _).
  - left. exact H.
  - right. split; [exact H1|]. intros Hr. specialize (H2 Hr).
    split; [exact H2 | exact (next_frame_stuck _ H2)].
Qed.

End InboundMore.

(** ** Readiness is only ever cleared by a reset *)

Section Readiness.

Variable raises : list event -> event -> bool.
Variable float_ok : bytes -> bool.

Let ready (s : Client) : Prop := _readyEvent s = true.

Lemma ready_call (ev : event) : keeps ready (call raises ev).
Proof.
  intros s H. unfold call. now destruct (raises (trace s) ev).
Qed.

Lemma ready_int (b : bytes) : keeps ready (int_ b).
Proof. unfold int_. keeps_step. Qed.

Lemma ready_py_float (b : bytes) : keeps ready (py_float float_ok b).
Proof. unfold py_float. repeat keeps_step. Qed.

Lemma ready_decode (fields : list bytes) :
  keeps ready (_decode raises float_ok fields).
Proof.
  unfold _decode.
  pose proof ready_call as Hc. pose proof ready_int as Hi.
  pose proof ready_py_float as Hf.
  repeat keeps_step; auto.
Qed.

Lemma ready_sendMsg (t : Q) (msg : option bytes) : keeps ready (sendMsg t msg).
Proof.
  apply keeps_sendMsg. unfold ready.
  intros a b _ _ _ _ H _ _ _ _ _. now rewrite H.
Qed.

Lemma ready_startApi (t : Q) : keeps ready (startApi raises t).
Proof.
  unfold startApi. pose proof ready_call as Hc.
  pose proof (ready_sendMsg t) as Hs. repeat keeps_step; auto.
Qed.

Lemma ready_handle_frame (t : Q) (fields : list bytes) :
  keeps ready (handle_frame raises float_ok t fields).
Proof.
  unfold handle_frame.
  pose proof ready_call as Hc. pose proof ready_int as Hi.
  pose proof (ready_startApi t) as Hs.
  pose proof (ready_decode fields) as Hd.
  repeat keeps_step; auto.
Qed.

Lemma ready_hasData_loop (t : Q) (fuel : nat) :
  keeps ready (hasData_loop raises float_ok t fuel).
Proof.
  induction fuel as [|fuel IH]; cbn [hasData_loop]; [apply keeps_raise|].
  pose proof (ready_handle_frame t) as Hh.
  apply keeps_bind; [apply keeps_get|]. intros s.
  destruct (next_frame (_data s)) as [[[fields d']|]|e];
    repeat keeps_step; auto.
Qed.

Lemma ready_onSocketHasData (t : Q) (data : bytes) :
  keeps ready (_onSocketHasData raises float_ok t data).
Proof.
  unfold _onSocketHasData.
  pose proof ready_call as Hc.
  pose proof (ready_hasData_loop t) as Hl.
  repeat keeps_step; auto.
Qed.

(** X17: once the session is ready, nothing but a reset makes it not
    ready again: it is still ready after any delivery of inbound bytes,
    any call of [sendMsg] and any call of an accessor, whether these
    return or raise; after [reset] it is not. *)
Theorem readiness_only_cleared_by_reset (s : Client) (t now : Q)
    (data : bytes) (msg : option bytes) :
  isReady s = true ->
  isReady (after (_onSocketHasData raises float_ok t data) s) = true
  /\ isReady (after (sendMsg t msg) s) = true
  /\ isReady (after getReqId s) = true
  /\ isReady (after getAccounts s) = true
  /\ isReady (after (connectionStats now) s) = true
  /\ isReady (reset now s) = false.
Proof.
  intros H. split; [exact (ready_onSocketHasData t data s H)|].
  split; [exact (ready_sendMsg t msg s H)|].
  assert (Hg : keeps ready getReqId)
    by (unfold getReqId; repeat keeps_step).
  assert (Ha : keeps ready getAccounts)
    by (unfold getAccounts; repeat keeps_step).
  assert (Hs : keeps ready (connectionStats now))
    by (unfold connectionStats; repeat keeps_step).
  split; [exact (Hg s H)|]. split; [exact (Ha s H)|].
  split; [exact (Hs s H) | reflexivity].
Qed.

End Readiness.

Lemma readiness_only_cleared_by_reset_witness :
  let s := set_readyEvent true negotiated_client in
  isReady (after (_onSocketHasData quiet no_float 0 [x00; x00]) s) = true
  /\ isReady (after (sendMsg 0 None) s) = true
  /\ isReady (after getReqId s) = true
  /\ isReady (after getAccounts s) = true
  /\ isReady (after (connectionStats 1) s) = true
  /\ isReady (reset 1 s) = false.
Proof.
  exact (readiness_only_cleared_by_reset quiet no_float
           (set_readyEvent true negotiated_client) 0 1 [x00; x00] None
           eq_refl).
Defined.


(** ** Request ids across a session *)

Section RequestIdsMore.

Variable raises : list event -> event -> bool.
Variable float_ok : bytes -> bool.
Variable n : Z.

Let counter (s : Client) : Prop := _reqIdSeq s = n.

Lemma counter_call (ev : event) : keeps counter (call raises ev).
Proof.
  intros s H. unfold call. now destruct (raises (trace s) ev).
Qed.

Lemma counter_int (b : bytes) : keeps counter (int_ b).
Proof. unfold int_. keeps_step. Qed.

Lemma counter_py_float (b : bytes) : keeps counter (py_float float_ok b).
Proof. unfold py_float. repeat keeps_step. Qed.

Lemma counter_sendMsg (t : Q) (msg : option bytes) :
  keeps counter (sendMsg t msg).
Proof.
  apply keeps_sendMsg. unfold counter.
  intros a b _ _ _ _ _ H _ _ _ _. now rewrite H.
Qed.

Lemma counter_startApi (t : Q) : keeps counter (startApi raises t).
Proof.
  unfold startApi. pose proof counter_call as Hc.
  pose proof (counter_sendMsg t) as Hs. repeat keeps_step; auto.
Qed.

(** Only a frame whose first field reads as 9 makes [_decode] write the
    counter. *)
Lemma counter_decode (fields : list bytes) :
  seeds fields = false -> keeps counter (_decode raises float_ok fields).
Proof.
  intros Hs s H. unfold _decode.
  destruct fields as [|f0 rest]; [exact H|].
  cbn [seeds] in Hs. unfold bind at 1. cbn [hd_error of_option]. unfold ret at 1.
  unfold bind at 1, int_. destruct (py_int f0) as [m|]; [|exact H].
  cbn [of_option]. unfold ret at 1.
  rewrite Hs. revert s H.
  match goal with
  | |- forall s, counter s -> counter (fst (?m s)) => change (keeps counter m)
  end.
  pose proof counter_call as Hc. pose proof counter_py_float as Hf.
  cbv zeta. repeat keeps_step; auto.
Qed.

Lemma counter_handle_frame (t : Q) (fields : list bytes) :
  seeds fields = false ->
  keeps counter (handle_frame raises float_ok t fields).
Proof.
  intros Hs. unfold handle_frame.
  pose proof counter_call as Hc. pose proof counter_int as Hi.
  pose proof (counter_startApi t) as Ha.
  pose proof (counter_decode fields Hs) as Hd.
  repeat keeps_step; auto.
Qed.

Lemma counter_hasData_loop (t : Q) (fuel : nat) :
  forall s frames rest,
  extract_frames (_data s) = Some (frames, rest) ->
  forallb (fun f => negb (seeds f)) frames = true ->
  counter s -> counter (fst (hasData_loop raises float_ok t fuel s)).
Proof.
  induction fuel as [|fuel IH]; intros s frames rest Ex Hf H; [exact H|].
  cbn [hasData_loop]. unfold bind at 1, get.
  rewrite extract_frames_unfold in Ex.
  destruct (next_frame (_data s)) as [[[fields d']|]|e] eqn:E.
  - destruct (extract_frames d') as [[fs r]|] eqn:Ex'; [|discriminate].
    injection Ex as <- <-. cbn [forallb] in Hf.
    apply andb_true_iff in Hf. destruct Hf as [Hf0 Hf].
    apply negb_true_iff in Hf0.
    unfold bind, modify.
    pose proof (counter_handle_frame t fields Hf0 (set_data d' s) H) as H1.
    destruct (steady_handle_frame raises float_ok t fields (set_data d' s))
      as [D1 _].
    destruct (handle_frame raises float_ok t fields (set_data d' s))
      as [s1 [[]|e]]; cbn [fst] in *; [|exact H1].
    apply (IH s1 fs r); [now rewrite D1 | exact Hf | exact H1].
  - exact H.
  - exact H.
Qed.

Lemma counter_onSocketHasData (t : Q) (data : bytes) (s : Client)
    (frames : list (list bytes)) (rest : bytes) :
  extract_frames (_data s ++ data) = Some (frames, rest) ->
  forallb (fun f => negb (seeds f)) frames = true ->
  counter s -> counter (after (_onSocketHasData raises float_ok t data) s).
Proof.
  intros Ex Hf H. unfold after, _onSocketHasData.
  unfold bind at 1, get. unfold bind at 1.
  assert (Hhook : forall s1 o,
             when (tcpDataArrived_set s) (call raises TcpDataArrived) s
             = (s1, o) -> counter s1 /\ _data s1 = _data s).
  { intros s1 o. unfold when, call, ret.
    destruct (tcpDataArrived_set s);
      [destruct (raises (trace s) TcpDataArrived)|];
      intros [= <- <-]; split; auto. }
  destruct (when (tcpDataArrived_set s) (call raises TcpDataArrived) s)
    as [s1 [[]|e]] eqn:E1; destruct (Hhook _ _ eq_refl) as [H1 D1];
    [|exact H1].
  unfold bind at 1, modify. unfold bind at 1. unfold bind at 1, get.
  unfold bind at 1.
  set (s3 := set_numBytesRecv _ _).
  assert (H3 : counter s3) by exact H1.
  assert (D3 : _data s3 = _data s ++ data).
  { unfold s3. cbn [_data set_numBytesRecv set_data]. now rewrite D1. }
  rewrite <- D3 in Ex.
  pose proof (counter_hasData_loop t (S (List.length (_data s3))) s3 _ _
                Ex Hf H3) as H4.
  destruct (hasData_loop raises float_ok t (S (List.length (_data s3))) s3)
    as [s4 [[]|e]]; cbn [fst] in *; [|exact H4].
  unfold when, call, ret.
  destruct (tcpDataProcessed_set s3);
    [destruct (raises (trace s4) TcpDataProcessed)|]; exact H4.
Qed.

End RequestIdsMore.

Section RequestIds.

Variable raises : list event -> event -> bool.
Variable float_ok : bytes -> bool.

Lemma perform_ready (a : action) (s : Client) :
  isReady s = true -> isReady (fst (perform raises float_ok a s)) = true.
Proof.
  intros H. destruct a as [t data|t msg| |now|]; cbn [perform fst].
  - exact (ready_onSocketHasData raises float_ok t data s H).
  - exact (ready_sendMsg t msg s H).
  - unfold after, getAccounts, bind, get, assert, ret. now rewrite H.
  - unfold after, connectionStats, bind, get, assert, ret, of_option.
    rewrite H. cbn. now destruct (conn s).
  - rewrite (getReqId_ready s H). exact H.
Qed.

(** Whatever else happens to a ready session, as long as no delivery
    meets a next-valid-id frame the calls of [getReqId] return the
    counter's value and the values after it, one by one. *)
Lemma session_ids (acts : list action) :
  forall s, isReady s = true -> no_seed raises float_ok acts s = true ->
  fst (session raises float_ok acts s)
  = map (fun i => Ret (_reqIdSeq s + Z.of_nat i))
        (seq 0 (List.length (filter is_ask acts))).
Proof.
  induction acts as [|a acts IH]; intros s Hr Hn; [reflexivity|].
  cbn [no_seed] in Hn. apply andb_true_iff in Hn. destruct Hn as [Ha Hn].
  pose proof (perform_ready a s Hr) as Hr1.
  specialize (IH _ Hr1 Hn).
  cbn [session]. 
  destruct (perform raises float_ok a s) as [s1 r] eqn:Ep.
  cbn [fst] in IH, Hr1.
  destruct (session raises float_ok acts s1) as [rs s2]. cbn [fst] in *.
  assert (Hsame : is_ask a = false -> r = None /\ _reqIdSeq s1 = _reqIdSeq s).
  { intros Hk. destruct a as [t data|t msg| |now|]; try discriminate;
      cbn [perform] in Ep; injection Ep as <- <-; (split; [reflexivity|]).
    - destruct (extract_frames (_data s ++ data)) as [[frames rest]|] eqn:Ex.
      + exact (counter_onSocketHasData raises float_ok (_reqIdSeq s) t data s
                 frames rest Ex Ha eq_refl).
      + pose proof (extract_frames_total (_data s ++ data)) as [fs [r Ht]].
        congruence.
    - exact (counter_sendMsg (_reqIdSeq s) t msg s eq_refl).
    - unfold after, getAccounts, bind, get, assert, ret.
      now destruct (isReady s).
    - unfold after, connectionStats, bind, get, assert, ret, of_option.
      destruct (isReady s); [|reflexivity]. cbn. now destruct (conn s). }
  destruct (is_ask a) eqn:Ek.
  - destruct a; try discriminate. cbn [perform] in Ep.
    rewrite (getReqId_ready s Hr) in Ep. injection Ep as <- <-.
    cbn [filter List.length is_ask seq map]. rewrite IH. f_equal.
    + f_equal. lia.
    + rewrite <- seq_shift, map_map. apply map_ext. intros i.
      cbn [_reqIdSeq set_reqIdSeq]. f_equal. lia.
  - destruct (Hsame eq_refl) as [-> Hq]. cbn [filter].
    rewrite Ek, IH, Hq. reflexivity.
Qed.

(** C6 (as amended): on a ready session [getReqId] returns the current
    counter and leaves it incremented by one; every next-valid-id frame
    that is received sets the counter to the id it carries; and with no
    such frame received, the calls of [getReqId] return consecutive and
    pairwise distinct ids, whether they come in a row or with anything
    else in between: deliveries of other inbound frames, sends and
    flushes, calls of the other accessors.  After next-valid-id [9,1,17]
    and managed-accounts [15,1,DU1234,DU5678] the session is ready and
    two calls return 17 then 18. *)
Theorem getReqId_counter (s : Client) (v : bytes) (n : Z) (k : nat)
    (acts : list action) :
  isReady s = true ->
  py_int v = Some n ->
  no_seed raises float_ok acts s = true ->
  getReqId s = (set_reqIdSeq (_reqIdSeq s + 1) s, Ret (_reqIdSeq s))
  /\ _reqIdSeq (deliver raises float_ok (nextValidId_msg v) s) = n
  /\ fst (getReqIds k s)
     = map (fun i => Ret (_reqIdSeq s + Z.of_nat i)) (seq 0 k)
  /\ NoDup (fst (getReqIds k s))
  /\ fst (session raises float_ok acts s)
     = map (fun i => Ret (_reqIdSeq s + Z.of_nat i))
           (seq 0 (List.length (filter is_ask acts)))
  /\ NoDup (fst (session raises float_ok acts s))
  /\ (let s1 := deliver_all raises float_ok
                  [nextValidId_msg (B "17");
                   managedAccounts_msg (B "DU1234,DU5678")]
                  negotiated_client in
      isReady s1 = true
      /\ _accounts s1 = Some [B "DU1234"; B "DU5678"]
      /\ fst (getReqIds 2 s1) = [Ret 17; Ret 18]).
Proof.
  intros Hr Hv Hn. split; [exact (getReqId_ready s Hr)|].
  split; [exact (proj1 (deliver_nextValidId raises float_ok s v n Hv))|].
  split; [exact (getReqIds_consecutive k s Hr)|].
  assert (Hinj : forall m : nat,
             NoDup (map (fun i => @Ret Z (_reqIdSeq s + Z.of_nat i))
                      (seq 0 m))).
  { intros m. apply Injective_map_NoDup; [|apply seq_NoDup].
    intros i j [= H]. lia. }
  split; [rewrite (getReqIds_consecutive k s Hr); apply Hinj|].
  split; [exact (session_ids acts s Hr Hn)|].
  split; [rewrite (session_ids acts s Hr Hn); apply Hinj|].
  cbv zeta. unfold deliver_all. cbn [fold_left].
  destruct (deliver_nextValidId raises float_ok negotiated_client
              (B "17") 17 eq_refl) as [H1 [H2 H3]].
  destruct (deliver_managedAccounts raises float_ok
              (deliver raises float_ok (nextValidId_msg (B "17"))
                 negotiated_client) (B "DU1234,DU5678") eq_refl)
    as [G1 [G2 G3]].
  assert (Hready : isReady
            (deliver raises float_ok (managedAccounts_msg (B "DU1234,DU5678"))
               (deliver raises float_ok (nextValidId_msg (B "17"))
                  negotiated_client)) = true).
  { unfold isReady. rewrite G3, H1. apply orb_true_r. }
  split; [exact Hready|]. split; [exact G2|].
  rewrite (getReqIds_consecutive 2 _ Hready), G1, H1. reflexivity.
Qed.

End RequestIds.

Lemma getReqId_counter_witness :
  let s := set_reqIdSeq 5 (set_readyEvent true negotiated_client) in
  let acts := [AskReqId;
               Receive 1 (frame_of [FStr (B "2"); FStr (B "6"); FStr (B "1");
                                    FStr (B "0"); FStr (B "100")]);
               Send 2 (Some (B "x")); AskAccounts; AskReqId;
               Receive 3 (frame_of [FStr (B "15"); FStr (B "1");
                                    FStr (B "DU1234")]);
               AskStats 4; AskReqId] in
  fst (session quiet no_float acts s) = [Ret 5; Ret 6; Ret 7].
Proof.
  exact (proj1 (proj2 (proj2 (proj2 (proj2 (getReqId_counter quiet no_float
           (set_reqIdSeq 5 (set_readyEvent true negotiated_client))
           (B "17") 17 3%nat
           [AskReqId;
            Receive 1 (frame_of [FStr (B "2"); FStr (B "6"); FStr (B "1");
                                 FStr (B "0"); FStr (B "100")]);
            Send 2 (Some (B "x")); AskAccounts; AskReqId;
            Receive 3 (frame_of [FStr (B "15"); FStr (B "1");
                                 FStr (B "DU1234")]);
            AskStats 4; AskReqId]
           eq_refl eq_refl eq_refl)))))).
Defined.

(** C6 fails as stated: within one connected session an id is handed out
    twice when the server repeats its next-valid-id message. *)
Lemma getReqId_repeats_after_reseed :
  let s1 := deliver_all quiet no_float
              [nextValidId_msg (B "17"); managedAccounts_msg (B "DU1234")]
              negotiated_client in
  let s2 := after getReqId s1 in
  let s3 := deliver quiet no_float (nextValidId_msg (B "17")) s2 in
  result getReqId s1 = Ret 17
  /\ result getReqId s3 = Ret 17
  /\ connState s3 = CONNECTED /\ isReady s3 = true.
Proof. vm_compute. repeat split. Qed.

(** ** Deliveries to a negotiated session *)

Section Deliveries.

Variable raises : list event -> event -> bool.
Variable float_ok : bytes -> bool.

Lemma deliver_set_numBytesRecv (fields : list bytes) (n : Z) (s : Client) :
  deliver raises float_ok fields (set_numBytesRecv n s)
  = set_numBytesRecv n (deliver raises float_ok fields s).
Proof. unfold_decode. crunch. Qed.

Lemma deliver_config (fields : list bytes) (s : Client) :
  let s' := deliver raises float_ok fields s in
  tcpDataArrived_set s' = tcpDataArrived_set s
  /\ tcpDataProcessed_set s' = tcpDataProcessed_set s
  /\ _numBytesRecv s' = _numBytesRecv s.
Proof. unfold_decode. crunch; repeat split. Qed.

Lemma process_set_numBytesRecv (frames : list (list bytes)) (n : Z) :
  forall s, process raises float_ok frames (set_numBytesRecv n s)
            = set_numBytesRecv n (process raises float_ok frames s).
Proof.
  induction frames as [|f fs IH]; intros s; [reflexivity|].
  unfold process in *. cbn [fold_left].
  change (bump (set_numBytesRecv n s)) with (set_numBytesRecv n (bump s)).
  now rewrite deliver_set_numBytesRecv, IH.
Qed.

Lemma process_config (frames : list (list bytes)) :
  forall s,
  let s' := process raises float_ok frames s in
  tcpDataArrived_set s' = tcpDataArrived_set s
  /\ tcpDataProcessed_set s' = tcpDataProcessed_set s
  /\ _numBytesRecv s' = _numBytesRecv s.
Proof.
  induction frames as [|f fs IH]; intros s; [repeat split|].
  unfold process in *. cbn [fold_left].
  destruct (IH (deliver raises float_ok f (bump s))) as [H1 [H2 H3]].
  destruct (deliver_config f (bump s)) as [G1 [G2 G3]].
  cbv zeta. rewrite H1, H2, H3, G1, G2, G3. repeat split.
Qed.

Lemma process_app (a b : list (list bytes)) (s : Client) :
  process raises float_ok (a ++ b) s
  = process raises float_ok b (process raises float_ok a s).
Proof. unfold process. apply fold_left_app. Qed.

Lemma set_data_numBytesRecv_collapse (d1 d2 : bytes) (n1 n2 : Z) (s : Client) :
  set_data d2 (set_numBytesRecv n2 (set_data d1 (set_numBytesRecv n1 s)))
  = set_data d2 (set_numBytesRecv n2 s).
Proof. reflexivity. Qed.

Lemma delivery_to_negotiated_session_aux (t : Q) (data : bytes) (s : Client) :
  truthy_opt_int (serverVersion_ s) = true -> debug s = false ->
  tcpDataArrived_set s = false -> tcpDataProcessed_set s = false ->
  exists frames rest,
    extract_frames (_data s ++ data) = Some (frames, rest)
    /\ _onSocketHasData raises float_ok t data s
       = (set_data rest
            (process raises float_ok frames
               (set_numBytesRecv (_numBytesRecv s + len data) s)),
          Ret tt).
Proof.
  intros Hv Hd Ha Hp.
  pose (s3 := set_numBytesRecv (_numBytesRecv s + len data)
                (set_data (_data s ++ data) s)).
  destruct (hasData_loop_all raises float_ok t (S (List.length (_data s3))) s3
              (Nat.lt_succ_diag_r _) Hv Hd) as [frames [rest [Ex Hl]]].
  exists frames, rest. split; [exact Ex|].
  unfold _onSocketHasData, when, bind, get, modify, ret.
  rewrite Ha. cbv beta iota.
  match goal with
  | |- context [tcpDataProcessed_set ?x] =>
      change (tcpDataProcessed_set x) with (tcpDataProcessed_set s)
  end.
  rewrite Hp.
  change (set_numBytesRecv
            (_numBytesRecv (set_data (_data s ++ data) s) + len data)
            (set_data (_data s ++ data) s)) with s3.
  rewrite Hl. f_equal. unfold s3.
  change (set_numBytesRecv (_numBytesRecv s + len data)
            (set_data (_data s ++ data) s))
    with (set_data (_data s ++ data)
            (set_numBytesRecv (_numBytesRecv s + len data) s)).
  rewrite process_set_data. reflexivity.
Qed.


Lemma delivery_decomposed (t : Q) (data : bytes) (s : Client) :
  truthy_opt_int (serverVersion_ s) = true -> debug s = false ->
  tcpDataArrived_set s = false -> tcpDataProcessed_set s = false ->
  exists bodies rest,
    _data s ++ data = stream_of bodies ++ rest
    /\ Forall (fun b => len b < 2 ^ 32) bodies
    /\ (holds_frame rest -> rest = [x00; x00; x00; x00])
    /\ extract_frames (_data s ++ data) = Some (map body_fields bodies, rest)
    /\ _onSocketHasData raises float_ok t data s
       = (set_data rest
            (process raises float_ok (map body_fields bodies)
               (set_numBytesRecv (_numBytesRecv s + len data) s)),
          Ret tt).
Proof.
  intros Hv Hd Ha Hp.
  destruct (delivery_to_negotiated_session_aux t data s
              Hv Hd Ha Hp) as [frames [rest [Ex Hrun]]].
  destruct (extract_frames_decompose _ _ _ _ (Nat.lt_succ_diag_r _) Ex)
    as [bodies [Hdec [Hb [Hf Hst]]]].
  subst frames. exists bodies, rest. auto.
Qed.



(** X18: what one delivery does to a negotiated session (version
    recorded, debug logging off, no packet hooks): the delivered bytes
    are counted; the buffer followed by the new bytes is taken apart into
    the complete frames it begins with, one after the other, each counted
    and passed to [_decode] in order; the rest stays buffered, and begins
    with no complete frame unless it is a zero-length frame with nothing
    behind it; and the call returns.  So the byte counter grows by the
    length of the delivery and the message counter by the number of
    frames taken, whatever became of them in [_decode]. *)
Theorem delivery_to_negotiated_session (t : Q) (data : bytes) (s : Client) :
  truthy_opt_int (serverVersion_ s) = true -> debug s = false ->
  tcpDataArrived_set s = false -> tcpDataProcessed_set s = false ->
  exists bodies rest,
    _data s ++ data = stream_of bodies ++ rest
    /\ Forall (fun b => len b < 2 ^ 32) bodies
    /\ (holds_frame rest -> rest = [x00; x00; x00; x00])
    /\ extract_frames (_data s ++ data) = Some (map body_fields bodies, rest)
    /\ _onSocketHasData raises float_ok t data s
       = (set_data rest
            (process raises float_ok (map body_fields bodies)
               (set_numBytesRecv (_numBytesRecv s + len data) s)),
          Ret tt)
    /\ _numBytesRecv (after (_onSocketHasData raises float_ok t data) s)
       = _numBytesRecv s + len data
    /\ _numMsgRecv (after (_onSocketHasData raises float_ok t data) s)
       = _numMsgRecv s + len bodies.
Proof.
  intros Hv Hd Ha Hp.
  destruct (delivery_decomposed t data s Hv Hd Ha Hp)
    as [bodies [rest [H1 [H2 [H3 [Ex Hrun]]]]]].
  exists bodies, rest.
  split; [exact H1|]. split; [exact H2|]. split; [exact H3|].
  split; [exact Ex|]. split; [exact Hrun|].
  unfold after. rewrite Hrun. cbn [fst].
  destruct (process_config (map body_fields bodies)
              (set_numBytesRecv (_numBytesRecv s + len data) s))
    as [_ [_ Hb]].
  destruct (process_footprint raises float_ok (map body_fields bodies)
              (set_numBytesRecv (_numBytesRecv s + len data) s))
    as [_ [_ [_ [Hm _]]]].
  split; [exact Hb|].
  cbn [_numMsgRecv set_data]. rewrite Hm. unfold len.
  now rewrite length_map.
Qed.

Lemma two_deliveries_join (t1 t2 t : Q) (d1 d2 : bytes) (s : Client) :
  truthy_opt_int (serverVersion_ s) = true -> debug s = false ->
  tcpDataArrived_set s = false -> tcpDataProcessed_set s = false ->
  _onSocketHasData raises float_ok t2 d2
    (after (_onSocketHasData raises float_ok t1 d1) s)
  = _onSocketHasData raises float_ok t (d1 ++ d2) s.
Proof.
  intros Hv Hd Ha Hp.
  destruct (delivery_to_negotiated_session_aux t1 d1 s Hv Hd Ha Hp)
    as [fs1 [r1 [E1 R1]]].
  unfold after. rewrite R1. cbn [fst].
  set (s1 := set_data r1
               (process raises float_ok fs1
                  (set_numBytesRecv (_numBytesRecv s + len d1) s))).
  destruct (process_config fs1
              (set_numBytesRecv (_numBytesRecv s + len d1) s))
    as [C1 [C2 C3]].
  destruct (process_footprint raises float_ok fs1
              (set_numBytesRecv (_numBytesRecv s + len d1) s))
    as [F1 [F2 _]].
  assert (Hv1 : truthy_opt_int (serverVersion_ s1) = true).
  { unfold s1. change (serverVersion_ (set_data r1 ?x)) with (serverVersion_ x).
    rewrite F1. exact Hv. }
  assert (Hd1 : debug s1 = false).
  { unfold s1. change (debug (set_data r1 ?x)) with (debug x).
    rewrite F2. exact Hd. }
  assert (Ha1 : tcpDataArrived_set s1 = false).
  { unfold s1.
    change (tcpDataArrived_set (set_data r1 ?x)) with (tcpDataArrived_set x).
    rewrite C1. exact Ha. }
  assert (Hp1 : tcpDataProcessed_set s1 = false).
  { unfold s1.
    change (tcpDataProcessed_set (set_data r1 ?x))
      with (tcpDataProcessed_set x).
    rewrite C2. exact Hp. }
  destruct (delivery_to_negotiated_session_aux t2 d2 s1 Hv1 Hd1 Ha1 Hp1)
    as [fs2 [r2 [E2 R2]]].
  destruct (delivery_to_negotiated_session_aux t (d1 ++ d2) s Hv Hd Ha Hp)
    as [fs [r [E R]]].
  rewrite R2, R. f_equal.
  assert (Ed : _data s1 = r1) by reflexivity.
  rewrite Ed in E2.
  rewrite app_assoc in E.
  rewrite (extract_frames_app _ (_data s ++ d1) d2 fs1 r1
             (Nat.lt_succ_diag_r _) E1), E2 in E.
  injection E as <- <-.
  assert (En : _numBytesRecv s1 = _numBytesRecv s + len d1).
  { unfold s1. cbn [_numBytesRecv set_data]. exact C3. }
  rewrite En. unfold s1.
  rewrite (process_set_numBytesRecv fs1 (_numBytesRecv s + len d1) s).
  rewrite (process_set_numBytesRecv fs2), (process_set_data raises float_ok fs2),
    (process_set_numBytesRecv fs2).
  rewrite (process_set_numBytesRecv (fs1 ++ fs2)), process_app.
  rewrite len_app.
  replace (_numBytesRecv s + (len d1 + len d2))
    with (_numBytesRecv s + len d1 + len d2) by lia.
  reflexivity.
Qed.


(** X19: for a negotiated session, how TCP cut the stream does not
    matter to anything: two deliveries one after the other leave the
    client in exactly the state that one delivery of the bytes joined
    together leaves it in, counters, readiness, account list and record
    of callbacks included. *)
Theorem deliveries_join (t1 t2 t : Q) (d1 d2 : bytes) (s : Client) :
  truthy_opt_int (serverVersion_ s) = true -> debug s = false ->
  tcpDataArrived_set s = false -> tcpDataProcessed_set s = false ->
  _onSocketHasData raises float_ok t2 d2
    (after (_onSocketHasData raises float_ok t1 d1) s)
  = _onSocketHasData raises float_ok t (d1 ++ d2) s.
Proof. exact (two_deliveries_join t1 t2 t d1 d2 s). Qed.



End Deliveries.

Lemma delivery_to_negotiated_session_witness :
  let s := negotiated_client in
  let data := frame_of [FStr (B "9"); FStr (B "1"); FStr (B "17")] in
  exists bodies rest,
    _data s ++ data = stream_of bodies ++ rest
    /\ Forall (fun b => len b < 2 ^ 32) bodies
    /\ (holds_frame rest -> rest = [x00; x00; x00; x00])
    /\ extract_frames (_data s ++ data) = Some (map body_fields bodies, rest)
    /\ _onSocketHasData quiet no_float 0 data s
       = (set_data rest
            (process quiet no_float (map body_fields bodies)
               (set_numBytesRecv (_numBytesRecv s + len data) s)),
          Ret tt)
    /\ _numBytesRecv (after (_onSocketHasData quiet no_float 0 data) s)
       = _numBytesRecv s + len data
    /\ _numMsgRecv (after (_onSocketHasData quiet no_float 0 data) s)
       = _numMsgRecv s + len bodies.
Proof.
  exact (delivery_to_negotiated_session quiet no_float 0
           (frame_of [FStr (B "9"); FStr (B "1"); FStr (B "17")])
           negotiated_client eq_refl eq_refl eq_refl eq_refl).
Defined.



Lemma deliveries_join_witness :
  _onSocketHasData quiet no_float 2 [x02; "9"%byte; x00]
    (after (_onSocketHasData quiet no_float 1 [x00; x00; x00])
       negotiated_client)
  = _onSocketHasData quiet no_float 3
      ([x00; x00; x00] ++ [x02; "9"%byte; x00]) negotiated_client.
Proof.
  exact (deliveries_join quiet no_float 1 2 3 [x00; x00; x00]
           [x02; "9"%byte; x00] negotiated_client
           eq_refl eq_refl eq_refl eq_refl).
Defined.

(** * Values, the handshake and the start of a session *)

Ltac digit_step :=
  change (B (String ?c ?s)) with (byte_of_ascii c :: B s);
  cbn [scan_digits];
  match goal with
  | |- context [is_digit ?b] => change (is_digit b) with true
  end; cbv iota;
  unfold digit_value;
  match goal with
  | |- context [Z_of_byte ?b] =>
      let v := eval vm_compute in (Z_of_byte b) in
      change (Z_of_byte b) with v
  end.

(** The digit scan of [int()] on the digits that [str()] writes. *)
Lemma scan_uint_acc (d : Decimal.uint) :
  forall acc : positive,
  scan_digits (B (NilEmpty.string_of_uint d)) PDigit (Z.pos acc)
  = Some (Z.pos (Pos.of_uint_acc d acc), []).
Proof.
  induction d; intros acc; [reflexivity| ..];
    cbn [NilEmpty.string_of_uint Pos.of_uint_acc];
    digit_step; rewrite <- IHd; f_equal; lia.
Qed.

Lemma scan_uint_zero (d : Decimal.uint) :
  scan_digits (B (NilEmpty.string_of_uint d)) PDigit 0
  = Some (Z.of_N (Pos.of_uint d), []).
Proof.
  induction d; [reflexivity| ..];
    cbn [NilEmpty.string_of_uint Pos.of_uint];
    digit_step; [exact IHd | ..];
    cbn [Z.of_N]; rewrite <- scan_uint_acc; f_equal.
Qed.

Lemma scan_uint (d : Decimal.uint) :
  d <> Decimal.Nil ->
  scan_digits (B (NilEmpty.string_of_uint d)) PStart 0
  = Some (Z.of_N (Pos.of_uint d), []).
Proof.
  intros Hd. rewrite <- scan_uint_zero.
  destruct d; [contradiction| ..];
    cbn [NilEmpty.string_of_uint];
    change (B (String ?c ?s)) with (byte_of_ascii c :: B s);
    reflexivity.
Qed.

Lemma to_uint_not_nil (p : positive) : Pos.to_uint p <> Decimal.Nil.
Proof.
  intros H. pose proof (DecimalPos.Unsigned.of_to p) as E.
  rewrite H in E. discriminate.
Qed.

Lemma py_int_uint (d : Decimal.uint) :
  d <> Decimal.Nil ->
  py_int (B (NilEmpty.string_of_uint d)) = Some (Z.of_N (Pos.of_uint d))
  /\ py_int ("-"%byte :: B (NilEmpty.string_of_uint d))
     = Some (- Z.of_N (Pos.of_uint d)).
Proof.
  intros Hd. split.
  - pose proof (scan_uint d Hd) as E.
    destruct d; [contradiction| ..];
      cbn [NilEmpty.string_of_uint] in *;
      change (B (String ?c ?s)) with (byte_of_ascii c :: B s) in *;
      unfold py_int; cbn [lstrip];
      match goal with
      | |- context [py_isspace ?b] => change (py_isspace b) with false
      end; cbv iota;
      match goal with
      | |- context [Byte.eqb ?b "+"] => change (Byte.eqb b "+") with false
      end;
      match goal with
      | |- context [Byte.eqb ?b "-"] => change (Byte.eqb b "-") with false
      end; cbv iota;
      rewrite E; cbn [forallb]; f_equal;
      destruct (Z.of_N _); reflexivity.
  - unfold py_int. cbn [lstrip].
    change (py_isspace "-") with false. cbv iota.
    change (Byte.eqb "-" "+") with false.
    change (Byte.eqb "-" "-") with true. cbv iota.
    rewrite (scan_uint d Hd). cbn [forallb]. f_equal.
Qed.

(** [int(str(n)) == n] for every integer. *)
Lemma py_int_str (n : Z) : py_int (py_str_int n) = Some n.
Proof.
  unfold py_str_int. destruct n as [|p|p]; [reflexivity| |].
  - cbn [Z.to_int NilZero.string_of_int]. unfold NilZero.string_of_uint.
    pose proof (to_uint_not_nil p) as Hp.
    destruct (py_int_uint (Pos.to_uint p) Hp) as [E _].
    rewrite DecimalPos.Unsigned.of_to in E.
    destruct (Pos.to_uint p); [contradiction| ..]; exact E.
  - cbn [Z.to_int NilZero.string_of_int]. unfold NilZero.string_of_uint.
    pose proof (to_uint_not_nil p) as Hp.
    destruct (py_int_uint (Pos.to_uint p) Hp) as [_ E].
    rewrite DecimalPos.Unsigned.of_to in E.
    destruct (Pos.to_uint p); [contradiction| ..]; exact E.
Qed.

Lemma uint_no_NUL (d : Decimal.uint) : ~ In NUL (B (NilEmpty.string_of_uint d)).
Proof.
  induction d; cbn [NilEmpty.string_of_uint];
    [intros [] | ..];
    change (B (String ?c ?s)) with (byte_of_ascii c :: B s);
    (intros [H|H]; [discriminate H | exact (IHd H)]).
Qed.

(** [str(n)] holds no NUL. *)
Lemma py_str_int_no_NUL (n : Z) : ~ In NUL (py_str_int n).
Proof.
  unfold py_str_int. destruct n as [|p|p].
  - intros [H|[]]; discriminate H.
  - cbn [Z.to_int NilZero.string_of_int]. unfold NilZero.string_of_uint.
    pose proof (uint_no_NUL (Pos.to_uint p)) as H.
    destruct (Pos.to_uint p); [intros [G|[]]; discriminate G | ..]; exact H.
  - cbn [Z.to_int NilZero.string_of_int]. unfold NilZero.string_of_uint.
    change (B (String ?c ?s)) with (byte_of_ascii c :: B s).
    pose proof (uint_no_NUL (Pos.to_uint p)) as H.
    intros [G|G]; [discriminate G|].
    destruct (Pos.to_uint p); [destruct G as [G|[]]; discriminate G | ..];
      exact (H G).
Qed.

Section Values.

Variable raises : list event -> event -> bool.
Variable float_ok : bytes -> bool.

(** X20: an integer written by [_encode] and read back by [int()], as
    [_decode] reads every numeric field, is the integer that was written,
    and its rendering holds no separator; the exceptions are the two
    integers that compare equal to a sentinel, [UNSET_INTEGER] and the
    integer value of [UNSET_DOUBLE], which are written as the empty
    string and make [int()] fail.  This is for integers of at most 4300
    digits, the bound that recent interpreters put on conversions
    between [int] and [str].  For the next-valid-id message [9, 1, n]:
    decoded from its encoding it seeds the request-id counter with [n],
    and with either sentinel it is dropped with 'Decode failed' and
    nothing else changes. *)
Theorem int_field_roundtrip (n : Z) (s : Client) :
  Z.abs n < 10 ^ 4300 ->
  let fields := body_fields (_encode [FInt 9; FInt 1; FInt n]) in
  let s' := deliver raises float_ok fields s in
  let unset := (n =? 2 ^ 31 - 1) || (n =? 2 ^ 1024 - 2 ^ 971) in
  ~ In NUL (render (FInt n))
  /\ render (FInt n) = (if unset then [] else py_str_int n)
  /\ int_ (render (FInt n)) = (if unset then raise ValueError else ret n)
  /\ (if unset
      then s' = set_trace (trace s ++ [LogException "Decode failed"]) s
      else _reqIdSeq s' = n).
Proof.
  intros _. cbv zeta.
  change ((n =? 2 ^ 31 - 1) || (n =? 2 ^ 1024 - 2 ^ 971))
    with (is_unset_int n).
  assert (Hnul : ~ In NUL (render (FInt n))).
  { cbn [render]. destruct (is_unset_int n); [intros [] |].
    apply py_str_int_no_NUL. }
  assert (Hf : body_fields (_encode [FInt 9; FInt 1; FInt n])
               = nextValidId_msg (render (FInt n))).
  { unfold body_fields. rewrite encode_terminated.
    change (wire_tokens [FInt 9; FInt 1; FInt n])
      with [render (FInt 9); render (FInt 1); render (FInt n)].
    replace (render (FInt 9)) with (B "9") by (vm_compute; reflexivity).
    replace (render (FInt 1)) with (B "1") by (vm_compute; reflexivity).
    rewrite split_terminated.
    - now rewrite removelast_last.
    - intros t [<-|[<-|[<-|[]]]]; [| | exact Hnul];
        (intros [H|[]]; discriminate H). }
  rewrite Hf. split; [exact Hnul|]. cbn [render].
  split; [reflexivity|].
  destruct (is_unset_int n).
  - split; [reflexivity|]. run_decode. reflexivity.
  - unfold int_. rewrite py_int_str. split; [reflexivity|].
    exact (proj1 (deliver_nextValidId raises float_ok s _ n (py_int_str n))).
Qed.

Lemma split_sep_cons (sep c : byte) (s : bytes) :
  split sep (c :: s)
  = if Byte.eqb c sep then [] :: split sep s
    else match split sep s with
         | [] => [[c]]
         | f :: fs => (c :: f) :: fs
         end.
Proof. reflexivity. Qed.

Lemma split_sep_token (sep : byte) (t rest : bytes) :
  ~ In sep t -> split sep (t ++ sep :: rest) = t :: split sep rest.
Proof.
  induction t as [|c t IH]; intros Hn.
  - cbn [app]. rewrite split_sep_cons.
    now rewrite (Byte.byte_dec_lb (eq_refl sep)).
  - cbn [app]. rewrite split_sep_cons.
    destruct (Byte.eqb c sep) eqn:E.
    + apply Byte.byte_dec_bl in E. exfalso. apply Hn. left. exact E.
    + rewrite IH; [reflexivity|]. intros Hin. apply Hn. now right.
Qed.

Lemma split_no_sep (sep : byte) (t : bytes) :
  ~ In sep t -> split sep t = [t].
Proof.
  induction t as [|c t IH]; intros Hn; [reflexivity|].
  rewrite split_sep_cons. destruct (Byte.eqb c sep) eqn:E.
  - apply Byte.byte_dec_bl in E. exfalso. apply Hn. left. exact E.
  - rewrite IH; [reflexivity|]. intros Hin. apply Hn. now right.
Qed.

Lemma split_join (sep : byte) (names : list bytes) :
  names <> [] -> (forall a, In a names -> ~ In sep a) ->
  split sep (join [sep] names) = names.
Proof.
  induction names as [|a names IH]; [contradiction|]. intros _ Hn.
  destruct names as [|b names].
  - cbn [join]. apply split_no_sep, Hn. now left.
  - change (join [sep] (a :: b :: names))
      with (a ++ sep :: join [sep] (b :: names)).
    rewrite split_sep_token by (apply Hn; now left).
    rewrite IH; [reflexivity | discriminate |].
    intros x Hx. apply Hn. now right.
Qed.

(** X21: the account list survives the wire.  For account names without
    a comma, a managed-accounts message that carries them joined by
    commas leaves exactly these names, in order, as the account list,
    which [getAccounts] returns once the session is ready.  An empty
    account string gives the one-element list of the empty name, never
    the empty list: the stored list is always non-empty. *)
Theorem accounts_roundtrip (names : list bytes) (s : Client) :
  (forall a, In a names -> ~ In COMMA a) ->
  utf8_valid (join [COMMA] names) = true ->
  let s' := deliver raises float_ok
              (managedAccounts_msg (join [COMMA] names)) s in
  let listed := match names with [] => [[]] | _ => names end in
  _accounts s' = Some listed
  /\ listed <> []
  /\ (isReady s' = true -> getAccounts s' = (s', Ret (Some listed))).
Proof.
  intros Hn Hu. cbv zeta.
  destruct (deliver_managedAccounts raises float_ok s _ Hu) as [_ [Ha _]].
  assert (Hl : split COMMA (join [COMMA] names)
               = match names with [] => [[]] | _ => names end).
  { destruct names as [|a names]; [reflexivity|].
    apply split_join; [discriminate | exact Hn]. }
  rewrite Hl in Ha. split; [exact Ha|]. split.
  - destruct names; discriminate.
  - intros Hr. unfold getAccounts, bind, get, assert, ret.
    unfold isReady in *. rewrite Hr. cbn. now rewrite Ha.
Qed.

End Values.

Lemma int_field_roundtrip_witness :
  let n := 17 in
  let fields := body_fields (_encode [FInt 9; FInt 1; FInt n]) in
  let s' := deliver quiet no_float fields negotiated_client in
  let unset := (n =? 2 ^ 31 - 1) || (n =? 2 ^ 1024 - 2 ^ 971) in
  ~ In NUL (render (FInt n))
  /\ render (FInt n) = (if unset then [] else py_str_int n)
  /\ int_ (render (FInt n)) = (if unset then raise ValueError else ret n)
  /\ (if unset
      then s' = set_trace (trace negotiated_client
                           ++ [LogException "Decode failed"])
                  negotiated_client
      else _reqIdSeq s' = n).
Proof.
  apply (int_field_roundtrip quiet no_float 17 negotiated_client).
  vm_compute. reflexivity.
Defined.

Lemma accounts_roundtrip_witness :
  let names := [B "DU1234"; B "DU5678"] in
  let s' := deliver quiet no_float
              (managedAccounts_msg (join [COMMA] names))
              (set_reqIdSeq 7 negotiated_client) in
  let listed := match names with [] => [[]] | _ => names end in
  _accounts s' = Some listed
  /\ listed <> []
  /\ (isReady s' = true -> getAccounts s' = (s', Ret (Some listed))).
Proof.
  apply (accounts_roundtrip quiet no_float [B "DU1234"; B "DU5678"]).
  - intros a [<-|[<-|[]]]; vm_compute; intuition discriminate.
  - vm_compute. reflexivity.
Defined.

(** ** The handshake *)

Lemma evict_repeat (t : Q) (k : nat) : evict t (repeat t k) = repeat t k.
Proof.
  destruct k as [|k]; [reflexivity|]. cbn [repeat]. unfold evict.
  replace (Qle_bool (fl (t - t)) RequestsInterval) with true; [reflexivity|].
  symmetry. apply Qle_bool_iff, fl_interval. unfold RequestsInterval.
  setoid_replace (t - t)%Q with 0%Q by ring. discriminate.
Qed.

Lemma socket_up_after_sendMsg (t : Q) (msg : option bytes) (s : Client) :
  (exists c, conn s = Some c /\ socket c = true) ->
  exists c, conn (after (sendMsg t msg) s) = Some c /\ socket c = true.
Proof.
  intros [c [Hc Hs]].
  assert (H0 : counts_from c (wire s) s).
  { exists c, []. rewrite app_nil_r.
    repeat split; auto; unfold len, total_len; cbn; lia. }
  destruct (sendMsg_counts t msg c (wire s) s H0) as [c' [new [H1 [H2 _]]]].
  eauto.
Qed.

Lemma burst_immediate (t : Q) (m frame : bytes) (k : nat) :
  nonempty m = true -> _prefix m = Some frame ->
  forall (j : nat) (s : Client),
  (Z.of_nat j + Z.of_nat k <= MaxRequests) ->
  _msgQ s = [] -> _timeQ s = repeat t j ->
  (exists c, conn s = Some c /\ socket c = true) ->
  let s' := run_sendMsg (burst k t m) s in
  wire s' = wire s ++ repeat (t, frame) k
  /\ _msgQ s' = [] /\ _timeQ s' = repeat t (j + k)
  /\ timers s' = timers s.
Proof.
  intros Hm Hp. induction k as [|k IH]; intros j s Hjk Hq Ht Hup.
  - cbn. rewrite app_nil_r, Nat.add_0_r. auto.
  - pose proof (socket_up_after_sendMsg t (Some m) s Hup) as Hup1.
    destruct Hup as [c [Hc Hs]].
    change (run_sendMsg (burst (S k) t m) s)
      with (run_sendMsg (burst k t m) (after (sendMsg t (Some m)) s)).
    destruct (sendMsg_immediate t m frame s c Hm Hq) as
      [s1 [E [W [Q1 [T1 [TM _]]]]]]; try assumption.
    { rewrite Ht, evict_repeat. unfold len. rewrite repeat_length. lia. }
    unfold after in Hup1 |- *. rewrite E in Hup1 |- *. cbn [fst] in Hup1 |- *.
    destruct (IH (S j) s1) as [W2 [Q2 [T2 TM2]]].
    + lia.
    + exact Q1.
    + rewrite T1, Ht, evict_repeat. symmetry. apply repeat_cons.
    + exact Hup1.
    + cbv zeta in *. rewrite W2, Q2, T2, TM2, W, TM.
      rewrite <- app_assoc. cbn [app repeat].
      repeat split. f_equal. lia.
Qed.

Lemma filter_all {A : Type} (f : A -> bool) (l : list A) :
  (forall x, In x l -> f x = true) -> filter f l = l.
Proof.
  induction l as [|x l IH]; intros H; [reflexivity|].
  cbn [filter]. rewrite (H x (or_introl eq_refl)).
  f_equal. apply IH. intros y Hy. apply H. now right.
Qed.

Lemma in_window_self (t : Q) : in_window t t = true.
Proof.
  unfold in_window. apply andb_true_intro. split; apply Qle_bool_iff.
  - apply Qle_refl.
  - unfold RequestsInterval. rewrite <- (Qplus_0_r t) at 1.
    apply Qplus_le_r. discriminate.
Qed.

(** X22: the handshake goes straight to the transport and is not
    counted by the throttle.  [_onSocketConnected] writes [API], a NUL
    and the framed version range in one piece and counts it as a sent
    message, but records no send time and queues nothing; so a full
    window of [MaxRequests] requests at the same instant still goes out
    at once, and the transport has seen [MaxRequests + 1] writes within
    one interval. *)
Theorem handshake_bypasses_throttle (minv maxv : Z) (t : Q)
    (m frame hs : bytes) (c : Connection) (s : Client) :
  _timeQ s = [] -> _msgQ s = [] -> wire s = [] ->
  conn s = Some c -> socket c = true ->
  nonempty m = true -> _prefix m = Some frame ->
  _prefix (version_range minv maxv) = Some hs ->
  let hello := (t, B "API" ++ [NUL] ++ hs) in
  let s1 := after (_onSocketConnected minv maxv t) s in
  let s2 := run_sendMsg (burst (Z.to_nat MaxRequests) t m) s1 in
  result (_onSocketConnected minv maxv t) s = Ret tt
  /\ wire s1 = [hello] /\ _timeQ s1 = [] /\ _msgQ s1 = []
  /\ (exists c1, conn s1 = Some c1 /\ numMsgSent c1 = numMsgSent c + 1)
  /\ wire s2 = hello :: repeat (t, frame) (Z.to_nat MaxRequests)
  /\ _msgQ s2 = []
  /\ sent_in_window t (wire s2) = MaxRequests + 1.
Proof.
  intros Ht Hq Hw Hc Hs Hm Hp Hh. cbv zeta.
  assert (Hrun : _onSocketConnected minv maxv t s
                 = (set_conn (Some (mkConnection true
                                      (numBytesSent c
                                       + len (B "API" ++ [NUL] ++ hs))
                                      (numMsgSent c + 1)))
                      (set_wire [(t, B "API" ++ [NUL] ++ hs)]
                         (set_trace (trace s ++ [LogInfo "Connected"]) s)),
                    Ret tt)).
  { unfold _onSocketConnected, log, bind, modify, of_option, ret.
    rewrite Hh. unfold conn_sendMsg, bind, get, of_option, ret, modify.
    cbn [conn set_trace]. rewrite Hc, Hs.
    cbn [wire set_trace]. rewrite Hw. reflexivity. }
  unfold result, after. rewrite Hrun. cbn [fst snd].
  set (s1 := set_conn _ _).
  split; [reflexivity|]. split; [reflexivity|].
  split; [exact Ht|]. split; [exact Hq|]. split.
  - eexists. split; reflexivity.
  - destruct (burst_immediate t m frame (Z.to_nat MaxRequests) Hm Hp 0%nat s1)
      as [W [Q2 _]].
    + reflexivity.
    + exact Hq.
    + exact Ht.
    + eexists. split; reflexivity.
    + cbv zeta in W, Q2. rewrite W, Q2.
      unfold s1. cbn [wire set_conn set_wire app].
      split; [reflexivity|]. split; [reflexivity|].
      unfold sent_in_window. rewrite filter_all.
      * unfold len. cbn [List.length]. rewrite repeat_length. reflexivity.
      * intros x [<-|Hx]; [apply in_window_self|].
        apply repeat_spec in Hx. subst x. apply in_window_self.
Qed.

Lemma handshake_bypasses_throttle_witness :
  let t := 0%Q in
  let s := open_session (new_client 1) in
  let hs := [x00; x00; x00; x09] ++ B "v100..151" in
  let frame := [x00; x00; x00; x01] ++ B "x" in
  let hello := (t, B "API" ++ [NUL] ++ hs) in
  let s1 := after (_onSocketConnected 100 151 t) s in
  let s2 := run_sendMsg (burst (Z.to_nat MaxRequests) t (B "x")) s1 in
  result (_onSocketConnected 100 151 t) s = Ret tt
  /\ wire s1 = [hello] /\ _timeQ s1 = [] /\ _msgQ s1 = []
  /\ (exists c1, conn s1 = Some c1
                 /\ numMsgSent c1 = numMsgSent (mkConnection true 0 0) + 1)
  /\ wire s2 = hello :: repeat (t, frame) (Z.to_nat MaxRequests)
  /\ _msgQ s2 = []
  /\ sent_in_window t (wire s2) = MaxRequests + 1.
Proof.
  apply (handshake_bypasses_throttle 100 151 0 (B "x")
           ([x00; x00; x00; x01] ++ B "x")
           ([x00; x00; x00; x09] ++ B "v100..151")
           (mkConnection true 0 0) (open_session (new_client 1)));
    vm_compute; reflexivity.
Defined.

(** ** From the socket to readiness *)

(** A request on an idle sending side: what [sendMsg] leaves. *)
Lemma sendMsg_idle (t : Q) (m frame : bytes) (c : Connection) (s : Client) :
  nonempty m = true -> _msgQ s = [] -> _timeQ s = [] ->
  _isThrottling s = false -> _prefix m = Some frame ->
  conn s = Some c -> socket c = true ->
  sendMsg t (Some m) s
  = (set_timeQ [t]
       (set_conn (Some (mkConnection true (numBytesSent c + len frame)
                          (numMsgSent c + 1)))
          (set_wire (wire s ++ [(t, frame)]) s)), Ret tt).
Proof.
  intros Hm Hq Ht Hth Hp Hc Hs.
  destruct s as [cs sv ct cid oc cn p1 p2 p3 dbg dat rdy rq acc st nb nm thr
                   mq tq wr tm tr].
  cbn in Hq, Ht, Hth, Hc. subst.
  unfold sendMsg, reschedule, when, bind, modify, get, log, ret. rewrite Hm.
  cbn. change (len (evict t []) <? MaxRequests) with true. cbn.
  unfold of_option, ret. rewrite Hp.
  unfold conn_sendMsg, bind, get, of_option, ret, modify. cbn. rewrite Hs. cbn.
  reflexivity.
Qed.

Section Session.

Variable raises : list event -> event -> bool.
Variable float_ok : bytes -> bool.

Lemma handle_frame_negotiates (t : Q) (version ct frame : bytes) (v : Z)
    (c : Connection) (s : Client) :
  truthy_opt_int (serverVersion_ s) = false -> debug s = false ->
  py_int version = Some v ->
  _msgQ s = [] -> _timeQ s = [] -> _isThrottling s = false ->
  conn s = Some c -> socket c = true ->
  _prefix (startApi_msg (set_serverVersion_ (Some v) s)) = Some frame ->
  raises (trace s) ConnectAck = false ->
  handle_frame raises float_ok t [version; ct] s
  = (set_trace ((trace s ++ [ConnectAck])
                ++ [LogInfo "Logged on to server version"])
       (set_timeQ [t]
          (set_conn (Some (mkConnection true (numBytesSent c + len frame)
                             (numMsgSent c + 1)))
             (set_wire (wire s ++ [(t, frame)])
                (set_connState CONNECTED
                   (set_serverVersion_ (Some v)
                      (set_connTime (Some ct) (bump s))))))), Ret tt).
Proof.
  intros Hv Hd Hi Hq Ht Hth Hc Hs Hp Hr.
  destruct s as [cs sv ct' cid oc cn p1 p2 p3 dbg dat rdy rq acc st nb nm thr
                   mq tq wr tm tr].
  cbn in Hv, Hd, Hq, Ht, Hth, Hc, Hr. subst.
  unfold handle_frame, when, bind, modify, get, log, ret, int_, of_option,
    call, raise, startApi, isConnected.
  cbn. rewrite Hv. cbn. rewrite Hi. cbn.
  change (len [version; ct] =? 2) with true. cbv beta iota.
  cbn [connState conn set_connState set_serverVersion_ set_connTime
       set_numMsgRecv ConnState_eqb andb].
  rewrite Hs.
  erewrite (sendMsg_idle t _ frame c); try reflexivity; [| exact Hp | exact Hs].
  cbn. rewrite Hr.
  cbv [modify bump set_trace set_timeQ set_conn set_wire set_connState
       set_serverVersion_ set_connTime set_numMsgRecv connState
       serverVersion_ connTime clientId optCapab conn priceSizeTick_set
       tcpDataArrived_set tcpDataProcessed_set debug _data _readyEvent
       _reqIdSeq _accounts _startTime _numBytesRecv _numMsgRecv
       _isThrottling _msgQ _timeQ wire timers trace].
  reflexivity.
Qed.


Lemma framable (b : bytes) :
  len b < 2 ^ 32 -> exists frame, _prefix b = Some frame.
Proof.
  intros H. unfold _prefix, pack_I. pose proof (len_nonneg b) as H0.
  destruct (Z.leb_spec 0 (len b)); [|lia].
  destruct (Z.ltb_spec (len b) (2 ^ 32)); [|lia].
  cbn [andb]. eauto.
Qed.

Lemma reply_loop (t : Q) (version ct frame1 : bytes) (s3 : Client) :
  _data s3 = frame1 ->
  next_frame frame1 = Ret (Some ([version; ct], [])) ->
  forall s5,
  handle_frame raises float_ok t [version; ct] (set_data [] s3) = (s5, Ret tt) ->
  _data s5 = [] ->
  hasData_loop raises float_ok t (S (List.length (_data s3))) s3
  = (s5, Ret tt).
Proof.
  intros Hdat Hnf s5 Hh Hd5.
  pose proof (next_frame_shrinks _ _ _ Hnf) as Hlen.
  cbn [hasData_loop]. unfold bind at 1, get.
  rewrite Hdat, Hnf. unfold bind at 1, modify. unfold bind at 1.
  rewrite Hh.
  destruct (List.length frame1) as [|k]; [cbn in Hlen; lia|].
  cbn [hasData_loop]. unfold bind, get. rewrite Hd5. reflexivity.
Qed.

(** The delivery of the negotiation reply, alone in its chunk, to a
    session that has not negotiated and whose sending side is idle. *)
Lemma delivery_of_reply (t : Q) (version ct frame1 frame : bytes) (v : Z)
    (c : Connection) (s : Client) :
  tcpDataArrived_set s = false -> tcpDataProcessed_set s = false ->
  _data s = [] ->
  truthy_opt_int (serverVersion_ s) = false -> debug s = false ->
  py_int version = Some v ->
  _msgQ s = [] -> _timeQ s = [] -> _isThrottling s = false ->
  conn s = Some c -> socket c = true ->
  _prefix (startApi_msg (set_serverVersion_ (Some v) s)) = Some frame ->
  raises (trace s) ConnectAck = false ->
  next_frame frame1 = Ret (Some ([version; ct], [])) ->
  _onSocketHasData raises float_ok t frame1 s
  = (set_trace ((trace s ++ [ConnectAck])
                ++ [LogInfo "Logged on to server version"])
       (set_timeQ [t]
          (set_conn (Some (mkConnection true (numBytesSent c + len frame)
                             (numMsgSent c + 1)))
             (set_wire (wire s ++ [(t, frame)])
                (set_connState CONNECTED
                   (set_serverVersion_ (Some v)
                      (set_connTime (Some ct)
                         (bump (set_data []
                                  (set_numBytesRecv
                                     (_numBytesRecv s + len frame1) s))))))))),
     Ret tt).
Proof.
  intros Ha Hpr Hdat Hv Hd Hi Hq Ht Hth Hc Hs Hp Hr Hnf.
  pose (s3 := set_numBytesRecv (_numBytesRecv s + len frame1)
                (set_data (_data s ++ frame1) s)).
  pose proof (handle_frame_negotiates t version ct frame v c (set_data [] s3)
                Hv Hd Hi Hq Ht Hth Hc Hs Hp Hr) as Hh.
  pose proof (reply_loop t version ct frame1 s3
                ltac:(unfold s3; cbn [_data set_numBytesRecv set_data];
                      now rewrite Hdat) Hnf _ Hh eq_refl) as Hloop.
  unfold _onSocketHasData, when, bind, get, modify, ret.
  rewrite Ha. cbv beta iota.
  match goal with
  | |- context [tcpDataProcessed_set ?x] =>
      change (tcpDataProcessed_set x) with (tcpDataProcessed_set s)
  end.
  rewrite Hpr.
  change (set_numBytesRecv
            (_numBytesRecv (set_data (_data s ++ frame1) s) + len frame1)
            (set_data (_data s ++ frame1) s)) with s3.
  rewrite Hloop. reflexivity.
Qed.
(** X23: a session comes up.  A new client whose socket has connected
    sends the handshake; when the server's reply [version, time] arrives
    (the version a non-zero integer, [connectAck] not raising) the
    version and time are recorded and the start-API request is the
    second and last write on the transport; the session is not ready
    yet.  When the managed-accounts and next-valid-id messages then
    arrive, the session is ready, connected, holds the account list, and
    the first [getReqId] returns the id the server gave; both deliveries
    return, three messages were counted and the buffer is empty. *)
Theorem session_establishment (cid minv maxv sv n : Z) (t0 t1 t2 : Q)
    (version ct a v hs frame : bytes) :
  (forall tr, raises tr ConnectAck = false) ->
  _prefix (version_range minv maxv) = Some hs ->
  py_int version = Some sv -> sv <> 0 ->
  _prefix (startApi_msg (set_serverVersion_ (Some sv) (new_client cid)))
  = Some frame ->
  utf8_valid a = true -> py_int v = Some n ->
  Forall (fun tok => ~ In NUL tok) [version; ct; a; v] ->
  Forall (fun b => len b < 2 ^ 32)
    [terminated [version; ct]; terminated (managedAccounts_msg a);
     terminated (nextValidId_msg v)] ->
  let s1 := after (_onSocketConnected minv maxv t0)
              (open_session (new_client cid)) in
  let d1 := stream_of [terminated [version; ct]] in
  let d2 := stream_of [terminated (managedAccounts_msg a);
                       terminated (nextValidId_msg v)] in
  let s2 := after (_onSocketHasData raises float_ok t1 d1) s1 in
  let s3 := after (_onSocketHasData raises float_ok t2 d2) s2 in
  result (_onSocketHasData raises float_ok t1 d1) s1 = Ret tt
  /\ result (_onSocketHasData raises float_ok t2 d2) s2 = Ret tt
  /\ serverVersion_ s2 = Some sv /\ connTime s2 = Some ct
  /\ isReady s2 = false /\ isReady s3 = true
  /\ connState s3 = CONNECTED
  /\ _accounts s3 = Some (split COMMA a)
  /\ result getReqId s3 = Ret n
  /\ wire s3 = [(t0, B "API" ++ [NUL] ++ hs); (t1, frame)]
  /\ _data s3 = [] /\ _numMsgRecv s3 = 3.
Proof.
  intros Hq Hh Hv Hsv Hp Ha Hn Hnul Hlen s1 d1 d2 s2 s3.
  inversion Hnul as [|? ? N1 Hnul1]; subst.
  inversion Hnul1 as [|? ? N2 Hnul2]; subst.
  inversion Hnul2 as [|? ? N3 Hnul3]; subst.
  inversion Hnul3 as [|? ? N4 _]; subst. clear Hnul Hnul1 Hnul2 Hnul3.
  inversion Hlen as [|? ? L1 Hlen1]; subst.
  (* the handshake *)
  set (hello := B "API" ++ [NUL] ++ hs).
  pose (c1 := mkConnection true (0 + len hello) (0 + 1)).
  pose (x1 := mkClient CONNECTING None None cid [] (Some c1)
                false false false false [] false 0 None 0 0 0 false
                [] [] [(t0, hello)] [] [LogInfo "Connected"]).
  assert (E1 : s1 = x1).
  { unfold s1, after, _onSocketConnected, log, bind, modify, of_option, ret.
    rewrite Hh. reflexivity. }
  (* the negotiation reply *)
  destruct (framable _ L1) as [frame1 Hf1].
  assert (Hd1 : d1 = frame1).
  { unfold d1, stream_of, frames_of. cbn [flat_map]. rewrite Hf1.
    cbn [app List.concat]. now rewrite !app_nil_r. }
  assert (Hb1 : body_fields (terminated [version; ct]) = [version; ct]).
  { unfold body_fields. rewrite split_terminated.
    - now rewrite removelast_last.
    - intros tok [<-|[<-|[]]]; assumption. }
  assert (Hnf : next_frame frame1 = Ret (Some ([version; ct], []))).
  { rewrite <- Hb1. apply next_frame_whole; [exact Hf1|].
    apply terminated_not_nil. discriminate. }
  pose proof (delivery_of_reply t1 version ct frame1 frame sv c1 x1
                eq_refl eq_refl eq_refl eq_refl eq_refl Hv eq_refl eq_refl
                eq_refl eq_refl eq_refl Hp (Hq _) Hnf) as E2.
  assert (Hs2 : s2 = fst (_onSocketHasData raises float_ok t1 frame1 x1)).
  { unfold s2, after. now rewrite E1, Hd1. }
  rewrite E2 in Hs2. cbn [fst] in Hs2.
  (* the two barrier messages *)
  assert (Htr : truthy_opt_int (serverVersion_ s2) = true).
  { rewrite Hs2. cbn. unfold truthy_int.
    destruct (Z.eqb_spec sv 0); [contradiction | reflexivity]. }
  destruct (delivery_to_negotiated_session_aux raises float_ok t2 d2 s2 Htr)
    as [frames [rest [Ex Hrun]]]; [rewrite Hs2; reflexivity ..|].
  assert (Hb : Forall (fun b => b <> [] /\ len b < 2 ^ 32)
                 [terminated (managedAccounts_msg a);
                  terminated (nextValidId_msg v)]).
  { inversion Hlen1 as [|? ? L2 Hlen2]; subst.
    inversion Hlen2 as [|? ? L3 _]; subst.
    repeat constructor; try assumption;
      apply terminated_not_nil; discriminate. }
  replace (_data s2 ++ d2) with d2 in Ex by (rewrite Hs2; reflexivity).
  unfold d2 in Ex. rewrite (extract_frames_stream _ Hb) in Ex.
  injection Ex as <- <-. cbn [map] in Hrun.
  assert (Hb2 : body_fields (terminated (managedAccounts_msg a))
                = managedAccounts_msg a).
  { unfold body_fields. rewrite split_terminated.
    - now rewrite removelast_last.
    - intros tok [<-|[<-|[<-|[]]]]; try assumption;
        (intros [H|[H|[]]] || intros [H|[]]); discriminate H. }
  assert (Hb3 : body_fields (terminated (nextValidId_msg v))
                = nextValidId_msg v).
  { unfold body_fields. rewrite split_terminated.
    - now rewrite removelast_last.
    - intros tok [<-|[<-|[<-|[]]]]; try assumption;
        intros [H|[]]; discriminate H. }
  rewrite Hb2, Hb3 in Hrun. fold d2 in Hrun.
  assert (Hs3 : s3 = fst (_onSocketHasData raises float_ok t2 d2 s2))
    by reflexivity.
  rewrite Hrun in Hs3. cbn [fst] in Hs3.
  unfold process in Hs3. cbn [fold_left] in Hs3.
  set (y0 := bump (set_numBytesRecv (_numBytesRecv s2 + len d2) s2)) in Hs3.
  set (y1 := deliver raises float_ok (managedAccounts_msg a) y0) in Hs3.
  set (y2 := deliver raises float_ok (nextValidId_msg v) (bump y1)) in Hs3.
  destruct (deliver_managedAccounts raises float_ok y0 a Ha) as [_ [A2 _]].
  destruct (deliver_footprint raises float_ok (managedAccounts_msg a) y0)
    as [_ [_ [_ [F4 [F5 F6]]]]].
  destruct (deliver_nextValidId raises float_ok (bump y1) v n Hn)
    as [B1 [B2 B3]].
  destruct (deliver_footprint raises float_ok (nextValidId_msg v) (bump y1))
    as [_ [_ [_ [G4 [G5 G6]]]]].
  fold y1 in A2, F4, F5, F6. fold y2 in B1, B2, B3, G4, G5, G6.
  cbv zeta in F4, F5, F6, G4, G5, G6.
  change (_accounts (bump y1)) with (_accounts y1) in B2, B3.
  change (connState (bump y1)) with (connState y1) in G5.
  change (wire (bump y1)) with (wire y1) in G6.
  change (_numMsgRecv (bump y1)) with (_numMsgRecv y1 + 1) in G4.
  rewrite A2 in B2, B3. rewrite accounts_truthy, orb_true_r in B3.
  assert (Hready : isReady s3 = true) by (rewrite Hs3; exact B3).
  assert (Hreq : _reqIdSeq s3 = n) by (rewrite Hs3; exact B1).
  split; [unfold result; now rewrite E1, Hd1, E2|].
  split; [unfold result; now rewrite Hrun|].
  split; [now rewrite Hs2|]. split; [now rewrite Hs2|].
  split; [now rewrite Hs2|]. split; [exact Hready|].
  split.
  { rewrite Hs3. change (connState (set_data [] y2)) with (connState y2).
    rewrite G5, F5. unfold y0. now rewrite Hs2. }
  split; [rewrite Hs3; exact B2|].
  split.
  { unfold result, getReqId, bind, get, assert, modify, ret.
    rewrite Hready. cbn [snd]. now rewrite Hreq. }
  split.
  { rewrite Hs3. change (wire (set_data [] y2)) with (wire y2).
    rewrite G6, F6. unfold y0. now rewrite Hs2. }
  split; [now rewrite Hs3|].
  rewrite Hs3. change (_numMsgRecv (set_data [] y2)) with (_numMsgRecv y2).
  rewrite G4, F4. unfold y0. rewrite Hs2. reflexivity.
Qed.
End Session.

Lemma session_establishment_witness :
  let version := B "151" in
  let ct := B "20240101 12:00:00" in
  let a := B "DU1234,DU5678" in
  let v := B "17" in
  let hs := [x00; x00; x00; x09] ++ B "v100..151" in
  let frame := frame_of [FInt 71; FInt 2; FInt 1; FStr []] in
  let s1 := after (_onSocketConnected 100 151 0)
              (open_session (new_client 1)) in
  let d1 := stream_of [terminated [version; ct]] in
  let d2 := stream_of [terminated (managedAccounts_msg a);
                       terminated (nextValidId_msg v)] in
  let s2 := after (_onSocketHasData quiet no_float 1 d1) s1 in
  let s3 := after (_onSocketHasData quiet no_float 2 d2) s2 in
  result (_onSocketHasData quiet no_float 1 d1) s1 = Ret tt
  /\ result (_onSocketHasData quiet no_float 2 d2) s2 = Ret tt
  /\ serverVersion_ s2 = Some 151 /\ connTime s2 = Some ct
  /\ isReady s2 = false /\ isReady s3 = true
  /\ connState s3 = CONNECTED
  /\ _accounts s3 = Some (split COMMA a)
  /\ result getReqId s3 = Ret 17
  /\ wire s3 = [(0%Q, B "API" ++ [NUL] ++ hs); (1%Q, frame)]
  /\ _data s3 = [] /\ _numMsgRecv s3 = 3.
Proof.
  apply (session_establishment quiet no_float 1 100 151 151 17 0 1 2
           (B "151") (B "20240101 12:00:00") (B "DU1234,DU5678") (B "17")
           ([x00; x00; x00; x09] ++ B "v100..151")
           (frame_of [FInt 71; FInt 2; FInt 1; FStr []])).
  - reflexivity.
  - vm_compute. reflexivity.
  - vm_compute. reflexivity.
  - discriminate.
  - vm_compute. reflexivity.
  - vm_compute. reflexivity.
  - vm_compute. reflexivity.
  - repeat constructor; vm_compute; intuition discriminate.
  - repeat constructor; vm_compute; reflexivity.
Defined.

(** ** Debug logging *)

Section DebugLogging.

Variable raises : list event -> event -> bool.
Variable float_ok : bytes -> bool.

(** X24: debug logging can stop the receive loop.  With the logger at
    DEBUG, every field of an extracted frame is decoded for the log line
    before the frame is handled, outside the [try] around [_decode]: a
    frame with a field that is not valid UTF-8 makes [_onSocketHasData]
    raise [UnicodeDecodeError].  The frame has then been taken from the
    buffer and counted, but was never passed to [_decode]; no callback
    ran, [tcpDataProcessed] included, and what followed the frame stays
    in the buffer. *)
Theorem debug_logging_stops_loop (t : Q) (data rest : bytes)
    (fields : list bytes) (s : Client) :
  debug s = true -> tcpDataArrived_set s = false ->
  next_frame (_data s ++ data) = Ret (Some (fields, rest)) ->
  forallb utf8_valid fields = false ->
  _onSocketHasData raises float_ok t data s
  = (bump (set_data rest
             (set_numBytesRecv (_numBytesRecv s + len data) s)),
     Raise UnicodeDecodeError).
Proof.
  intros Hd Ha Hnf Hu.
  pose (s3 := set_numBytesRecv (_numBytesRecv s + len data)
                (set_data (_data s ++ data) s)).
  assert (Hloop : hasData_loop raises float_ok t (S (List.length (_data s3))) s3
                  = (bump (set_data rest s3), Raise UnicodeDecodeError)).
  { cbn [hasData_loop]. unfold bind at 1, get.
    change (_data s3) with (_data s ++ data). rewrite Hnf.
    unfold bind at 1, modify. unfold bind at 1.
    unfold handle_frame, bind at 1, modify. unfold bind at 1, get.
    unfold bind at 1, when.
    change (debug (set_numMsgRecv (_numMsgRecv (set_data rest s3) + 1)
                     (set_data rest s3))) with (debug s).
    rewrite Hd, Hu. reflexivity. }
  unfold _onSocketHasData, when, bind, get, modify, ret.
  rewrite Ha. cbv beta iota.
  change (set_numBytesRecv
            (_numBytesRecv (set_data (_data s ++ data) s) + len data)
            (set_data (_data s ++ data) s)) with s3.
  rewrite Hloop. reflexivity.
Qed.

End DebugLogging.

Lemma debug_logging_stops_loop_witness :
  let s := mkClient CONNECTED (Some 151) None 1 [] (Some (mkConnection true 0 0))
             false false false true [] false 0 None 0 0 0 false [] [] [] [] [] in
  let data := [x00; x00; x00; x09] ++ B "46" ++ [x00] ++ B "1" ++ [x00]
              ++ B "7" ++ [x00] ++ [xff] ++ [x00] in
  _onSocketHasData quiet no_float 0 data s
  = (bump (set_data []
             (set_numBytesRecv (_numBytesRecv s + len data) s)),
     Raise UnicodeDecodeError).
Proof.
  apply (debug_logging_stops_loop quiet no_float 0 _ []
           [B "46"; B "1"; B "7"; [xff]]).
  - reflexivity.
  - reflexivity.
  - vm_compute. reflexivity.
  - vm_compute. reflexivity.
Defined.
